(** * Issue-credential v1.0: the credential manager

    A shallow embedding of [CredentialManager]
    (aries_cloudagent/protocols/issue_credential/v1_0/manager.py) and the
    properties of its flows.

    The manager's coroutines mutate the exchange record they are handed and
    talk to injected capabilities (ledger, issuer, holder, cache, storage,
    responder).  Here a flow is a function in a state-and-exception monad:
    the state is the record object together with the world (the stored
    records, the cache and the log of effects), the result is a value or the
    exception that was raised.  When a flow raises, the record object is what
    the assignments made it until then.

    - A flow that is handed its record ([create_offer], [create_request],
      [issue_credential], [store_credential], [send_credential_ack]) runs on
      a [Frame], the record and the world; a flow that loads its record runs
      on the world and returns the record.
    - Every call that leaves the manager is written to the log of the world;
      the answers of the ledger, the issuer and the holder come from the
      [Profile].
    - [asyncio.sleep] is where the other tasks of the agent run: the
      profile's [during_sleep] changes the stored records and the cache.
    - Failures of the capabilities that the manager does not handle (ledger
      errors, storage errors on save) are not part of the model. *)

From Stdlib Require Import String Ascii ZArith List Bool Lia.
From stdpp Require Import base option list strings pretty gmap.

Open Scope string_scope.
Open Scope list_scope.
Open Scope Z_scope.

(** ** Exchange states, roles, initiators *)

Inductive State :=
  | STATE_PROPOSAL_SENT
  | STATE_PROPOSAL_RECEIVED
  | STATE_OFFER_SENT
  | STATE_OFFER_RECEIVED
  | STATE_REQUEST_SENT
  | STATE_REQUEST_RECEIVED
  | STATE_ISSUED
  | STATE_CREDENTIAL_RECEIVED
  | STATE_ACKED.

Inductive Initiator := INITIATOR_SELF | INITIATOR_EXTERNAL.
Inductive Role := ROLE_ISSUER | ROLE_HOLDER.

#[global] Instance State_eq_dec : EqDecision State.
Proof. solve_decision. Defined.

(** Python truthiness of an optional string: [None] and [""] are falsy. *)
Definition truthy (o : option string) : bool :=
  match o with
  | Some s => negb (String.eqb s "")
  | None => false
  end.

(** [str(x)] of an optional string, as an f-string renders it. *)
Definition py_str (o : option string) : string :=
  match o with Some s => s | None => "None" end.

(** ** Payloads exchanged with the indy capabilities *)

Module IndyOffer.
Record t := {
  schema_id : string;
  cred_def_id : string;
  nonce : string;
  key_correctness_proof : string
}.
End IndyOffer.

(** A credential request and its blinding metadata are opaque to the manager. *)
Definition IndyCredRequest := string.
Definition IndyCredRequestMetadata := string.

Module IndyCredential.
Record t := {
  schema_id : string;
  cred_def_id : string;
  rev_reg_id : option string;
  cred_rev_id : option string;
  values : string
}.
End IndyCredential.

(** ** Messages *)

Module CredAttrSpec.
Record t := { name : string; value : string; mime_type : option string }.
End CredAttrSpec.

Module CredentialPreview.
Record t := { attributes : list CredAttrSpec.t }.

(** [attr_dict()]: attribute name to value; a later attribute of the same
    name overrides an earlier one, as in a dict comprehension. *)
Definition attr_dict (p : t) : gmap string string :=
  fold_left (fun d a => <[CredAttrSpec.name a := CredAttrSpec.value a]> d)
            (attributes p) ∅.

(** [mime_types()]: attribute name to MIME type, for attributes having one. *)
Definition mime_types (p : t) : gmap string string :=
  fold_left (fun d a => match CredAttrSpec.mime_type a with
                        | Some m => <[CredAttrSpec.name a := m]> d
                        | None => d
                        end)
            (attributes p) ∅.
End CredentialPreview.

(** Every agent message has an [@id]; [_thread] holds the [thid] once set and
    [_trace] tells whether a trace decorator is attached. *)
Module CredentialProposal.
Record t := {
  _message_id : string;
  _thread : option string;
  _trace : bool;
  comment : option string;
  credential_proposal : option CredentialPreview.t;
  schema_id : option string;
  schema_issuer_did : option string;
  schema_name : option string;
  schema_version : option string;
  cred_def_id : option string;
  issuer_did : option string
}.

Definition _thread_id (m : t) : string :=
  if truthy (_thread m) then default "" (_thread m) else _message_id m.

Definition assign_trace_decorator (trace : bool) (m : t) : t :=
  {| _message_id := _message_id m; _thread := _thread m;
     _trace := _trace m || trace;
     comment := comment m; credential_proposal := credential_proposal m;
     schema_id := schema_id m; schema_issuer_did := schema_issuer_did m;
     schema_name := schema_name m; schema_version := schema_version m;
     cred_def_id := cred_def_id m; issuer_did := issuer_did m |}.
End CredentialProposal.

Module CredentialOffer.
Record t := {
  _message_id : string;
  _thread : option string;
  _trace : bool;
  comment : option string;
  credential_preview : option CredentialPreview.t;
  offers_attach : list IndyOffer.t
}.

Definition _thread_id (m : t) : string :=
  if truthy (_thread m) then default "" (_thread m) else _message_id m.

(** [indy_offer(index)]: the decoded payload of the attachment at [index]. *)
Definition indy_offer (index : nat) (m : t) : option IndyOffer.t :=
  offers_attach m !! index.
End CredentialOffer.

Module CredentialRequest.
Record t := {
  _message_id : string;
  _thread : option string;
  _trace : bool;
  requests_attach : list IndyCredRequest
}.

Definition _thread_id (m : t) : string :=
  if truthy (_thread m) then default "" (_thread m) else _message_id m.

Definition indy_cred_req (index : nat) (m : t) : option IndyCredRequest :=
  requests_attach m !! index.
End CredentialRequest.

Module CredentialIssue.
Record t := {
  _message_id : string;
  _thread : option string;
  _trace : bool;
  comment : option string;
  credentials_attach : list IndyCredential.t
}.

Definition _thread_id (m : t) : string :=
  if truthy (_thread m) then default "" (_thread m) else _message_id m.

Definition indy_credential (index : nat) (m : t) : option IndyCredential.t :=
  credentials_attach m !! index.
End CredentialIssue.

Module CredentialAck.
Record t := {
  _message_id : string;
  _thread : option string;
  _parent_thread : option string;
  _trace : bool
}.

Definition _thread_id (m : t) : string :=
  if truthy (_thread m) then default "" (_thread m) else _message_id m.
End CredentialAck.

Module CredentialProblemReport.
Record t := {
  _message_id : string;
  _thread : option string;
  description : gmap string string
}.

Definition _thread_id (m : t) : string :=
  if truthy (_thread m) then default "" (_thread m) else _message_id m.
End CredentialProblemReport.

(** [ProblemReportReason.ISSUANCE_ABANDONED.value] *)
Definition ISSUANCE_ABANDONED : string := "issuance-abandoned".

(** ** The credential exchange record *)

(** The fields of [V10CredentialExchange] that the manager reads or writes;
    an unset field is [None]. *)
Record V10CredentialExchange := {
  credential_exchange_id : option string;
  connection_id : option string;
  thread_id : option string;
  parent_thread_id : option string;
  initiator : option Initiator;
  role : option Role;
  state : option State;
  credential_proposal_dict : option CredentialProposal.t;
  credential_offer : option IndyOffer.t;
  credential_offer_dict : option CredentialOffer.t;
  credential_request : option IndyCredRequest;
  credential_request_metadata : option IndyCredRequestMetadata;
  raw_credential : option IndyCredential.t;
  credential : option IndyCredential.t;
  credential_id : option string;
  schema_id : option string;
  credential_definition_id : option string;
  revoc_reg_id : option string;
  revocation_id : option string;
  auto_offer : option bool;
  auto_issue : option bool;
  auto_remove : option bool;
  trace : bool;
  error_msg : option string
}.

(** [r.field = v], one setter for each field the manager assigns. *)

Definition set_credential_exchange_id (v : option string)
    (r : V10CredentialExchange) : V10CredentialExchange :=
  {| credential_exchange_id := v; connection_id := connection_id r;
     thread_id := thread_id r; parent_thread_id := parent_thread_id r;
     initiator := initiator r; role := role r; state := state r;
     credential_proposal_dict := credential_proposal_dict r;
     credential_offer := credential_offer r;
     credential_offer_dict := credential_offer_dict r;
     credential_request := credential_request r;
     credential_request_metadata := credential_request_metadata r;
     raw_credential := raw_credential r; credential := credential r;
     credential_id := credential_id r; schema_id := schema_id r;
     credential_definition_id := credential_definition_id r;
     revoc_reg_id := revoc_reg_id r; revocation_id := revocation_id r;
     auto_offer := auto_offer r; auto_issue := auto_issue r;
     auto_remove := auto_remove r; trace := trace r;
     error_msg := error_msg r |}.

Definition set_connection_id (v : option string)
    (r : V10CredentialExchange) : V10CredentialExchange :=
  {| credential_exchange_id := credential_exchange_id r;
     connection_id := v; thread_id := thread_id r;
     parent_thread_id := parent_thread_id r; initiator := initiator r;
     role := role r; state := state r;
     credential_proposal_dict := credential_proposal_dict r;
     credential_offer := credential_offer r;
     credential_offer_dict := credential_offer_dict r;
     credential_request := credential_request r;
     credential_request_metadata := credential_request_metadata r;
     raw_credential := raw_credential r; credential := credential r;
     credential_id := credential_id r; schema_id := schema_id r;
     credential_definition_id := credential_definition_id r;
     revoc_reg_id := revoc_reg_id r; revocation_id := revocation_id r;
     auto_offer := auto_offer r; auto_issue := auto_issue r;
     auto_remove := auto_remove r; trace := trace r;
     error_msg := error_msg r |}.

Definition set_thread_id (v : option string)
    (r : V10CredentialExchange) : V10CredentialExchange :=
  {| credential_exchange_id := credential_exchange_id r;
     connection_id := connection_id r; thread_id := v;
     parent_thread_id := parent_thread_id r; initiator := initiator r;
     role := role r; state := state r;
     credential_proposal_dict := credential_proposal_dict r;
     credential_offer := credential_offer r;
     credential_offer_dict := credential_offer_dict r;
     credential_request := credential_request r;
     credential_request_metadata := credential_request_metadata r;
     raw_credential := raw_credential r; credential := credential r;
     credential_id := credential_id r; schema_id := schema_id r;
     credential_definition_id := credential_definition_id r;
     revoc_reg_id := revoc_reg_id r; revocation_id := revocation_id r;
     auto_offer := auto_offer r; auto_issue := auto_issue r;
     auto_remove := auto_remove r; trace := trace r;
     error_msg := error_msg r |}.

Definition set_state (v : option State)
    (r : V10CredentialExchange) : V10CredentialExchange :=
  {| credential_exchange_id := credential_exchange_id r;
     connection_id := connection_id r; thread_id := thread_id r;
     parent_thread_id := parent_thread_id r; initiator := initiator r;
     role := role r; state := v;
     credential_proposal_dict := credential_proposal_dict r;
     credential_offer := credential_offer r;
     credential_offer_dict := credential_offer_dict r;
     credential_request := credential_request r;
     credential_request_metadata := credential_request_metadata r;
     raw_credential := raw_credential r; credential := credential r;
     credential_id := credential_id r; schema_id := schema_id r;
     credential_definition_id := credential_definition_id r;
     revoc_reg_id := revoc_reg_id r; revocation_id := revocation_id r;
     auto_offer := auto_offer r; auto_issue := auto_issue r;
     auto_remove := auto_remove r; trace := trace r;
     error_msg := error_msg r |}.

Definition set_credential_proposal_dict (v : option CredentialProposal.t)
    (r : V10CredentialExchange) : V10CredentialExchange :=
  {| credential_exchange_id := credential_exchange_id r;
     connection_id := connection_id r; thread_id := thread_id r;
     parent_thread_id := parent_thread_id r; initiator := initiator r;
     role := role r; state := state r; credential_proposal_dict := v;
     credential_offer := credential_offer r;
     credential_offer_dict := credential_offer_dict r;
     credential_request := credential_request r;
     credential_request_metadata := credential_request_metadata r;
     raw_credential := raw_credential r; credential := credential r;
     credential_id := credential_id r; schema_id := schema_id r;
     credential_definition_id := credential_definition_id r;
     revoc_reg_id := revoc_reg_id r; revocation_id := revocation_id r;
     auto_offer := auto_offer r; auto_issue := auto_issue r;
     auto_remove := auto_remove r; trace := trace r;
     error_msg := error_msg r |}.

Definition set_credential_offer (v : option IndyOffer.t)
    (r : V10CredentialExchange) : V10CredentialExchange :=
  {| credential_exchange_id := credential_exchange_id r;
     connection_id := connection_id r; thread_id := thread_id r;
     parent_thread_id := parent_thread_id r; initiator := initiator r;
     role := role r; state := state r;
     credential_proposal_dict := credential_proposal_dict r;
     credential_offer := v;
     credential_offer_dict := credential_offer_dict r;
     credential_request := credential_request r;
     credential_request_metadata := credential_request_metadata r;
     raw_credential := raw_credential r; credential := credential r;
     credential_id := credential_id r; schema_id := schema_id r;
     credential_definition_id := credential_definition_id r;
     revoc_reg_id := revoc_reg_id r; revocation_id := revocation_id r;
     auto_offer := auto_offer r; auto_issue := auto_issue r;
     auto_remove := auto_remove r; trace := trace r;
     error_msg := error_msg r |}.

Definition set_credential_offer_dict (v : option CredentialOffer.t)
    (r : V10CredentialExchange) : V10CredentialExchange :=
  {| credential_exchange_id := credential_exchange_id r;
     connection_id := connection_id r; thread_id := thread_id r;
     parent_thread_id := parent_thread_id r; initiator := initiator r;
     role := role r; state := state r;
     credential_proposal_dict := credential_proposal_dict r;
     credential_offer := credential_offer r; credential_offer_dict := v;
     credential_request := credential_request r;
     credential_request_metadata := credential_request_metadata r;
     raw_credential := raw_credential r; credential := credential r;
     credential_id := credential_id r; schema_id := schema_id r;
     credential_definition_id := credential_definition_id r;
     revoc_reg_id := revoc_reg_id r; revocation_id := revocation_id r;
     auto_offer := auto_offer r; auto_issue := auto_issue r;
     auto_remove := auto_remove r; trace := trace r;
     error_msg := error_msg r |}.

Definition set_credential_request (v : option IndyCredRequest)
    (r : V10CredentialExchange) : V10CredentialExchange :=
  {| credential_exchange_id := credential_exchange_id r;
     connection_id := connection_id r; thread_id := thread_id r;
     parent_thread_id := parent_thread_id r; initiator := initiator r;
     role := role r; state := state r;
     credential_proposal_dict := credential_proposal_dict r;
     credential_offer := credential_offer r;
     credential_offer_dict := credential_offer_dict r;
     credential_request := v;
     credential_request_metadata := credential_request_metadata r;
     raw_credential := raw_credential r; credential := credential r;
     credential_id := credential_id r; schema_id := schema_id r;
     credential_definition_id := credential_definition_id r;
     revoc_reg_id := revoc_reg_id r; revocation_id := revocation_id r;
     auto_offer := auto_offer r; auto_issue := auto_issue r;
     auto_remove := auto_remove r; trace := trace r;
     error_msg := error_msg r |}.

Definition set_credential_request_metadata (v : option IndyCredRequestMetadata)
    (r : V10CredentialExchange) : V10CredentialExchange :=
  {| credential_exchange_id := credential_exchange_id r;
     connection_id := connection_id r; thread_id := thread_id r;
     parent_thread_id := parent_thread_id r; initiator := initiator r;
     role := role r; state := state r;
     credential_proposal_dict := credential_proposal_dict r;
     credential_offer := credential_offer r;
     credential_offer_dict := credential_offer_dict r;
     credential_request := credential_request r;
     credential_request_metadata := v; raw_credential := raw_credential r;
     credential := credential r; credential_id := credential_id r;
     schema_id := schema_id r;
     credential_definition_id := credential_definition_id r;
     revoc_reg_id := revoc_reg_id r; revocation_id := revocation_id r;
     auto_offer := auto_offer r; auto_issue := auto_issue r;
     auto_remove := auto_remove r; trace := trace r;
     error_msg := error_msg r |}.

Definition set_raw_credential (v : option IndyCredential.t)
    (r : V10CredentialExchange) : V10CredentialExchange :=
  {| credential_exchange_id := credential_exchange_id r;
     connection_id := connection_id r; thread_id := thread_id r;
     parent_thread_id := parent_thread_id r; initiator := initiator r;
     role := role r; state := state r;
     credential_proposal_dict := credential_proposal_dict r;
     credential_offer := credential_offer r;
     credential_offer_dict := credential_offer_dict r;
     credential_request := credential_request r;
     credential_request_metadata := credential_request_metadata r;
     raw_credential := v; credential := credential r;
     credential_id := credential_id r; schema_id := schema_id r;
     credential_definition_id := credential_definition_id r;
     revoc_reg_id := revoc_reg_id r; revocation_id := revocation_id r;
     auto_offer := auto_offer r; auto_issue := auto_issue r;
     auto_remove := auto_remove r; trace := trace r;
     error_msg := error_msg r |}.

Definition set_credential (v : option IndyCredential.t)
    (r : V10CredentialExchange) : V10CredentialExchange :=
  {| credential_exchange_id := credential_exchange_id r;
     connection_id := connection_id r; thread_id := thread_id r;
     parent_thread_id := parent_thread_id r; initiator := initiator r;
     role := role r; state := state r;
     credential_proposal_dict := credential_proposal_dict r;
     credential_offer := credential_offer r;
     credential_offer_dict := credential_offer_dict r;
     credential_request := credential_request r;
     credential_request_metadata := credential_request_metadata r;
     raw_credential := raw_credential r; credential := v;
     credential_id := credential_id r; schema_id := schema_id r;
     credential_definition_id := credential_definition_id r;
     revoc_reg_id := revoc_reg_id r; revocation_id := revocation_id r;
     auto_offer := auto_offer r; auto_issue := auto_issue r;
     auto_remove := auto_remove r; trace := trace r;
     error_msg := error_msg r |}.

Definition set_credential_id (v : option string)
    (r : V10CredentialExchange) : V10CredentialExchange :=
  {| credential_exchange_id := credential_exchange_id r;
     connection_id := connection_id r; thread_id := thread_id r;
     parent_thread_id := parent_thread_id r; initiator := initiator r;
     role := role r; state := state r;
     credential_proposal_dict := credential_proposal_dict r;
     credential_offer := credential_offer r;
     credential_offer_dict := credential_offer_dict r;
     credential_request := credential_request r;
     credential_request_metadata := credential_request_metadata r;
     raw_credential := raw_credential r; credential := credential r;
     credential_id := v; schema_id := schema_id r;
     credential_definition_id := credential_definition_id r;
     revoc_reg_id := revoc_reg_id r; revocation_id := revocation_id r;
     auto_offer := auto_offer r; auto_issue := auto_issue r;
     auto_remove := auto_remove r; trace := trace r;
     error_msg := error_msg r |}.

Definition set_schema_id (v : option string)
    (r : V10CredentialExchange) : V10CredentialExchange :=
  {| credential_exchange_id := credential_exchange_id r;
     connection_id := connection_id r; thread_id := thread_id r;
     parent_thread_id := parent_thread_id r; initiator := initiator r;
     role := role r; state := state r;
     credential_proposal_dict := credential_proposal_dict r;
     credential_offer := credential_offer r;
     credential_offer_dict := credential_offer_dict r;
     credential_request := credential_request r;
     credential_request_metadata := credential_request_metadata r;
     raw_credential := raw_credential r; credential := credential r;
     credential_id := credential_id r; schema_id := v;
     credential_definition_id := credential_definition_id r;
     revoc_reg_id := revoc_reg_id r; revocation_id := revocation_id r;
     auto_offer := auto_offer r; auto_issue := auto_issue r;
     auto_remove := auto_remove r; trace := trace r;
     error_msg := error_msg r |}.

Definition set_credential_definition_id (v : option string)
    (r : V10CredentialExchange) : V10CredentialExchange :=
  {| credential_exchange_id := credential_exchange_id r;
     connection_id := connection_id r; thread_id := thread_id r;
     parent_thread_id := parent_thread_id r; initiator := initiator r;
     role := role r; state := state r;
     credential_proposal_dict := credential_proposal_dict r;
     credential_offer := credential_offer r;
     credential_offer_dict := credential_offer_dict r;
     credential_request := credential_request r;
     credential_request_metadata := credential_request_metadata r;
     raw_credential := raw_credential r; credential := credential r;
     credential_id := credential_id r; schema_id := schema_id r;
     credential_definition_id := v; revoc_reg_id := revoc_reg_id r;
     revocation_id := revocation_id r; auto_offer := auto_offer r;
     auto_issue := auto_issue r; auto_remove := auto_remove r;
     trace := trace r; error_msg := error_msg r |}.

Definition set_revoc_reg_id (v : option string)
    (r : V10CredentialExchange) : V10CredentialExchange :=
  {| credential_exchange_id := credential_exchange_id r;
     connection_id := connection_id r; thread_id := thread_id r;
     parent_thread_id := parent_thread_id r; initiator := initiator r;
     role := role r; state := state r;
     credential_proposal_dict := credential_proposal_dict r;
     credential_offer := credential_offer r;
     credential_offer_dict := credential_offer_dict r;
     credential_request := credential_request r;
     credential_request_metadata := credential_request_metadata r;
     raw_credential := raw_credential r; credential := credential r;
     credential_id := credential_id r; schema_id := schema_id r;
     credential_definition_id := credential_definition_id r;
     revoc_reg_id := v; revocation_id := revocation_id r;
     auto_offer := auto_offer r; auto_issue := auto_issue r;
     auto_remove := auto_remove r; trace := trace r;
     error_msg := error_msg r |}.

Definition set_revocation_id (v : option string)
    (r : V10CredentialExchange) : V10CredentialExchange :=
  {| credential_exchange_id := credential_exchange_id r;
     connection_id := connection_id r; thread_id := thread_id r;
     parent_thread_id := parent_thread_id r; initiator := initiator r;
     role := role r; state := state r;
     credential_proposal_dict := credential_proposal_dict r;
     credential_offer := credential_offer r;
     credential_offer_dict := credential_offer_dict r;
     credential_request := credential_request r;
     credential_request_metadata := credential_request_metadata r;
     raw_credential := raw_credential r; credential := credential r;
     credential_id := credential_id r; schema_id := schema_id r;
     credential_definition_id := credential_definition_id r;
     revoc_reg_id := revoc_reg_id r; revocation_id := v;
     auto_offer := auto_offer r; auto_issue := auto_issue r;
     auto_remove := auto_remove r; trace := trace r;
     error_msg := error_msg r |}.

Definition set_error_msg (v : option string)
    (r : V10CredentialExchange) : V10CredentialExchange :=
  {| credential_exchange_id := credential_exchange_id r;
     connection_id := connection_id r; thread_id := thread_id r;
     parent_thread_id := parent_thread_id r; initiator := initiator r;
     role := role r; state := state r;
     credential_proposal_dict := credential_proposal_dict r;
     credential_offer := credential_offer r;
     credential_offer_dict := credential_offer_dict r;
     credential_request := credential_request r;
     credential_request_metadata := credential_request_metadata r;
     raw_credential := raw_credential r; credential := credential r;
     credential_id := credential_id r; schema_id := schema_id r;
     credential_definition_id := credential_definition_id r;
     revoc_reg_id := revoc_reg_id r; revocation_id := revocation_id r;
     auto_offer := auto_offer r; auto_issue := auto_issue r;
     auto_remove := auto_remove r; trace := trace r; error_msg := v |}.


(** ** Ledger objects *)

Record Schema := { attrNames : list string }.

(** Of a credential definition the manager reads only whether
    [cred_def["value"]] has a [revocation] part. *)
Record CredDef := { cred_def_ident : option string; revocation : bool }.

Record RevRegDef := { rev_reg_def_id : string; tails_location : string }.

(** ** Storage records of the credential definitions the agent sent *)

Module StorageRecord.
Record t := {
  type : string;
  value : string;
  tags : gmap string string;
  id : string
}.
End StorageRecord.

(** The storage type of those records; a constant of
    messaging/credential_definitions/util.py, which is not part of the
    sources.  Nothing depends on its value. *)
Definition CRED_DEF_SENT_RECORD_TYPE : string := "cred_def_sent".

(** Modelled from the spec: the tag names of [CRED_DEF_TAGS]
    (messaging/credential_definitions/util.py is not part of the sources);
    section 4.2 lists them as the proposal's filter. *)
Definition CRED_DEF_TAGS : list string :=
  ["schema_issuer_did"; "schema_name"; "schema_version"; "schema_id";
   "issuer_did"; "cred_def_id"].

(** [getattr(credential_proposal_message, t)] for the tag names. *)
Definition proposal_getattr (m : CredentialProposal.t) (t : string)
  : option string :=
  if String.eqb t "schema_issuer_did" then CredentialProposal.schema_issuer_did m
  else if String.eqb t "schema_name" then CredentialProposal.schema_name m
  else if String.eqb t "schema_version" then CredentialProposal.schema_version m
  else if String.eqb t "schema_id" then CredentialProposal.schema_id m
  else if String.eqb t "issuer_did" then CredentialProposal.issuer_did m
  else if String.eqb t "cred_def_id" then CredentialProposal.cred_def_id m
  else None.

(** ** Issuer revocation registry records *)

Module IssuerRevRegRecord.
Inductive RegState := STATE_POSTED | STATE_ACTIVE | STATE_FULL.

#[global] Instance RegState_eq_dec : EqDecision RegState.
Proof. solve_decision. Defined.

Record t := {
  revoc_reg_id : string;
  cred_def_id : string;
  state : RegState;
  max_cred_num : Z;
  tails_local_path : option string;
  created_at : Z
}.

Definition with_state (s : RegState) (r : t) : t :=
  {| revoc_reg_id := revoc_reg_id r; cred_def_id := cred_def_id r;
     state := s; max_cred_num := max_cred_num r;
     tails_local_path := tails_local_path r; created_at := created_at r |}.

(** [query_by_cred_def_id(session, cred_def_id, state=None)] *)
Definition query_by_cred_def_id (recs : list t) (cdid : option string)
    (st : option RegState) : list t :=
  List.filter
    (fun r => bool_decide (Some (cred_def_id r) = cdid) &&
              match st with
              | Some s => bool_decide (state r = s)
              | None => true
              end)
    recs.

(** Modelled from the spec: the order [sorted()] puts registry records in
    (the record class is not part of the sources).  Section 4.2 has the first
    record of the sorted list be the most recently created one. *)
Definition lt (a b : t) : bool := created_at b <? created_at a.

Fixpoint insert_sorted (x : t) (l : list t) : list t :=
  match l with
  | [] => [x]
  | y :: l' => if lt y x then y :: insert_sorted x l' else x :: y :: l'
  end.

Definition sorted (l : list t) : list t := foldr insert_sorted [] l.
End IssuerRevRegRecord.

(** The in-memory registry that [get_registry()] builds from a record. *)
Record RevocationRegistry := {
  max_creds : Z;
  registry_tails_local_path : option string
}.

(** Modelled from the spec: [IssuerRevRegRecord.get_registry()] (not part of
    the sources); the registry has the capacity and the tails path of its
    record. *)
Definition get_registry (r : IssuerRevRegRecord.t) : RevocationRegistry :=
  {| max_creds := IssuerRevRegRecord.max_cred_num r;
     registry_tails_local_path := IssuerRevRegRecord.tails_local_path r |}.

(** ** Python's [int(str)] *)

Definition is_py_space (c : ascii) : bool :=
  let n := nat_of_ascii c in
  ((9 <=? n) && (n <=? 13) || (28 <=? n) && (n <=? 32))%nat.

Definition digit_of (c : ascii) : option Z :=
  let n := nat_of_ascii c in
  if ((48 <=? n) && (n <=? 57))%nat then Some (Z.of_nat n - 48) else None.

(** Decimal digits, single underscores allowed between two digits. *)
Fixpoint parse_digits (acc : Z) (after_digit : bool) (s : list ascii)
  : option Z :=
  match s with
  | [] => if after_digit then Some acc else None
  | c :: s' =>
      match digit_of c with
      | Some d => parse_digits (10 * acc + d) true s'
      | None =>
          if Ascii.eqb c "_" && after_digit then parse_digits acc false s'
          else None
      end
  end.

Fixpoint lstrip (s : list ascii) : list ascii :=
  match s with
  | c :: s' => if is_py_space c then lstrip s' else s
  | [] => []
  end.

(** [int(s)] for an ASCII string: surrounding whitespace, an optional sign,
    decimal digits; [None] stands for [ValueError]. *)
Definition py_int (s : string) : option Z :=
  let body := rev (lstrip (rev (lstrip (list_ascii_of_string s)))) in
  match body with
  | c :: rest =>
      if Ascii.eqb c "-" then Z.opp <$> parse_digits 0 false rest
      else if Ascii.eqb c "+" then parse_digits 0 false rest
      else parse_digits 0 false body
  | [] => None
  end.

(** ** Exceptions *)

(** The messages of [CredentialManagerError], one constructor for each
    [raise] of the manager; the values its f-string interpolates are the
    constructor's arguments. *)
Inductive ManagerError :=
  | WrongState (exchange_id : option string) (observed : option State)
               (expected : State)
  | NoOperableCredDef (tag_query : gmap string string)
  | PreviewMismatch (preview_attrs schema_attrs : gset string)
  | CannotStartFromRequest
  | NoActiveRevocationRegistry (cred_def_id : option string).

Inductive Exn :=
  | CredentialManagerError (why : ManagerError)
  | StorageNotFoundError
  | IndyIssuerRevocationRegistryFullError
  | IndyHolderError (error_code : string) (message : string)
  | AssertionError
  | AttributeError
  | KeyError
  | IndexError
  | TypeError
  | ValueError
  | UnboundLocalError.

(** ** Calls to the issuer and the holder *)

Record CreateCredentialArgs := {
  cc_schema : Schema;
  cc_cred_offer : IndyOffer.t;
  cc_cred_request : IndyCredRequest;
  cc_credential_values : gmap string string;
  cc_cred_ex_id : option string;
  cc_revoc_reg_id : option string;
  cc_tails_path : option string
}.

Inductive IssuerResult :=
  | Issued (credential_json : IndyCredential.t) (cred_rev_id : option string)
  | RevocationRegistryFull.

Record StoreCredentialArgs := {
  sc_credential_definition : CredDef;
  sc_credential_data : IndyCredential.t;
  sc_credential_request_metadata : option IndyCredRequestMetadata;
  sc_mime_types : option (gmap string string);
  sc_credential_id : option string;
  sc_rev_reg_def : option RevRegDef
}.

Inductive HolderStoreResult :=
  | Stored (credential_id : string)
  | HolderFailure (error_code : string) (message : string).

(** ** Effects *)

Inductive LogLevel := INFO | WARNING | ERROR | EXCEPTION.

Inductive Event :=
  | EvLedger (method : string) (arg : option string)
  | EvIssuerCreateCredentialOffer (cred_def_id : string)
  | EvIssuerCreateCredential (args : CreateCredentialArgs)
  | EvHolderCreateCredentialRequest (cred_def_id : option string)
                                    (holder_did : string)
  | EvHolderStoreCredential (args : StoreCredentialArgs)
  | EvHolderGetCredential (credential_id : string)
  | EvFetchTails (revoc_reg_id : string)
  | EvNotifyRevocationReg (cred_def_id : option string)
                          (rev_reg_size : option Z)
                          (auto_create_rev_reg : bool)
  | EvRevRegSetState (revoc_reg_id : string)
                     (new_state : IssuerRevRegRecord.RegState)
  | EvSleep (seconds : Z)
  | EvCacheSetResult (key : string) (ttl : Z)
  | EvSave (exchange_id : string) (reason : string)
  | EvDeleteRecord (exchange_id : option string)
  | EvSendReply (message : CredentialAck.t) (connection_id : option string)
  | EvLog (level : LogLevel) (text : string) (args : list string).

(** The calls that reach the issuer's or the holder's cryptography. *)
Definition is_crypto_call (e : Event) : bool :=
  match e with
  | EvIssuerCreateCredentialOffer _ | EvIssuerCreateCredential _
  | EvHolderCreateCredentialRequest _ _ | EvHolderStoreCredential _ => true
  | _ => false
  end.

Definition is_notification (e : Event) : bool :=
  match e with EvNotifyRevocationReg _ _ _ => true | _ => false end.

Definition is_set_state (e : Event) : bool :=
  match e with EvRevRegSetState _ _ => true | _ => false end.

(** ** The world a flow runs in *)

Inductive CacheValue :=
  | CachedOffer (offer : IndyOffer.t)
  | CachedRequest (request : IndyCredRequest)
                  (metadata : IndyCredRequestMetadata).

Record World := {
  exchange_records : list V10CredentialExchange;
  storage_records : list StorageRecord.t;
  rev_reg_records : list IssuerRevRegRecord.t;
  cache : option (gmap string CacheValue);
  uuid_counter : nat;
  log : list Event
}.

Definition set_exchange_records (v : list V10CredentialExchange) (w : World)
  : World :=
  {| exchange_records := v; storage_records := storage_records w;
     rev_reg_records := rev_reg_records w; cache := cache w;
     uuid_counter := uuid_counter w; log := log w |}.

Definition set_rev_reg_records (v : list IssuerRevRegRecord.t) (w : World)
  : World :=
  {| exchange_records := exchange_records w;
     storage_records := storage_records w;
     rev_reg_records := v; cache := cache w;
     uuid_counter := uuid_counter w; log := log w |}.

Definition set_cache (v : option (gmap string CacheValue)) (w : World)
  : World :=
  {| exchange_records := exchange_records w;
     storage_records := storage_records w;
     rev_reg_records := rev_reg_records w; cache := v;
     uuid_counter := uuid_counter w; log := log w |}.

Definition set_uuid_counter (v : nat) (w : World) : World :=
  {| exchange_records := exchange_records w;
     storage_records := storage_records w;
     rev_reg_records := rev_reg_records w; cache := cache w;
     uuid_counter := v; log := log w |}.

Definition set_log (v : list Event) (w : World) : World :=
  {| exchange_records := exchange_records w;
     storage_records := storage_records w;
     rev_reg_records := rev_reg_records w; cache := cache w;
     uuid_counter := uuid_counter w; log := v |}.

(** The profile: settings and injected capabilities.  The answers of the
    issuer and the holder may depend on everything that happened before
    (the log); [during_sleep] is what the other tasks of the agent do to the
    storage and the cache while this one sleeps. *)
Module Profile.
Record t := {
  preserve_exchange_records : option bool;
  auto_respond_credential_proposal : option bool;
  auto_respond_credential_request : option bool;
  credential_definition_id2schema_id : string -> string;
  get_schema : option string -> Schema;
  get_credential_definition : option string -> CredDef;
  get_revoc_reg_def : string -> RevRegDef;
  create_credential_offer : list Event -> string -> IndyOffer.t;
  create_credential : list Event -> CreateCredentialArgs -> IssuerResult;
  create_credential_request :
    list Event -> IndyOffer.t -> CredDef -> string ->
    IndyCredRequest * IndyCredRequestMetadata;
  store_credential : list Event -> StoreCredentialArgs -> HolderStoreResult;
  get_credential : list Event -> string -> IndyCredential.t;
  responder : bool;
  uuid4 : nat -> string;
  during_sleep : Z -> World -> World
}.
End Profile.

(** ** The monad of flows *)

Inductive Res (A : Type) : Type :=
  | Ok (a : A)
  | Raise (e : Exn).
Arguments Ok {A} a.
Arguments Raise {A} e.

Definition M (S A : Type) : Type := S -> Res A * S.

Definition ret {S A : Type} (a : A) : M S A := fun s => (Ok a, s).

Definition raise {S A : Type} (e : Exn) : M S A := fun s => (Raise e, s).

Definition bind {S A B : Type} (c : M S A) (k : A -> M S B) : M S B :=
  fun s =>
    match c s with
    | (Ok a, s') => k a s'
    | (Raise e, s') => (Raise e, s')
    end.

(** [try: c except ...: h]; the handler says which exceptions it takes. *)
Definition try_except {S A : Type} (c : M S A) (h : Exn -> option (M S A))
  : M S A :=
  fun s =>
    match c s with
    | (Ok a, s') => (Ok a, s')
    | (Raise e, s') =>
        match h e with
        | Some k => k s'
        | None => (Raise e, s')
        end
    end.

Notation "'let*' x ':=' c 'in' k" := (bind c (fun x => k))
  (at level 10, x name, c at level 100, k at level 200).
Notation "c '>>' k" := (bind c (fun _ => k))
  (at level 190, right associativity).

(** A flow handed a record runs on the record object and the world. *)
Definition Frame : Type := V10CredentialExchange * World.

Definition this : M Frame V10CredentialExchange :=
  fun s => (Ok (fst s), s).

Definition assign (f : V10CredentialExchange -> V10CredentialExchange)
  : M Frame unit :=
  fun s => (Ok tt, (f (fst s), snd s)).

Definition in_world {A : Type} (c : M World A) : M Frame A :=
  fun s => (fst (c (snd s)), (fst s, snd (c (snd s)))).

(** Reading an attribute of [None] raises [AttributeError]. *)
Definition attr {S A : Type} (o : option A) : M S A :=
  match o with Some a => ret a | None => raise AttributeError end.

(** ** Primitive effects *)

Definition emit (e : Event) : M World unit :=
  fun w => (Ok tt, set_log (log w ++ [e]) w).

Definition new_uuid (P : Profile.t) : M World string :=
  fun w => (Ok (Profile.uuid4 P (uuid_counter w)),
            set_uuid_counter (S (uuid_counter w)) w).

(** [asyncio.sleep(n)]: the other tasks run; they do not write this task's
    log. *)
Definition sleep (P : Profile.t) (n : Z) : M World unit :=
  fun w =>
    let w' := Profile.during_sleep P n w in
    (Ok tt, set_log (log w ++ [EvSleep n])
              (set_uuid_counter (uuid_counter w) w')).

Definition notify_revocation_reg_event (cred_def_id : option string)
    (rev_reg_size : option Z) (auto_create_rev_reg : bool) : M World unit :=
  emit (EvNotifyRevocationReg cred_def_id rev_reg_size auto_create_rev_reg).

(** *** The record store *)

Definition same_record (a b : V10CredentialExchange) : bool :=
  match credential_exchange_id a, credential_exchange_id b with
  | Some i, Some j => String.eqb i j
  | _, _ => false
  end.

Definition store_put (r : V10CredentialExchange)
    (l : list V10CredentialExchange) : list V10CredentialExchange :=
  if existsb (same_record r) l
  then map (fun x => if same_record r x then r else x) l
  else l ++ [r].

(** Modelled from the spec: [save] of the record store (BaseRecord is not
    part of the sources).  A record without an identifier gets one; the
    serialized record is written over the stored one of the same
    identifier. *)
Definition save_record (P : Profile.t) (reason : string)
    (r : V10CredentialExchange) : M World V10CredentialExchange :=
  match credential_exchange_id r with
  | Some i =>
      fun w => (Ok r, set_log (log w ++ [EvSave i reason])
                        (set_exchange_records
                           (store_put r (exchange_records w)) w))
  | None =>
      let* i := new_uuid P in
      let r' := set_credential_exchange_id (Some i) r in
      fun w => (Ok r', set_log (log w ++ [EvSave i reason])
                         (set_exchange_records
                            (store_put r' (exchange_records w)) w))
  end.

(** [cred_ex_record.save(session, reason=...)] on the record of the frame. *)
Definition save (P : Profile.t) (reason : string) : M Frame unit :=
  let* r := this in
  let* r' := in_world (save_record P reason r) in
  assign (fun _ => r').

(** Modelled from the spec: [delete_record] removes the one record. *)
Definition delete_record (r : V10CredentialExchange) : M World unit :=
  fun w => (Ok tt, set_log (log w ++ [EvDeleteRecord (credential_exchange_id r)])
                     (set_exchange_records
                        (List.filter (fun x => negb (same_record r x))
                                     (exchange_records w)) w)).

(** Modelled from the spec: [retrieve_by_tag_filter] returns the record whose
    thread and connection are the given ones and fails with
    [StorageNotFound] on a miss. *)
Definition retrieve_by_tag_filter (thid : string) (conn_id : option string)
  : M World V10CredentialExchange :=
  fun w =>
    match List.find (fun r => bool_decide (thread_id r = Some thid) &&
                              bool_decide (connection_id r = conn_id))
                    (exchange_records w) with
    | Some r => (Ok r, w)
    | None => (Raise StorageNotFoundError, w)
    end.

(** Modelled from the spec: the indexed lookup by (connection, thread). *)
Definition retrieve_by_connection_and_thread (conn_id : option string)
    (thid : string) : M World V10CredentialExchange :=
  retrieve_by_tag_filter thid conn_id.

(** Modelled from the spec: [find_all_records] of the storage returns the
    records of the type whose tags carry every entry of the query. *)
Definition find_all_records (type_filter : string)
    (tag_query : gmap string string) : M World (list StorageRecord.t) :=
  fun w =>
    (Ok (List.filter
           (fun r => String.eqb (StorageRecord.type r) type_filter &&
                     bool_decide (tag_query ⊆ StorageRecord.tags r))
           (storage_records w)), w).

(** *** Revocation registry records *)

(** Modelled from the spec: [get_active_issuer_rev_reg_record] (IndyRevocation
    is not part of the sources) returns an active registry record of the
    credential definition and fails with [StorageNotFound] when there is
    none. *)
Definition get_active_issuer_rev_reg_record (cdid : option string)
  : M World IssuerRevRegRecord.t :=
  fun w =>
    match IssuerRevRegRecord.query_by_cred_def_id
            (rev_reg_records w) cdid (Some IssuerRevRegRecord.STATE_ACTIVE) with
    | r :: _ => (Ok r, w)
    | [] => (Raise StorageNotFoundError, w)
    end.

Definition rev_reg_put (r : IssuerRevRegRecord.t)
    (l : list IssuerRevRegRecord.t) : list IssuerRevRegRecord.t :=
  let same x := String.eqb (IssuerRevRegRecord.revoc_reg_id x)
                           (IssuerRevRegRecord.revoc_reg_id r) in
  if existsb same l then map (fun x => if same x then r else x) l
  else l ++ [r].

(** Modelled from the spec: [set_state] gives the record the state and saves
    it. *)
Definition rev_reg_set_state (r : IssuerRevRegRecord.t)
    (s : IssuerRevRegRecord.RegState) : M World unit :=
  fun w =>
    (Ok tt,
     set_log (log w ++ [EvRevRegSetState (IssuerRevRegRecord.revoc_reg_id r) s])
       (set_rev_reg_records
          (rev_reg_put (IssuerRevRegRecord.with_state s r) (rev_reg_records w))
          w)).

Definition query_rev_regs (cdid : option string)
    (st : option IssuerRevRegRecord.RegState)
  : M World (list IssuerRevRegRecord.t) :=
  fun w => (Ok (IssuerRevRegRecord.query_by_cred_def_id
                  (rev_reg_records w) cdid st), w).

(** *** Ledger, issuer, holder *)

Definition ledger_get_schema (P : Profile.t) (sid : option string)
  : M World Schema :=
  emit (EvLedger "get_schema" sid) >> ret (Profile.get_schema P sid).

Definition ledger_get_credential_definition (P : Profile.t)
    (cdid : option string) : M World CredDef :=
  emit (EvLedger "get_credential_definition" cdid) >>
  ret (Profile.get_credential_definition P cdid).

Definition ledger_credential_definition_id2schema_id (P : Profile.t)
    (cdid : string) : M World string :=
  emit (EvLedger "credential_definition_id2schema_id" (Some cdid)) >>
  ret (Profile.credential_definition_id2schema_id P cdid).

Definition ledger_get_revoc_reg_def (P : Profile.t) (rrid : string)
  : M World RevRegDef :=
  emit (EvLedger "get_revoc_reg_def" (Some rrid)) >>
  ret (Profile.get_revoc_reg_def P rrid).

Definition issuer_create_credential_offer (P : Profile.t) (cdid : string)
  : M World IndyOffer.t :=
  fun w =>
    (Ok (Profile.create_credential_offer P (log w) cdid),
     set_log (log w ++ [EvIssuerCreateCredentialOffer cdid]) w).

(** [IndyIssuerRevocationRegistryFullError] is the one failure of the issuer
    the manager handles. *)
Definition issuer_create_credential (P : Profile.t)
    (args : CreateCredentialArgs)
  : M World (IndyCredential.t * option string) :=
  fun w =>
    let w' := set_log (log w ++ [EvIssuerCreateCredential args]) w in
    match Profile.create_credential P (log w) args with
    | Issued c rid => (Ok (c, rid), w')
    | RevocationRegistryFull => (Raise IndyIssuerRevocationRegistryFullError, w')
    end.

Definition holder_create_credential_request (P : Profile.t)
    (offer : IndyOffer.t) (cd : CredDef) (cdid : option string)
    (holder_did : string)
  : M World (IndyCredRequest * IndyCredRequestMetadata) :=
  fun w =>
    (Ok (Profile.create_credential_request P (log w) offer cd holder_did),
     set_log (log w ++ [EvHolderCreateCredentialRequest cdid holder_did]) w).

Definition holder_store_credential (P : Profile.t)
    (args : StoreCredentialArgs) : M World string :=
  fun w =>
    let w' := set_log (log w ++ [EvHolderStoreCredential args]) w in
    match Profile.store_credential P (log w) args with
    | Stored cid => (Ok cid, w')
    | HolderFailure code msg => (Raise (IndyHolderError code msg), w')
    end.

Definition holder_get_credential (P : Profile.t) (cid : string)
  : M World IndyCredential.t :=
  fun w =>
    (Ok (Profile.get_credential P (log w) cid),
     set_log (log w ++ [EvHolderGetCredential cid]) w).

(** [not settings.get("preserve_exchange_records")] *)
Definition default_auto_remove (P : Profile.t) : bool :=
  negb (default false (Profile.preserve_exchange_records P)).

(** ** The flows of [CredentialManager] *)

Fixpoint map_m {S A B : Type} (f : A -> M S B) (l : list A) : M S (list B) :=
  match l with
  | [] => ret []
  | x :: l' =>
      let* y := f x in
      let* ys := map_m f l' in
      ret (y :: ys)
  end.

(** [int(r.tags["epoch"])] *)
Definition epoch_key {S : Type} (r : StorageRecord.t) : M S Z :=
  match StorageRecord.tags r !! "epoch" with
  | None => raise KeyError
  | Some e =>
      match py_int e with
      | Some n => ret n
      | None => raise ValueError
      end
  end.

(** [max(items, key=...)] keeps the first item of the largest key. *)
Fixpoint max_by_key {A : Type} (best : A) (best_key : Z)
    (l : list (A * Z)) : A :=
  match l with
  | [] => best
  | (x, k) :: l' =>
      if best_key <? k then max_by_key x k l' else max_by_key best best_key l'
  end.

Definition _match_sent_cred_def_id (tag_query : gmap string string)
  : M World string :=
  let* found := find_all_records CRED_DEF_SENT_RECORD_TYPE tag_query in
  match found with
  | [] => raise (CredentialManagerError (NoOperableCredDef tag_query))
  | r0 :: rest =>
      let* k0 := epoch_key r0 in
      let* ks := map_m epoch_key rest in
      let best := max_by_key r0 k0 (zip rest ks) in
      match StorageRecord.tags best !! "cred_def_id" with
      | Some c => ret c
      | None => raise KeyError
      end
  end.

(** The tag query of [create_offer]: the proposal's truthy selectors. *)
Definition cred_def_tag_query (m : CredentialProposal.t)
  : gmap string string :=
  fold_left
    (fun q t =>
       match proposal_getattr m t with
       | Some v => if truthy (Some v) then <[t := v]> q else q
       | None => q
       end)
    CRED_DEF_TAGS ∅.

Definition new_exchange_record : V10CredentialExchange :=
  {| credential_exchange_id := None; connection_id := None;
     thread_id := None; parent_thread_id := None;
     initiator := None; role := None; state := None;
     credential_proposal_dict := None; credential_offer := None;
     credential_offer_dict := None; credential_request := None;
     credential_request_metadata := None; raw_credential := None;
     credential := None; credential_id := None; schema_id := None;
     credential_definition_id := None; revoc_reg_id := None;
     revocation_id := None; auto_offer := None; auto_issue := None;
     auto_remove := None; trace := false; error_msg := None |}.

(** The offer payload of [create_offer], through the cache when there is
    one.  A cache entry is whatever was put under the key. *)
Definition obtain_credential_offer (P : Profile.t) (cdid : string)
  : M World CacheValue :=
  let cache_key := "credential_offer::" +:+ cdid in
  let _create := issuer_create_credential_offer P cdid in
  fun w =>
    match cache w with
    | Some entries =>
        match entries !! cache_key with
        | Some result => (Ok result, w)
        | None =>
            (let* offer := _create in
             let* _ := (fun w' =>
               (Ok tt, set_cache
                         (Some (<[cache_key := CachedOffer offer]> entries))
                         w')) in
             let* _ := emit (EvCacheSetResult cache_key 3600) in
             ret (CachedOffer offer)) w
        end
    | None => (let* offer := _create in ret (CachedOffer offer)) w
    end.

Definition create_offer (P : Profile.t)
    (counter_proposal : option CredentialProposal.t)
    (comment : option string) : M Frame CredentialOffer.t :=
  let* r := this in
  let* credential_proposal_message :=
    attr (match counter_proposal with
          | Some c => Some c
          | None => credential_proposal_dict r
          end) in
  let credential_proposal_message :=
    CredentialProposal.assign_trace_decorator (trace r)
      credential_proposal_message in
  let* cred_def_id :=
    in_world (_match_sent_cred_def_id
                (cred_def_tag_query credential_proposal_message)) in
  let credential_preview :=
    CredentialProposal.credential_proposal credential_proposal_message in
  (* vet attributes *)
  let* sid :=
    in_world (ledger_credential_definition_id2schema_id P cred_def_id) in
  let* schema := in_world (ledger_get_schema P (Some sid)) in
  let schema_attrs : gset string := list_to_set (attrNames schema) in
  let* preview := attr credential_preview in
  let preview_attrs : gset string :=
    dom (CredentialPreview.attr_dict preview) in
  if bool_decide (preview_attrs ≠ schema_attrs) then
    raise (CredentialManagerError (PreviewMismatch preview_attrs schema_attrs))
  else
  let* credential_offer_value :=
    in_world (obtain_credential_offer P cred_def_id) in
  let* message_id := in_world (new_uuid P) in
  let* r := this in
  let thid := if truthy (thread_id r) then default "" (thread_id r)
              else message_id in
  let* _ := assign (set_thread_id (Some thid)) in
  match credential_offer_value with
  | CachedRequest _ _ => raise KeyError
  | CachedOffer offer =>
      let credential_offer_message :=
        {| CredentialOffer._message_id := message_id;
           CredentialOffer._thread := thread_id r;
           CredentialOffer._trace := trace r;
           CredentialOffer.comment := comment;
           CredentialOffer.credential_preview := credential_preview;
           CredentialOffer.offers_attach := [offer] |} in
      let* _ := assign (set_schema_id (Some (IndyOffer.schema_id offer))) in
      let* _ := assign (set_credential_definition_id
                          (Some (IndyOffer.cred_def_id offer))) in
      let* _ := assign (set_state (Some STATE_OFFER_SENT)) in
      let* _ := assign (set_credential_proposal_dict
                          (Some credential_proposal_message)) in
      let* _ := assign (set_credential_offer (Some offer)) in
      let* _ := assign (set_credential_offer_dict
                          (Some credential_offer_message)) in
      let* _ := save P "create credential offer" in
      ret credential_offer_message
  end.

Definition prepare_send (P : Profile.t) (conn_id : option string)
    (credential_proposal : CredentialProposal.t)
    (auto_remove_arg : option bool) (comment : option string)
  : M World (V10CredentialExchange * CredentialOffer.t) :=
  let auto_remove_value :=
    match auto_remove_arg with
    | None => default_auto_remove P
    | Some b => b
    end in
  let credential_exchange :=
    {| credential_exchange_id := None; connection_id := conn_id;
       thread_id := None; parent_thread_id := None;
       initiator := Some INITIATOR_SELF; role := Some ROLE_ISSUER;
       state := None;
       credential_proposal_dict := Some credential_proposal;
       credential_offer := None; credential_offer_dict := None;
       credential_request := None; credential_request_metadata := None;
       raw_credential := None; credential := None; credential_id := None;
       schema_id := None; credential_definition_id := None;
       revoc_reg_id := None; revocation_id := None;
       auto_offer := None; auto_issue := Some true;
       auto_remove := Some auto_remove_value;
       trace := CredentialProposal._trace credential_proposal;
       error_msg := None |} in
  fun w =>
    match create_offer P None comment (credential_exchange, w) with
    | (Ok credential_offer, (r, w')) => (Ok (r, credential_offer), w')
    | (Raise e, (_, w')) => (Raise e, w')
    end.

Definition create_proposal (P : Profile.t) (conn_id : option string)
    (auto_offer_arg auto_remove_arg : option bool)
    (comment : option string)
    (credential_preview : option CredentialPreview.t)
    (schema_id_arg schema_issuer_did schema_name schema_version
       cred_def_id issuer_did : option string)
    (trace_arg : bool) : M World V10CredentialExchange :=
  let* message_id := new_uuid P in
  let credential_proposal_message :=
    CredentialProposal.assign_trace_decorator trace_arg
      {| CredentialProposal._message_id := message_id;
         CredentialProposal._thread := None;
         CredentialProposal._trace := false;
         CredentialProposal.comment := comment;
         CredentialProposal.credential_proposal := credential_preview;
         CredentialProposal.schema_id := schema_id_arg;
         CredentialProposal.schema_issuer_did := schema_issuer_did;
         CredentialProposal.schema_name := schema_name;
         CredentialProposal.schema_version := schema_version;
         CredentialProposal.cred_def_id := cred_def_id;
         CredentialProposal.issuer_did := issuer_did |} in
  let auto_remove_value :=
    match auto_remove_arg with
    | None => default_auto_remove P
    | Some b => b
    end in
  let cred_ex_record :=
    {| credential_exchange_id := None; connection_id := conn_id;
       thread_id :=
         Some (CredentialProposal._thread_id credential_proposal_message);
       parent_thread_id := None;
       initiator := Some INITIATOR_SELF; role := Some ROLE_HOLDER;
       state := Some STATE_PROPOSAL_SENT;
       credential_proposal_dict := Some credential_proposal_message;
       credential_offer := None; credential_offer_dict := None;
       credential_request := None; credential_request_metadata := None;
       raw_credential := None; credential := None; credential_id := None;
       schema_id := None; credential_definition_id := None;
       revoc_reg_id := None; revocation_id := None;
       auto_offer := auto_offer_arg; auto_issue := None;
       auto_remove := Some auto_remove_value;
       trace := trace_arg; error_msg := None |} in
  save_record P "create credential proposal" cred_ex_record.

Definition receive_proposal (P : Profile.t) (message : CredentialProposal.t)
    (conn_id : option string) : M World V10CredentialExchange :=
  (* at this point, cred def and schema still open to potential negotiation *)
  let cred_ex_record :=
    {| credential_exchange_id := None; connection_id := conn_id;
       thread_id := Some (CredentialProposal._thread_id message);
       parent_thread_id := None;
       initiator := Some INITIATOR_EXTERNAL; role := Some ROLE_ISSUER;
       state := Some STATE_PROPOSAL_RECEIVED;
       credential_proposal_dict := Some message;
       credential_offer := None; credential_offer_dict := None;
       credential_request := None; credential_request_metadata := None;
       raw_credential := None; credential := None; credential_id := None;
       schema_id := None; credential_definition_id := None;
       revoc_reg_id := None; revocation_id := None;
       auto_offer := Profile.auto_respond_credential_proposal P;
       auto_issue := Profile.auto_respond_credential_request P;
       auto_remove := Some (default_auto_remove P);
       trace := CredentialProposal._trace message;
       error_msg := None |} in
  save_record P "receive credential proposal" cred_ex_record.

(** [StorageNotFoundError] is the exception the lookups are guarded for. *)
Definition on_not_found {S A : Type} (k : M S A) (e : Exn) : option (M S A) :=
  match e with
  | StorageNotFoundError => Some k
  | _ => None
  end.

Definition receive_offer (P : Profile.t) (message : CredentialOffer.t)
    (conn_id : option string) : M World V10CredentialExchange :=
  let credential_preview := CredentialOffer.credential_preview message in
  match CredentialOffer.indy_offer 0 message with
  | None => raise IndexError
  | Some indy_offer =>
      let offer_schema_id := IndyOffer.schema_id indy_offer in
      let cred_def_id := IndyOffer.cred_def_id indy_offer in
      let* message_id := new_uuid P in
      let credential_proposal :=
        {| CredentialProposal._message_id := message_id;
           CredentialProposal._thread := None;
           CredentialProposal._trace := false;
           CredentialProposal.comment := CredentialOffer.comment message;
           CredentialProposal.credential_proposal := credential_preview;
           CredentialProposal.schema_id := Some offer_schema_id;
           CredentialProposal.schema_issuer_did := None;
           CredentialProposal.schema_name := None;
           CredentialProposal.schema_version := None;
           CredentialProposal.cred_def_id := Some cred_def_id;
           CredentialProposal.issuer_did := None |} in
      (* Get credential exchange record (holder sent proposal first)
         or create it (issuer sent offer first) *)
      let* cred_ex_record :=
        try_except
          (let* found := retrieve_by_connection_and_thread conn_id
                           (CredentialOffer._thread_id message) in
           ret (set_credential_proposal_dict (Some credential_proposal) found))
          (on_not_found (* issuer sent this offer free of any proposal *)
             (ret
               {| credential_exchange_id := None; connection_id := conn_id;
                  thread_id := Some (CredentialOffer._thread_id message);
                  parent_thread_id := None;
                  initiator := Some INITIATOR_EXTERNAL;
                  role := Some ROLE_HOLDER; state := None;
                  credential_proposal_dict := Some credential_proposal;
                  credential_offer := None; credential_offer_dict := None;
                  credential_request := None;
                  credential_request_metadata := None;
                  raw_credential := None; credential := None;
                  credential_id := None; schema_id := None;
                  credential_definition_id := None;
                  revoc_reg_id := None; revocation_id := None;
                  auto_offer := None; auto_issue := None;
                  auto_remove := Some (default_auto_remove P);
                  trace := CredentialOffer._trace message;
                  error_msg := None |})) in
      let cred_ex_record := set_credential_offer (Some indy_offer) cred_ex_record in
      let cred_ex_record := set_state (Some STATE_OFFER_RECEIVED) cred_ex_record in
      let cred_ex_record := set_schema_id (Some offer_schema_id) cred_ex_record in
      let cred_ex_record :=
        set_credential_definition_id (Some cred_def_id) cred_ex_record in
      save_record P "receive credential offer" cred_ex_record
  end.

(** The request and its metadata of [create_request], through the cache when
    there is one. *)
Definition obtain_credential_request (P : Profile.t)
    (cdid : option string) (cred_offer_ser : IndyOffer.t) (holder_did : string)
  : M World CacheValue :=
  let _create : M World CacheValue :=
    let* credential_definition := ledger_get_credential_definition P cdid in
    let* created := holder_create_credential_request P cred_offer_ser
                      credential_definition cdid holder_did in
    ret (CachedRequest (fst created) (snd created)) in
  let nonce := IndyOffer.nonce cred_offer_ser in
  let cache_key :=
    "credential_request::" +:+ py_str cdid +:+ "::" +:+ holder_did +:+ "::"
      +:+ nonce in
  fun w =>
    match cache w with
    | Some entries =>
        match entries !! cache_key with
        | Some result => (Ok result, w)
        | None =>
            (let* cred_req_result := _create in
             let* _ := (fun w' =>
               (Ok tt, set_cache
                         (Some (<[cache_key := cred_req_result]> entries))
                         w')) in
             let* _ := emit (EvCacheSetResult cache_key 3600) in
             ret cred_req_result) w
        end
    | None => _create w
    end.

Definition create_request (P : Profile.t) (holder_did : string)
  : M Frame CredentialRequest.t :=
  let* r := this in
  if bool_decide (state r ≠ Some STATE_OFFER_RECEIVED) then
    raise (CredentialManagerError
             (WrongState (credential_exchange_id r) (state r)
                         STATE_OFFER_RECEIVED))
  else
  let cdid := credential_definition_id r in
  let* cred_offer_ser := attr (credential_offer r) in
  let* _ :=
    match credential_request r with
    | Some _ =>
        in_world
          (emit (EvLog WARNING
                   "create_request called multiple times for v1.0 credential exchange: %s"
                   [py_str (credential_exchange_id r)]))
    | None =>
        let* cred_req_result :=
          in_world (obtain_credential_request P cdid cred_offer_ser holder_did) in
        match cred_req_result with
        | CachedOffer _ => raise KeyError
        | CachedRequest request metadata =>
            let* _ := assign (set_credential_request (Some request)) in
            assign (set_credential_request_metadata (Some metadata))
        end
    end in
  let* r := this in
  let* request_ser := attr (credential_request r) in
  let* message_id := in_world (new_uuid P) in
  let credential_request_message :=
    {| CredentialRequest._message_id := message_id;
       CredentialRequest._thread := thread_id r;
       CredentialRequest._trace := trace r;
       CredentialRequest.requests_attach := [request_ser] |} in
  let* _ := assign (set_state (Some STATE_REQUEST_SENT)) in
  let* _ := save P "create credential request" in
  ret credential_request_message.

Definition receive_request (P : Profile.t) (message : CredentialRequest.t)
    (conn_id : option string) : M World V10CredentialExchange :=
  if negb (length (CredentialRequest.requests_attach message) =? 1)%nat
  then raise AssertionError
  else
  let* credential_request_value :=
    match CredentialRequest.indy_cred_req 0 message with
    | Some q => ret q
    | None => raise IndexError
    end in
  let* cred_ex_record :=
    try_except
      (retrieve_by_connection_and_thread conn_id
         (CredentialRequest._thread_id message))
      (on_not_found
         (try_except
            (let* found := retrieve_by_tag_filter
                             (CredentialRequest._thread_id message) None in
             ret (set_connection_id conn_id found))
            (on_not_found
               (raise (CredentialManagerError CannotStartFromRequest))))) in
  let cred_ex_record :=
    set_credential_request (Some credential_request_value) cred_ex_record in
  let cred_ex_record :=
    set_state (Some STATE_REQUEST_RECEIVED) cred_ex_record in
  save_record P "receive credential request" cred_ex_record.

(** [int(cred_ex_record.revocation_id)] *)
Definition int_of_revocation_id {S : Type} (o : option string) : M S Z :=
  match o with
  | None => raise TypeError
  | Some s =>
      match py_int s with
      | Some n => ret n
      | None => raise ValueError
      end
  end.

(** The tail of [issue_credential]: the record becomes [ISSUED], is saved,
    and the issue message is built from the record's credential. *)
Definition issue_credential_finish (P : Profile.t) (comment : option string)
  : M Frame CredentialIssue.t :=
  let* _ := assign (set_state (Some STATE_ISSUED)) in
  let* _ := save P "issue credential" in
  let* r := this in
  let* credential_ser := attr (credential r) in
  let* message_id := in_world (new_uuid P) in
  ret {| CredentialIssue._message_id := message_id;
         CredentialIssue._thread := thread_id r;
         CredentialIssue._trace := trace r;
         CredentialIssue.comment := comment;
         CredentialIssue.credentials_attach := [credential_ser] |}.

(** A [return] from inside a block leaves the flow with the message; the
    block's own result is on the left. *)
Fixpoint issue_credential (P : Profile.t) (comment : option string)
    (retries : nat) {struct retries} : M Frame CredentialIssue.t :=
  let* r := this in
  if bool_decide (state r ≠ Some STATE_REQUEST_RECEIVED) then
    raise (CredentialManagerError
             (WrongState (credential_exchange_id r) (state r)
                         STATE_REQUEST_RECEIVED))
  else
  let sid := schema_id r in
  match credential r with
  | Some _ =>
      let* _ :=
        in_world
          (emit (EvLog WARNING
                   "issue_credential called multiple times for credential exchange record %s - abstaining"
                   [py_str (credential_exchange_id r)])) in
      issue_credential_finish P comment
  | None =>
      let* cred_offer_ser := attr (credential_offer r) in
      let* cred_req_ser := attr (credential_request r) in
      let* schema := in_world (ledger_get_schema P sid) in
      let* credential_definition :=
        in_world (ledger_get_credential_definition P
                    (credential_definition_id r)) in
      (* the revocation registry to issue against, if the cred def has one *)
      let* registry :=
        (if revocation credential_definition
         return M Frame ((option IssuerRevRegRecord.t * option string)
                         + CredentialIssue.t) then
          try_except
            (let* active_rev_reg_rec :=
               in_world (get_active_issuer_rev_reg_record
                           (credential_definition_id r)) in
             let rev_reg := get_registry active_rev_reg_rec in
             let* _ := assign (set_revoc_reg_id
                          (Some (IssuerRevRegRecord.revoc_reg_id
                                   active_rev_reg_rec))) in
             let tails_path := registry_tails_local_path rev_reg in
             let* _ := in_world (emit (EvFetchTails
                          (IssuerRevRegRecord.revoc_reg_id
                             active_rev_reg_rec))) in
             ret (inl (Some active_rev_reg_rec, tails_path)))
            (on_not_found
               (let* posted_rev_reg_recs :=
                  in_world (query_rev_regs (credential_definition_id r)
                              (Some IssuerRevRegRecord.STATE_POSTED)) in
                let* _ :=
                  match posted_rev_reg_recs with
                  | [] =>
                      (* Send next 2 rev regs *)
                      let* queried :=
                        in_world (query_rev_regs
                                    (credential_definition_id r) None) in
                      let old_rev_reg_recs :=
                        IssuerRevRegRecord.sorted queried in
                      let cred_def_id := credential_definition_id r in
                      let rev_reg_size :=
                        match old_rev_reg_recs with
                        | old :: _ => Some (IssuerRevRegRecord.max_cred_num old)
                        | [] => None
                        end in
                      let* _ := in_world (notify_revocation_reg_event
                                            cred_def_id rev_reg_size true) in
                      in_world (notify_revocation_reg_event
                                  cred_def_id rev_reg_size true)
                  | _ :: _ => ret tt
                  end in
                match retries with
                | S retries' =>
                    let* _ :=
                      in_world
                        (emit (EvLog INFO
                                 "Waiting 2s on posted rev reg for cred def %s, retrying"
                                 [py_str (credential_definition_id r)])) in
                    let* _ := in_world (sleep P 2) in
                    let* returned := issue_credential P comment retries' in
                    ret (inr returned)
                | O =>
                    raise (CredentialManagerError
                             (NoActiveRevocationRegistry
                                (credential_definition_id r)))
                end))
        else ret (inl (None, None))) in
      match registry with
      | inr returned => ret returned
      | inl (active, tails_path) =>
          let* r := this in
          let* proposal := attr (credential_proposal_dict r) in
          let* preview :=
            attr (CredentialProposal.credential_proposal proposal) in
          let credential_values := CredentialPreview.attr_dict preview in
          let args :=
            {| cc_schema := schema; cc_cred_offer := cred_offer_ser;
               cc_cred_request := cred_req_ser;
               cc_credential_values := credential_values;
               cc_cred_ex_id := credential_exchange_id r;
               cc_revoc_reg_id := revoc_reg_id r;
               cc_tails_path := tails_path |} in
          let* created :=
            try_except (A := IndyCredential.t + CredentialIssue.t)
              (let* result := in_world (issuer_create_credential P args) in
               let* _ := assign (set_revocation_id (snd result)) in
               let* _ :=
                 match active with
                 | Some active_rev_reg_rec =>
                     let rev_reg := get_registry active_rev_reg_rec in
                     let* rid := int_of_revocation_id (snd result) in
                     (* If the rev reg is now full *)
                     if bool_decide (max_creds rev_reg = rid) then
                       let* _ := in_world (rev_reg_set_state active_rev_reg_rec
                                    IssuerRevRegRecord.STATE_FULL) in
                       (* Send next 1 rev reg *)
                       let* r := this in
                       in_world (notify_revocation_reg_event
                                   (credential_definition_id r)
                                   (Some (IssuerRevRegRecord.max_cred_num
                                            active_rev_reg_rec))
                                   true)
                     else ret tt
                 | None => ret tt
                 end in
               ret (inl (fst result)))
              (fun e =>
                 match e with
                 | IndyIssuerRevocationRegistryFullError =>
                     Some
                       ((* unlucky: duelling instance issued last cred *)
                        let* active_rev_reg_rec :=
                          match active with
                          | Some a => ret a
                          | None => raise UnboundLocalError
                          end in
                        let* _ := in_world (rev_reg_set_state active_rev_reg_rec
                                     IssuerRevRegRecord.STATE_FULL) in
                        match retries with
                        | S retries' =>
                            let* _ :=
                              in_world
                                (emit (EvLog INFO
                                         "Waiting 1s and retrying: revocation registry %s is full"
                                         [IssuerRevRegRecord.revoc_reg_id
                                            active_rev_reg_rec])) in
                            let* _ := in_world (sleep P 1) in
                            let* returned :=
                              issue_credential P comment retries' in
                            ret (inr returned)
                        | O => raise IndyIssuerRevocationRegistryFullError
                        end)
                 | _ => None
                 end) in
          match created with
          | inr returned => ret returned
          | inl credential_json =>
              let* _ := assign (set_credential (Some credential_json)) in
              issue_credential_finish P comment
          end
      end
  end.

Definition receive_credential (P : Profile.t) (message : CredentialIssue.t)
    (conn_id : option string) : M World V10CredentialExchange :=
  if negb (length (CredentialIssue.credentials_attach message) =? 1)%nat
  then raise AssertionError
  else
  let* raw_credential_value :=
    match CredentialIssue.indy_credential 0 message with
    | Some c => ret c
    | None => raise IndexError
    end in
  let* cred_ex_record :=
    retrieve_by_connection_and_thread conn_id
      (CredentialIssue._thread_id message) in
  let cred_ex_record :=
    set_raw_credential (Some raw_credential_value) cred_ex_record in
  let cred_ex_record :=
    set_state (Some STATE_CREDENTIAL_RECEIVED) cred_ex_record in
  save_record P "receive credential" cred_ex_record.

Definition store_credential (P : Profile.t) (cred_id : option string)
  : M Frame unit :=
  let* r := this in
  if bool_decide (state r ≠ Some STATE_CREDENTIAL_RECEIVED) then
    raise (CredentialManagerError
             (WrongState (credential_exchange_id r) (state r)
                         STATE_CREDENTIAL_RECEIVED))
  else
  let* raw_cred := attr (raw_credential r) in
  let* credential_definition_value :=
    in_world (ledger_get_credential_definition P
                (Some (IndyCredential.cred_def_id raw_cred))) in
  let* revoc_reg_def :=
    if truthy (IndyCredential.rev_reg_id raw_cred) then
      let* d := in_world (ledger_get_revoc_reg_def P
                            (default "" (IndyCredential.rev_reg_id raw_cred))) in
      ret (Some d)
    else ret None in
  let mime_types :=
    match credential_proposal_dict r with
    | Some proposal =>
        match CredentialProposal.credential_proposal proposal with
        | Some preview => Some (CredentialPreview.mime_types preview)
        | None => None
        end
    | None => None
    end in
  let* _ :=
    match revoc_reg_def with
    | Some d => in_world (emit (EvFetchTails (rev_reg_def_id d)))
    | None => ret tt
    end in
  let args :=
    {| sc_credential_definition := credential_definition_value;
       sc_credential_data := raw_cred;
       sc_credential_request_metadata := credential_request_metadata r;
       sc_mime_types := mime_types;
       sc_credential_id := cred_id;
       sc_rev_reg_def := revoc_reg_def |} in
  let* stored_id :=
    try_except
      (in_world (holder_store_credential P args))
      (fun e =>
         match e with
         | IndyHolderError code msg =>
             Some (let* _ := in_world
                               (emit (EvLog ERROR
                                        "Error storing credential. %s: %s"
                                        [code; msg])) in
                   raise e)
         | _ => None
         end) in
  let* stored := in_world (holder_get_credential P stored_id) in
  let* _ := assign (set_credential_id (Some stored_id)) in
  let* _ := assign (set_credential (Some stored)) in
  let* _ := assign (set_revoc_reg_id (IndyCredential.rev_reg_id stored)) in
  let* _ := assign (set_revocation_id (IndyCredential.cred_rev_id stored)) in
  save P "store credential".

Definition send_credential_ack (P : Profile.t) : M Frame CredentialAck.t :=
  let* r := this in
  let* message_id := in_world (new_uuid P) in
  let credential_ack_message :=
    {| CredentialAck._message_id := message_id;
       CredentialAck._thread := thread_id r;
       CredentialAck._parent_thread := parent_thread_id r;
       CredentialAck._trace := trace r |} in
  let* _ := assign (set_state (Some STATE_ACKED)) in
  let* _ :=
    try_except
      (let* _ := save P "ack credential" in
       let* r := this in
       if default false (auto_remove r)
       then in_world (delete_record r) (* all done: delete *)
       else ret tt)
      (on_not_found
         (in_world (emit (EvLog EXCEPTION "%s" ["StorageNotFoundError"])))) in
  let* r := this in
  let* _ :=
    if Profile.responder P then
      in_world (emit (EvSendReply credential_ack_message (connection_id r)))
    else
      in_world
        (emit (EvLog WARNING
                 "Configuration has no BaseResponder: cannot ack credential on %s"
                 [py_str (thread_id r)])) in
  ret credential_ack_message.

Definition receive_credential_ack (P : Profile.t) (message : CredentialAck.t)
    (conn_id : option string) : M World V10CredentialExchange :=
  let* cred_ex_record :=
    retrieve_by_connection_and_thread conn_id
      (CredentialAck._thread_id message) in
  let cred_ex_record := set_state (Some STATE_ACKED) cred_ex_record in
  let* cred_ex_record := save_record P "credential acked" cred_ex_record in
  let* _ :=
    if default false (auto_remove cred_ex_record)
    then delete_record cred_ex_record (* all done: delete *)
    else ret tt in
  ret cred_ex_record.

Definition receive_problem_report (P : Profile.t)
    (message : CredentialProblemReport.t) (conn_id : option string)
  : M World V10CredentialExchange :=
  let* cred_ex_record :=
    retrieve_by_connection_and_thread conn_id
      (CredentialProblemReport._thread_id message) in
  let cred_ex_record := set_state None cred_ex_record in
  let code :=
    default ISSUANCE_ABANDONED
      (CredentialProblemReport.description message !! "code") in
  let cred_ex_record :=
    set_error_msg
      (Some (code +:+ ": " +:+
             default code (CredentialProblemReport.description message !! "en")))
      cred_ex_record in
  save_record P "received problem report" cred_ex_record.

(** ** A concrete agent, for running the flows *)

Definition demo_offer (cdid : string) : IndyOffer.t :=
  {| IndyOffer.schema_id := "S:2:identification schema:1.0";
     IndyOffer.cred_def_id := cdid;
     IndyOffer.nonce := "n-1";
     IndyOffer.key_correctness_proof := "kcp" |}.

Definition demo_credential (rrid : option string) : IndyCredential.t :=
  {| IndyCredential.schema_id := "S:2:identification schema:1.0";
     IndyCredential.cred_def_id := "X:3:CL:42:tag";
     IndyCredential.rev_reg_id := rrid;
     IndyCredential.cred_rev_id := None;
     IndyCredential.values := "{name,date,id}" |}.

(** The ledger knows one schema; every cred def is revocable; the issuer hands
    out slot 10, or reports the registry ["R-full"] full. *)
Definition demo_profile : Profile.t :=
  {| Profile.preserve_exchange_records := Some true;
     Profile.auto_respond_credential_proposal := None;
     Profile.auto_respond_credential_request := None;
     Profile.credential_definition_id2schema_id :=
       fun _ => "S:2:identification schema:1.0";
     Profile.get_schema := fun _ => {| attrNames := ["name"; "date"; "id"] |};
     Profile.get_credential_definition :=
       fun c => {| cred_def_ident := c; revocation := true |};
     Profile.get_revoc_reg_def :=
       fun i => {| rev_reg_def_id := i; tails_location := "tails" |};
     Profile.create_credential_offer := fun _ c => demo_offer c;
     Profile.create_credential :=
       fun _ args =>
         if bool_decide (cc_revoc_reg_id args = Some "R-full")
         then RevocationRegistryFull
         else Issued (demo_credential (cc_revoc_reg_id args)) (Some "10");
     Profile.create_credential_request := fun _ _ _ _ => ("request", "metadata");
     Profile.store_credential := fun _ _ => Stored "cred-1";
     Profile.get_credential := fun _ _ => demo_credential None;
     Profile.responder := true;
     Profile.uuid4 := fun n => "uuid-" +:+ pretty n;
     Profile.during_sleep := fun _ w => w |}.

Definition demo_preview (names : list string) : CredentialPreview.t :=
  {| CredentialPreview.attributes :=
       map (fun n => {| CredAttrSpec.name := n; CredAttrSpec.value := "v";
                        CredAttrSpec.mime_type := None |}) names |}.

Definition demo_proposal (cdid : option string) (names : list string)
  : CredentialProposal.t :=
  {| CredentialProposal._message_id := "m-0";
     CredentialProposal._thread := None;
     CredentialProposal._trace := false;
     CredentialProposal.comment := None;
     CredentialProposal.credential_proposal := Some (demo_preview names);
     CredentialProposal.schema_id := None;
     CredentialProposal.schema_issuer_did := None;
     CredentialProposal.schema_name := Some "identification schema";
     CredentialProposal.schema_version := None;
     CredentialProposal.cred_def_id := cdid;
     CredentialProposal.issuer_did := None |}.

(** A saved record of connection ["c1"] and thread ["t1"] in a given state. *)
Definition demo_record (st : option State) : V10CredentialExchange :=
  set_state st
    (set_thread_id (Some "t1")
       (set_connection_id (Some "c1")
          (set_credential_exchange_id (Some "x1") new_exchange_record))).

Definition demo_cred_def_sent (rid cdid epoch : string) : StorageRecord.t :=
  {| StorageRecord.type := CRED_DEF_SENT_RECORD_TYPE;
     StorageRecord.value := cdid;
     StorageRecord.tags :=
       {[ "schema_name" := "identification schema";
          "cred_def_id" := cdid; "epoch" := epoch ]};
     StorageRecord.id := rid |}.

Definition demo_rev_reg (rrid : string) (st : IssuerRevRegRecord.RegState)
    (size created : Z) : IssuerRevRegRecord.t :=
  {| IssuerRevRegRecord.revoc_reg_id := rrid;
     IssuerRevRegRecord.cred_def_id := "X:3:CL:42:tag";
     IssuerRevRegRecord.state := st;
     IssuerRevRegRecord.max_cred_num := size;
     IssuerRevRegRecord.tails_local_path := Some "/tails";
     IssuerRevRegRecord.created_at := created |}.

Definition demo_world (recs : list V10CredentialExchange) : World :=
  {| exchange_records := recs;
     storage_records :=
       [demo_cred_def_sent "s1" "X:3:CL:41:tag" "1600000000";
        demo_cred_def_sent "s2" "X:3:CL:42:tag" "1700000000";
        demo_cred_def_sent "s3" "X:3:CL:40:tag" "1650000000"];
     rev_reg_records := [];
     cache := None;
     uuid_counter := 0;
     log := [] |}.

Definition demo_issue_message : CredentialIssue.t :=
  {| CredentialIssue._message_id := "m-issue";
     CredentialIssue._thread := Some "t1";
     CredentialIssue._trace := false;
     CredentialIssue.comment := None;
     CredentialIssue.credentials_attach := [demo_credential None] |}.

Definition demo_request_message : CredentialRequest.t :=
  {| CredentialRequest._message_id := "m-request";
     CredentialRequest._thread := Some "t1";
     CredentialRequest._trace := false;
     CredentialRequest.requests_attach := ["request"] |}.

Definition demo_offer_message (cdid : string) : CredentialOffer.t :=
  {| CredentialOffer._message_id := "m-offer";
     CredentialOffer._thread := Some "t1";
     CredentialOffer._trace := false;
     CredentialOffer.comment := None;
     CredentialOffer.credential_preview :=
       Some (demo_preview ["name"; "date"; "id"]);
     CredentialOffer.offers_attach := [demo_offer cdid] |}.

Definition demo_problem_report : CredentialProblemReport.t :=
  {| CredentialProblemReport._message_id := "m-problem";
     CredentialProblemReport._thread := Some "t1";
     CredentialProblemReport.description :=
       {[ "code" := "abandoned-consent"; "en" := "user declined" ]} |}.

(** The holder's record once the offer on ["X:3:CL:42:tag"] has come in. *)
Definition demo_holder_record : V10CredentialExchange :=
  set_credential_definition_id (Some "X:3:CL:42:tag")
    (set_schema_id (Some "S:2:identification schema:1.0")
       (set_credential_offer (Some (demo_offer "X:3:CL:42:tag"))
          (demo_record (Some STATE_OFFER_RECEIVED)))).

(** The issuer's record once the request has come in. *)
Definition demo_issuer_record : V10CredentialExchange :=
  set_credential_request (Some "request")
    (set_credential_proposal_dict
       (Some (demo_proposal None ["name"; "date"; "id"]))
       (set_state (Some STATE_REQUEST_RECEIVED) demo_holder_record)).

(** ** Notions the statements use *)

(** [post c s Q]: running [c] from [s] ends in a result and a state that
    satisfy [Q]. *)
Definition post {S A : Type} (c : M S A) (s : S) (Q : Res A -> S -> Prop)
  : Prop :=
  Q (fst (c s)) (snd (c s)).

(** The record the store has under a thread and a connection, as the lookup
    of the flows finds it. *)
Definition stored_under (thid : string) (conn_id : option string) (w : World)
  : option V10CredentialExchange :=
  List.find (fun r => bool_decide (thread_id r = Some thid) &&
                      bool_decide (connection_id r = conn_id))
            (exchange_records w).

(** What a flow that loads the record [loaded] from the store of [w] leaves
    of [credential_definition_id]: the record it returns is the loaded one
    (same identifier) with the value the loaded one had; the store holds
    that record in no other version; and every other record of the store is
    one that was there. *)
Definition keeps_loaded_cred_def (loaded : option V10CredentialExchange)
    (w : World) (x : Res V10CredentialExchange * World) : Prop :=
  forall r', fst x = Ok r' ->
    exists r,
      loaded = Some r /\
      credential_definition_id r' = credential_definition_id r /\
      (credential_exchange_id r <> None ->
       credential_exchange_id r' = credential_exchange_id r) /\
      forall y, In y (exchange_records (snd x)) ->
                if same_record r' y then y = r'
                else In y (exchange_records w).

(** The integer epoch of a storage record, when it has one. *)
Definition epoch_of (r : StorageRecord.t) : option Z :=
  StorageRecord.tags r !! "epoch" ≫= py_int.

(** The records of sent credential definitions that a tag query matches. *)
Definition sent_cred_defs (q : gmap string string) (w : World)
  : list StorageRecord.t :=
  List.filter
    (fun r => String.eqb (StorageRecord.type r) CRED_DEF_SENT_RECORD_TYPE &&
              bool_decide (q ⊆ StorageRecord.tags r))
    (storage_records w).

(** The proposal [create_offer] works from. *)
Definition offer_proposal (counter_proposal : option CredentialProposal.t)
    (r : V10CredentialExchange) : option CredentialProposal.t :=
  match counter_proposal with
  | Some c => Some c
  | None => credential_proposal_dict r
  end.

(** The world once [create_offer] has read the schema of the chosen
    credential definition. *)
Definition after_schema_lookup (P : Profile.t) (cdid : string) (w : World)
  : World :=
  set_log
    (log w ++
     [EvLedger "credential_definition_id2schema_id" (Some cdid);
      EvLedger "get_schema"
        (Some (Profile.credential_definition_id2schema_id P cdid))]) w.

Definition schema_of_cred_def (P : Profile.t) (cdid : string) : Schema :=
  Profile.get_schema P
    (Some (Profile.credential_definition_id2schema_id P cdid)).

Definition add_log (es : list Event) (w : World) : World :=
  set_log (log w ++ es) w.

(** The two ledger reads [issue_credential] starts with. *)
Definition issue_ledger_reads (r : V10CredentialExchange) : list Event :=
  [EvLedger "get_schema" (schema_id r);
   EvLedger "get_credential_definition" (credential_definition_id r)].

(** What [issue_credential] hands to the issuer when it issues against the
    registry record [a]. *)
Definition issue_args (P : Profile.t) (r : V10CredentialExchange)
    (offer : IndyOffer.t) (req : IndyCredRequest)
    (preview : CredentialPreview.t) (a : IssuerRevRegRecord.t)
  : CreateCredentialArgs :=
  {| cc_schema := Profile.get_schema P (schema_id r);
     cc_cred_offer := offer;
     cc_cred_request := req;
     cc_credential_values := CredentialPreview.attr_dict preview;
     cc_cred_ex_id := credential_exchange_id r;
     cc_revoc_reg_id := Some (IssuerRevRegRecord.revoc_reg_id a);
     cc_tails_path := IssuerRevRegRecord.tails_local_path a |}.

(** The agent's world with the given revocation registry records. *)
Definition demo_registry_world (regs : list IssuerRevRegRecord.t)
    (recs : list V10CredentialExchange) : World :=
  set_rev_reg_records regs (demo_world recs).

(** ** Counting effects *)

(** How many events of a kind the log of a world holds. *)
Definition count (p : Event -> bool) (w : World) : nat :=
  length (List.filter p (log w)).

Definition is_sleep (e : Event) : bool :=
  match e with EvSleep _ => true | _ => false end.

Definition is_issuer_create_credential (e : Event) : bool :=
  match e with EvIssuerCreateCredential _ => true | _ => false end.

Definition is_save (e : Event) : bool :=
  match e with EvSave _ _ => true | _ => false end.

Definition is_delete (e : Event) : bool :=
  match e with EvDeleteRecord _ => true | _ => false end.

(** What [issue_credential] hands to the issuer when the credential
    definition has no revocation part: the registry the record names, if
    any, and no tails path. *)
Definition issue_args_plain (P : Profile.t) (r : V10CredentialExchange)
    (offer : IndyOffer.t) (req : IndyCredRequest)
    (preview : CredentialPreview.t) : CreateCredentialArgs :=
  {| cc_schema := Profile.get_schema P (schema_id r);
     cc_cred_offer := offer;
     cc_cred_request := req;
     cc_credential_values := CredentialPreview.attr_dict preview;
     cc_cred_ex_id := credential_exchange_id r;
     cc_revoc_reg_id := revoc_reg_id r;
     cc_tails_path := None |}.

(** The concrete agent over a ledger whose credential definitions have no
    revocation part, keeping no exchange records and without a responder. *)
Definition demo_profile_plain : Profile.t :=
  {| Profile.preserve_exchange_records := None;
     Profile.auto_respond_credential_proposal := Some true;
     Profile.auto_respond_credential_request := None;
     Profile.credential_definition_id2schema_id :=
       Profile.credential_definition_id2schema_id demo_profile;
     Profile.get_schema := Profile.get_schema demo_profile;
     Profile.get_credential_definition :=
       fun c => {| cred_def_ident := c; revocation := false |};
     Profile.get_revoc_reg_def := Profile.get_revoc_reg_def demo_profile;
     Profile.create_credential_offer :=
       Profile.create_credential_offer demo_profile;
     Profile.create_credential := fun _ _ => Issued (demo_credential None) None;
     Profile.create_credential_request :=
       Profile.create_credential_request demo_profile;
     Profile.store_credential :=
       fun _ _ => HolderFailure "WalletItemAlreadyExists" "duplicate";
     Profile.get_credential := Profile.get_credential demo_profile;
     Profile.responder := false;
     Profile.uuid4 := Profile.uuid4 demo_profile;
     Profile.during_sleep := fun _ w => w |}.

(** What a run of [issue_credential] from [w] with [n] retries may have added
    to the log by the time it ends in [w'] with result [x]. *)
Definition within_budget {A : Type} (w : World) (n : nat) (x : Res A)
    (w' : World) : Prop :=
  (count is_sleep w' <= count is_sleep w + n)%nat /\
  (count is_issuer_create_credential w'
   <= count is_issuer_create_credential w + S n)%nat /\
  count is_save w' = match x with
                     | Ok _ => S (count is_save w)
                     | Raise _ => count is_save w
                     end.

(** The exchange records and the number of saves are in [w'] as in [w]. *)
Definition store_untouched (w w' : World) : Prop :=
  exchange_records w' = exchange_records w /\
  count is_save w' = count is_save w.

(** A world effect that writes no exchange record. *)
Definition quiet {A : Type} (c : M World A) : Prop :=
  forall w, store_untouched w (snd (c w)).

(** A flow started in [w] that returns has written the record it ends with,
    once; one that raises has written nothing. *)
Definition saved_on_return {A : Type} (w : World) (x : Res A) (s' : Frame)
  : Prop :=
  match x with
  | Ok _ =>
      exchange_records (snd s') = store_put (fst s') (exchange_records w) /\
      count is_save (snd s') = S (count is_save w)
  | Raise _ => store_untouched w (snd s')
  end.

(** ** Storing a credential *)

(** The revocation registry definition [store_credential] reads when the
    credential names a registry. *)
Definition store_rev_reg_def (P : Profile.t) (raw : IndyCredential.t)
  : option RevRegDef :=
  if truthy (IndyCredential.rev_reg_id raw)
  then Some (Profile.get_revoc_reg_def P
               (default "" (IndyCredential.rev_reg_id raw)))
  else None.

(** The ledger reads and the tails download that come before the holder is
    called. *)
Definition store_preparation (P : Profile.t) (raw : IndyCredential.t)
  : list Event :=
  EvLedger "get_credential_definition" (Some (IndyCredential.cred_def_id raw))
  :: (if truthy (IndyCredential.rev_reg_id raw)
      then [EvLedger "get_revoc_reg_def"
              (Some (default "" (IndyCredential.rev_reg_id raw)));
            EvFetchTails
              (rev_reg_def_id
                 (Profile.get_revoc_reg_def P
                    (default "" (IndyCredential.rev_reg_id raw))))]
      else []).

(** What [store_credential] hands to the holder. *)
Definition store_args (P : Profile.t) (r : V10CredentialExchange)
    (raw : IndyCredential.t) (cred_id : option string)
  : StoreCredentialArgs :=
  {| sc_credential_definition :=
       Profile.get_credential_definition P
         (Some (IndyCredential.cred_def_id raw));
     sc_credential_data := raw;
     sc_credential_request_metadata := credential_request_metadata r;
     sc_mime_types :=
       match credential_proposal_dict r with
       | Some proposal =>
           match CredentialProposal.credential_proposal proposal with
           | Some preview => Some (CredentialPreview.mime_types preview)
           | None => None
           end
       | None => None
       end;
     sc_credential_id := cred_id;
     sc_rev_reg_def := store_rev_reg_def P raw |}.

(** The holder's record once the credential has come in. *)
Definition demo_received_record (rrid : option string)
  : V10CredentialExchange :=
  set_raw_credential (Some (demo_credential rrid))
    (set_state (Some STATE_CREDENTIAL_RECEIVED) demo_holder_record).

(** The issuer's record once the credential has gone out, to be removed or
    kept when the exchange is over. *)
Definition demo_issued_record (remove : bool) : V10CredentialExchange :=
  {| credential_exchange_id := Some "x1"; connection_id := Some "c1";
     thread_id := Some "t1"; parent_thread_id := None;
     initiator := Some INITIATOR_SELF; role := Some ROLE_ISSUER;
     state := Some STATE_ISSUED;
     credential_proposal_dict :=
       Some (demo_proposal None ["name"; "date"; "id"]);
     credential_offer := Some (demo_offer "X:3:CL:42:tag");
     credential_offer_dict := None;
     credential_request := Some "request";
     credential_request_metadata := None;
     raw_credential := None;
     credential := Some (demo_credential None);
     credential_id := None;
     schema_id := Some "S:2:identification schema:1.0";
     credential_definition_id := Some "X:3:CL:42:tag";
     revoc_reg_id := None; revocation_id := None;
     auto_offer := None; auto_issue := Some true;
     auto_remove := Some remove;
     trace := false; error_msg := None |}.

Definition demo_ack_message : CredentialAck.t :=
  {| CredentialAck._message_id := "m-ack";
     CredentialAck._thread := Some "t1";
     CredentialAck._parent_thread := None;
     CredentialAck._trace := false |}.

(** The agent's store when one record of a credential definition sent has a
    broken epoch tag. *)
Definition demo_stale_world : World :=
  {| exchange_records := [];
     storage_records :=
       [demo_cred_def_sent "s1" "X:3:CL:42:tag" "1700000000";
        demo_cred_def_sent "s0" "X:3:CL:7:tag" "last week"];
     rev_reg_records := [];
     cache := None;
     uuid_counter := 0;
     log := [] |}.

(** An issuer that hands out credentials without a revocation id. *)
Definition demo_profile_unnumbered : Profile.t :=
  {| Profile.preserve_exchange_records :=
       Profile.preserve_exchange_records demo_profile;
     Profile.auto_respond_credential_proposal := None;
     Profile.auto_respond_credential_request := None;
     Profile.credential_definition_id2schema_id :=
       Profile.credential_definition_id2schema_id demo_profile;
     Profile.get_schema := Profile.get_schema demo_profile;
     Profile.get_credential_definition :=
       Profile.get_credential_definition demo_profile;
     Profile.get_revoc_reg_def := Profile.get_revoc_reg_def demo_profile;
     Profile.create_credential_offer :=
       Profile.create_credential_offer demo_profile;
     Profile.create_credential :=
       fun _ args => Issued (demo_credential (cc_revoc_reg_id args)) None;
     Profile.create_credential_request :=
       Profile.create_credential_request demo_profile;
     Profile.store_credential := Profile.store_credential demo_profile;
     Profile.get_credential := Profile.get_credential demo_profile;
     Profile.responder := true;
     Profile.uuid4 := Profile.uuid4 demo_profile;
     Profile.during_sleep := fun _ w => w |}.

(** ** The demo runner: reading an invitation

    [input_invitation] of demo/runners/beeds_user.py takes the text to
    decode out of what the user typed, and pads it before decoding. *)

(** [s * n] for a string. *)
Fixpoint py_repeat (s : string) (n : nat) : string :=
  match n with
  | O => ""
  | S n' => s +:+ py_repeat s n'
  end.

(** [s[pos:]] *)
Definition py_slice_from (pos : nat) (s : string) : string :=
  substring pos (String.length s - pos) s.

(** The text [input_invitation] decodes: what follows the first [c_i=] of
    the query of the URL, else what follows the first [oob=], else all the
    user typed.  [query] is [urlparse(details).query]. *)
Definition b64_invite_of (query details : string) : string :=
  if negb (String.eqb query "") then
    match String.index 0 "c_i=" query with
    | Some i => py_slice_from (i + 4) query
    | None =>
        match String.index 0 "oob=" query with
        | Some i => py_slice_from (i + 4) query
        | None => details
        end
    end
  else details.

(** The padding of the text before [base64.urlsafe_b64decode]. *)
Definition pad_b64_invite (b64_invite : string) : string :=
  let padlen := (4 - String.length b64_invite mod 4)%nat in
  if (padlen <=? 2)%nat then b64_invite +:+ py_repeat "=" padlen
  else b64_invite.

(** ** The state guards *)

(** The error a flow raises when the record is not in the state it needs. *)
Definition is_wrong_state (e : Exn) : bool :=
  match e with
  | CredentialManagerError (WrongState _ _ _) => true
  | _ => false
  end.

(** A world effect that never fails with the error of a state guard. *)
Definition guard_free {A : Type} (c : M World A) : Prop :=
  forall w, match fst (c w) with
            | Raise e => is_wrong_state e = false
            | Ok _ => True
            end.

(** A flow started on [r] in [w] fails with the error of a state guard only
    when [r] is not in [expected], and then at once. *)
Definition guarded (expected : State) (r : V10CredentialExchange) (w : World)
    {A : Type} (x : Res A) (s' : Frame) : Prop :=
  match x with
  | Raise e =>
      is_wrong_state e = true ->
      state r <> Some expected /\ s' = (r, w) /\
      e = CredentialManagerError
            (WrongState (credential_exchange_id r) (state r) expected)
  | Ok _ => True
  end.

(** ** The demo runner: the birth date in offers and proof requests

    [generate_credential_offer] and [generate_proof_request_web_request] of
    demo/runners/boe.py take the birth date to be today's date, [age] years
    back. *)

Module Date.
Record t := { year : Z; month : Z; day : Z }.
End Date.

Definition is_leap (y : Z) : bool :=
  (y mod 4 =? 0) && (negb (y mod 100 =? 0) || (y mod 400 =? 0)).

Definition days_in_month (y m : Z) : Z :=
  if m =? 2 then (if is_leap y then 29 else 28)
  else if (m =? 4) || (m =? 6) || (m =? 9) || (m =? 11) then 30
  else 31.

(** [datetime.date(year, month, day)]; [None] stands for its
    [ValueError]. *)
Definition py_date (y m d : Z) : option Date.t :=
  if (1 <=? y) && (y <=? 9999) && (1 <=? m) && (m <=? 12) &&
     (1 <=? d) && (d <=? days_in_month y m)
  then Some {| Date.year := y; Date.month := m; Date.day := d |}
  else None.

(** [datetime.date(d.year - age, d.month, d.day)] *)
Definition birth_date (age : Z) (d : Date.t) : option Date.t :=
  py_date (Date.year d - age) (Date.month d) (Date.day d).

(** [int(birth_date.strftime("%Y%m%d"))], the value of the predicate on
    [birthdate_dateint]. *)
Definition dateint (d : Date.t) : Z :=
  Date.year d * 10000 + Date.month d * 100 + Date.day d.

(** * Properties *)

(** ** Running the monad: postconditions *)

Section PostRules.
Context {S : Type}.

Lemma post_ret {A} (a : A) (s : S) Q : Q (Ok a) s -> post (ret a) s Q.
Proof. exact (fun H => H). Qed.

Lemma post_raise {A} e (s : S) (Q : Res A -> S -> Prop) :
  Q (Raise e) s -> post (raise e) s Q.
Proof. exact (fun H => H). Qed.

Lemma post_bind {A B} (c : M S A) (k : A -> M S B) s Q :
  post c s (fun x s' => match x with
                        | Ok a => post (k a) s' Q
                        | Raise e => Q (Raise e) s'
                        end) ->
  post (bind c k) s Q.
Proof. unfold post, bind. destruct (c s) as [[a|e] s']; auto. Qed.

Lemma post_try_except {A} (c : M S A) h s Q :
  post c s (fun x s' => match x with
                        | Ok a => Q (Ok a) s'
                        | Raise e => match h e with
                                     | Some k => post k s' Q
                                     | None => Q (Raise e) s'
                                     end
                        end) ->
  post (try_except c h) s Q.
Proof.
  unfold post, try_except. destruct (c s) as [[a|e] s']; auto.
  cbn. destruct (h e); auto.
Qed.

Lemma post_mono {A} (c : M S A) s (Q Q' : Res A -> S -> Prop) :
  post c s Q -> (forall x s', Q x s' -> Q' x s') -> post c s Q'.
Proof. unfold post. auto. Qed.

Lemma post_attr {A} (o : option A) (s : S) Q :
  (forall a, o = Some a -> Q (Ok a) s) ->
  (o = None -> Q (Raise AttributeError) s) ->
  post (attr o) s Q.
Proof. destruct o; unfold post; cbn; auto. Qed.
End PostRules.

Lemma post_this (s : Frame) Q : Q (Ok (fst s)) s -> post this s Q.
Proof. exact (fun H => H). Qed.

Lemma post_assign f (s : Frame) Q :
  Q (Ok tt) (f (fst s), snd s) -> post (assign f) s Q.
Proof. exact (fun H => H). Qed.

(** A world effect leaves the record object alone. *)
Lemma post_in_world {A} (c : M World A) (s : Frame) Q :
  (forall x w', Q x (fst s, w')) -> post (in_world c) s Q.
Proof. unfold post, in_world. cbn. auto. Qed.

Lemma post_save P reason (s : Frame) Q :
  (forall w', Q (Ok tt) (fst s, w')) ->
  (forall w' i, credential_exchange_id (fst s) = None ->
                Q (Ok tt) (set_credential_exchange_id (Some i) (fst s), w')) ->
  post (save P reason) s Q.
Proof.
  intros H1 H2. unfold post, save, save_record, bind, this, in_world, assign.
  destruct s as [r w]. cbn.
  destruct (credential_exchange_id r) eqn:E; cbn; auto.
Qed.

Ltac wp_step :=
  lazymatch goal with
  | |- post (bind _ _) _ _ => apply post_bind
  | |- post (ret _) _ _ => apply post_ret
  | |- post (raise _) _ _ => apply post_raise
  | |- post this _ _ => apply post_this
  | |- post (assign _) _ _ => apply post_assign
  | |- post (save _ _) _ _ => apply post_save; intros
  | |- post (in_world _) _ _ => apply post_in_world; intros
  | |- post (attr _) _ _ => apply post_attr; intros
  | |- post (try_except _ _) _ _ => apply post_try_except
  | |- post (int_of_revocation_id _) _ _ => unfold int_of_revocation_id
  | |- match on_not_found _ _ with _ => _ end => unfold on_not_found
  | |- match (match ?e with _ => _ end) with _ => _ end => destruct e eqn:?
  | |- post (if ?b then _ else _) _ _ => destruct b eqn:?
  | |- post (match ?x with _ => _ end) _ _ => destruct x eqn:?
  | |- match ?x with _ => _ end => destruct x eqn:?
  end; cbn [fst snd on_not_found].

Lemma store_put_In r l : In r (store_put r l).
Proof.
  unfold store_put. destruct (existsb (same_record r) l) eqn:E.
  - apply existsb_exists in E as (x & Hx & Hs).
    apply in_map_iff. exists x. now rewrite Hs.
  - apply in_or_app. right. now left.
Qed.

Lemma same_record_refl r :
  credential_exchange_id r <> None -> same_record r r = true.
Proof.
  unfold same_record.
  destruct (credential_exchange_id r); [intros _; apply String.eqb_refl|].
  congruence.
Qed.

(** After a save the store has the saved record in one version, and the
    other records are those it had. *)
Lemma store_put_others r l y :
  credential_exchange_id r <> None ->
  In y (store_put r l) -> if same_record r y then y = r else In y l.
Proof.
  intros Hid. unfold store_put.
  destruct (existsb (same_record r) l) eqn:E.
  - intros (x & <- & Hx)%in_map_iff.
    destruct (same_record r x) eqn:Ex.
    + now rewrite (same_record_refl r Hid).
    + now rewrite Ex.
  - intros [Hy|[<-|[]]]%in_app_or.
    + destruct (same_record r y) eqn:Ey; [|exact Hy].
      assert (existsb (same_record r) l = true)
        by (apply existsb_exists; eauto).
      congruence.
    + now rewrite (same_record_refl r Hid).
Qed.

Lemma deleted_others r l y :
  credential_exchange_id r <> None ->
  In y (List.filter (fun x => negb (same_record r x)) (store_put r l)) ->
  if same_record r y then y = r else In y l.
Proof.
  intros Hid [Hy Hn]%List.filter_In.
  apply negb_true_iff in Hn.
  apply (store_put_others r l y Hid) in Hy. now rewrite Hn in *.
Qed.

(** ** Wrong source state *)

Lemma create_request_wrong_state P holder_did r w :
  state r ≠ Some STATE_OFFER_RECEIVED ->
  create_request P holder_did (r, w) =
    (Raise (CredentialManagerError
              (WrongState (credential_exchange_id r) (state r)
                          STATE_OFFER_RECEIVED)), (r, w)).
Proof.
  intros H. unfold create_request. cbn.
  rewrite bool_decide_eq_true_2 by done. reflexivity.
Qed.

Lemma issue_credential_wrong_state P comment retries r w :
  state r ≠ Some STATE_REQUEST_RECEIVED ->
  issue_credential P comment retries (r, w) =
    (Raise (CredentialManagerError
              (WrongState (credential_exchange_id r) (state r)
                          STATE_REQUEST_RECEIVED)), (r, w)).
Proof.
  intros H. destruct retries; cbn;
    rewrite bool_decide_eq_true_2 by done; reflexivity.
Qed.

Lemma store_credential_wrong_state P cred_id r w :
  state r ≠ Some STATE_CREDENTIAL_RECEIVED ->
  store_credential P cred_id (r, w) =
    (Raise (CredentialManagerError
              (WrongState (credential_exchange_id r) (state r)
                          STATE_CREDENTIAL_RECEIVED)), (r, w)).
Proof.
  intros H. unfold store_credential. cbn.
  rewrite bool_decide_eq_true_2 by done. reflexivity.
Qed.

(** C2: [create_request] on a record that is not in [OFFER_RECEIVED],
    [issue_credential] on one that is not in [REQUEST_RECEIVED] and
    [store_credential] on one that is not in [CREDENTIAL_RECEIVED] each raise
    the manager's error carrying the exchange id, the observed state and the
    expected state; the record (its state with it) and the world are as they
    were. *)
Theorem wrong_state_is_surfaced (P : Profile.t) (r : V10CredentialExchange)
    (w : World) :
  (forall holder_did,
     state r ≠ Some STATE_OFFER_RECEIVED ->
     create_request P holder_did (r, w) =
       (Raise (CredentialManagerError
                 (WrongState (credential_exchange_id r) (state r)
                             STATE_OFFER_RECEIVED)), (r, w))) /\
  (forall comment retries,
     state r ≠ Some STATE_REQUEST_RECEIVED ->
     issue_credential P comment retries (r, w) =
       (Raise (CredentialManagerError
                 (WrongState (credential_exchange_id r) (state r)
                             STATE_REQUEST_RECEIVED)), (r, w))) /\
  (forall cred_id,
     state r ≠ Some STATE_CREDENTIAL_RECEIVED ->
     store_credential P cred_id (r, w) =
       (Raise (CredentialManagerError
                 (WrongState (credential_exchange_id r) (state r)
                             STATE_CREDENTIAL_RECEIVED)), (r, w))).
Proof.
  split; [|split]; intros.
  - now apply create_request_wrong_state.
  - now apply issue_credential_wrong_state.
  - now apply store_credential_wrong_state.
Qed.

Lemma wrong_state_is_surfaced_witness :
  let r := demo_record (Some STATE_PROPOSAL_SENT) in
  let w := demo_world [r] in
  fst (create_request demo_profile "did:ex:h" (r, w)) =
    Raise (CredentialManagerError
             (WrongState (Some "x1") (Some STATE_PROPOSAL_SENT)
                         STATE_OFFER_RECEIVED)) /\
  issue_credential demo_profile None 5 (r, w) =
    (Raise (CredentialManagerError
              (WrongState (Some "x1") (Some STATE_PROPOSAL_SENT)
                          STATE_REQUEST_RECEIVED)), (r, w)) /\
  snd (store_credential demo_profile None (r, w)) = (r, w).
Proof.
  intros r w.
  destruct (wrong_state_is_surfaced demo_profile r w) as (H1 & H2 & H3).
  split; [|split].
  - rewrite (H1 "did:ex:h"); [reflexivity | discriminate].
  - rewrite (H2 None 5%nat); [reflexivity | discriminate].
  - rewrite (H3 None); [reflexivity | discriminate].
Defined.

(** ** Receiving a credential *)

(** C1 (as the code has it): [receive_credential] does not look at the state
    of the record it finds under (connection, thread).  Whatever that state
    is, [REQUEST_SENT] included, a message with one attachment makes it attach
    the credential as [raw_credential], move the record to
    [CREDENTIAL_RECEIVED] and save it: the record returned is the record
    found with these two fields set (and an identifier, had it none), the
    store holds it in place of the one found, and no other record is
    written. *)
Theorem receive_credential_any_state (P : Profile.t)
    (message : CredentialIssue.t) (conn_id : option string) (w : World)
    (r : V10CredentialExchange) (cred : IndyCredential.t) :
  CredentialIssue.credentials_attach message = [cred] ->
  List.find (fun r => bool_decide (thread_id r
                                   = Some (CredentialIssue._thread_id message))
                      && bool_decide (connection_id r = conn_id))
            (exchange_records w) = Some r ->
  let updated :=
    set_state (Some STATE_CREDENTIAL_RECEIVED)
      (set_raw_credential (Some cred) r) in
  exists r' w' i,
    receive_credential P message conn_id w = (Ok r', w') /\
    r' = match credential_exchange_id r with
         | Some _ => updated
         | None => set_credential_exchange_id (Some i) updated
         end /\
    credential_exchange_id r' = Some i /\
    raw_credential r' = Some cred /\
    state r' = Some STATE_CREDENTIAL_RECEIVED /\
    thread_id r' = thread_id r /\ connection_id r' = connection_id r /\
    exchange_records w' = store_put r' (exchange_records w) /\
    In r' (exchange_records w') /\
    log w' = log w ++ [EvSave i "receive credential"] /\
    forall y, In y (exchange_records w') ->
              if same_record r' y then y = r' else In y (exchange_records w).
Proof.
  intros Hatt Hfind updated. subst updated.
  unfold receive_credential, CredentialIssue.indy_credential, bind,
    retrieve_by_connection_and_thread, retrieve_by_tag_filter, save_record.
  rewrite Hatt. cbn. rewrite Hfind. cbn.
  destruct (credential_exchange_id r) as [i|] eqn:E; cbn;
    eexists _, _, _; (split; [reflexivity|]); cbn [fst snd];
    (split; [reflexivity|]);
    (split; [cbn; rewrite ?E; reflexivity|]);
    repeat (split; [solve [cbn; auto using store_put_In]|]);
    intros y; apply (store_put_others _ (exchange_records w) y);
    cbn; rewrite ?E; discriminate.
Qed.

Lemma receive_credential_any_state_witness :
  let r := demo_record (Some STATE_REQUEST_SENT) in
  let r1 := set_state (Some STATE_CREDENTIAL_RECEIVED)
              (set_raw_credential (Some (demo_credential None)) r) in
  receive_credential demo_profile demo_issue_message (Some "c1")
    (demo_world [r])
  = (Ok r1, add_log [EvSave "x1" "receive credential"] (demo_world [r1])) /\
  credential_exchange_id r1 = credential_exchange_id r.
Proof.
  intros r r1.
  destruct (receive_credential_any_state demo_profile demo_issue_message
              (Some "c1") (demo_world [r]) r (demo_credential None)
              eq_refl eq_refl)
    as (r' & w' & i & Hrun & Hr' & _).
  split; [|reflexivity].
  rewrite Hrun. vm_compute in Hrun. injection Hrun as <- <-. reflexivity.
Defined.

(** The record is in [OFFER_SENT], not in [REQUEST_SENT]; the credential is
    received all the same, and it is the stored record that changes state. *)
Lemma receive_credential_without_state_check :
  let r := demo_record (Some STATE_OFFER_SENT) in
  let r1 := set_state (Some STATE_CREDENTIAL_RECEIVED)
              (set_raw_credential (Some (demo_credential None)) r) in
  state r ≠ Some STATE_REQUEST_SENT /\
  receive_credential demo_profile demo_issue_message (Some "c1")
    (demo_world [r])
  = (Ok r1, add_log [EvSave "x1" "receive credential"] (demo_world [r1])) /\
  state r1 = Some STATE_CREDENTIAL_RECEIVED /\
  raw_credential r1 = Some (demo_credential None).
Proof.
  split; [discriminate|].
  split; [vm_compute; reflexivity|]. split; reflexivity.
Qed.

(** ** Receiving a problem report *)

Lemma append_colon_nonempty (a b : string) : a +:+ ": " +:+ b ≠ "".
Proof. destruct a; discriminate. Qed.

(** C8: whatever the state of the record found under (connection, thread),
    [receive_problem_report] clears the state, sets [error_msg] to the code,
    a colon and the English text (the code is [issuance-abandoned] when the
    description has none; the text is the code when the description has
    none), which is never empty, and saves the record: the record returned
    is the record found with these two fields set (and an identifier, had it
    none), the store holds it in place of the one found, the one effect is
    the save, no other record is written and nothing is deleted. *)
Theorem receive_problem_report_abandons (P : Profile.t)
    (message : CredentialProblemReport.t) (conn_id : option string)
    (w : World) (r : V10CredentialExchange) :
  List.find (fun r => bool_decide
                        (thread_id r
                         = Some (CredentialProblemReport._thread_id message))
                      && bool_decide (connection_id r = conn_id))
            (exchange_records w) = Some r ->
  let code := default "issuance-abandoned"
                (CredentialProblemReport.description message !! "code") in
  let en := default code
              (CredentialProblemReport.description message !! "en") in
  let abandoned :=
    set_error_msg (Some (code +:+ ": " +:+ en)) (set_state None r) in
  exists r' w' i,
    receive_problem_report P message conn_id w = (Ok r', w') /\
    r' = match credential_exchange_id r with
         | Some _ => abandoned
         | None => set_credential_exchange_id (Some i) abandoned
         end /\
    credential_exchange_id r' = Some i /\
    state r' = None /\
    error_msg r' = Some (code +:+ ": " +:+ en) /\
    error_msg r' ≠ Some "" /\
    exchange_records w' = store_put r' (exchange_records w) /\
    In r' (exchange_records w') /\
    log w' = log w ++ [EvSave i "received problem report"] /\
    (forall y, In y (exchange_records w') ->
               if same_record r' y then y = r'
               else In y (exchange_records w)) /\
    (length (exchange_records w) <= length (exchange_records w'))%nat.
Proof.
  intros Hfind code en abandoned. subst abandoned.
  unfold receive_problem_report, bind,
    retrieve_by_connection_and_thread, retrieve_by_tag_filter, save_record.
  rewrite Hfind. cbn.
  assert (Hne : Some (code +:+ ": " +:+ en) ≠ Some "")
    by (intros [= H]; now apply append_colon_nonempty in H).
  assert (Hlen : forall x l, (length l <= length (store_put x l))%nat).
  { intros x l. unfold store_put. destruct (existsb _ _).
    - now rewrite length_map.
    - rewrite length_app. lia. }
  destruct (credential_exchange_id r) as [i|] eqn:E; cbn;
    eexists _, _, _; (split; [reflexivity|]); cbn [fst snd];
    (split; [reflexivity|]);
    (split; [cbn; rewrite ?E; reflexivity|]);
    repeat (split; [solve [cbn; auto using store_put_In]|]);
    (split; [|apply Hlen]);
    intros y; apply (store_put_others _ (exchange_records w) y);
    cbn; rewrite ?E; discriminate.
Qed.

Lemma receive_problem_report_abandons_witness :
  let r := demo_record (Some STATE_OFFER_RECEIVED) in
  let r1 := set_error_msg (Some "abandoned-consent: user declined")
              (set_state None r) in
  receive_problem_report demo_profile demo_problem_report (Some "c1")
    (demo_world [r])
  = (Ok r1, add_log [EvSave "x1" "received problem report"] (demo_world [r1]))
  /\ credential_exchange_id r1 = credential_exchange_id r.
Proof.
  intros r r1.
  destruct (receive_problem_report_abandons demo_profile demo_problem_report
              (Some "c1") (demo_world [r]) r eq_refl)
    as (r' & w' & i & Hrun & _).
  split; [|reflexivity].
  rewrite Hrun. vm_compute in Hrun. injection Hrun as <- <-. reflexivity.
Defined.

(** ** Receiving a request *)

(** C10: when [receive_request] finds no record under (connection, thread)
    it takes the record of that thread whose connection is unset, binds the
    inbound connection to it and moves it to [REQUEST_RECEIVED] with the
    request attached: the record returned is that record with the three
    fields set (and an identifier, had it none), the store holds it in place
    of the unbound one, and no other record is written.  It raises the
    manager's error when that lookup misses too, and a message with one
    attachment makes it fail in no other case. *)
Theorem receive_request_falls_back (P : Profile.t)
    (message : CredentialRequest.t) (conn_id : option string) (w : World)
    (req : IndyCredRequest) :
  CredentialRequest.requests_attach message = [req] ->
  let lookup c :=
    List.find (fun r => bool_decide
                          (thread_id r
                           = Some (CredentialRequest._thread_id message))
                        && bool_decide (connection_id r = c))
              (exchange_records w) in
  (lookup conn_id = None ->
   forall r, lookup None = Some r ->
     let bound :=
       set_state (Some STATE_REQUEST_RECEIVED)
         (set_credential_request (Some req) (set_connection_id conn_id r)) in
     exists r' w' i,
       receive_request P message conn_id w = (Ok r', w') /\
       r' = match credential_exchange_id r with
            | Some _ => bound
            | None => set_credential_exchange_id (Some i) bound
            end /\
       credential_exchange_id r' = Some i /\
       connection_id r' = conn_id /\
       state r' = Some STATE_REQUEST_RECEIVED /\
       credential_request r' = Some req /\
       thread_id r' = thread_id r /\
       exchange_records w' = store_put r' (exchange_records w) /\
       In r' (exchange_records w') /\
       log w' = log w ++ [EvSave i "receive credential request"] /\
       forall y, In y (exchange_records w') ->
                 if same_record r' y then y = r'
                 else In y (exchange_records w)) /\
  (lookup conn_id = None -> lookup None = None ->
   receive_request P message conn_id w
   = (Raise (CredentialManagerError CannotStartFromRequest), w)) /\
  (forall e, fst (receive_request P message conn_id w) = Raise e ->
             lookup conn_id = None /\ lookup None = None).
Proof.
  intros Hatt lookup. subst lookup. cbv beta.
  unfold receive_request, CredentialRequest.indy_cred_req, bind, try_except,
    retrieve_by_connection_and_thread, retrieve_by_tag_filter, save_record.
  rewrite Hatt. cbn.
  split; [|split].
  - intros H1 r H2. rewrite H1. cbn. rewrite H2. cbn.
    destruct (credential_exchange_id r) as [i|] eqn:E; cbn;
      eexists _, _, _; (split; [reflexivity|]); cbn [fst snd];
      (split; [reflexivity|]);
      (split; [cbn; rewrite ?E; reflexivity|]);
      repeat (split; [solve [cbn; auto using store_put_In]|]);
      intros y; apply (store_put_others _ (exchange_records w) y);
      cbn; rewrite ?E; discriminate.
  - intros H1 H2. rewrite H1. cbn. rewrite H2. reflexivity.
  - intros e.
    match goal with |- context [List.find ?f ?l] =>
      destruct (List.find f l) as [r1|] eqn:H1 end; cbn.
    + destruct (credential_exchange_id r1); cbn; discriminate.
    + match goal with |- context [List.find ?f ?l] =>
        destruct (List.find f l) as [r2|] eqn:H2 end; cbn.
      * destruct (credential_exchange_id r2); cbn; discriminate.
      * auto.
Qed.

Lemma receive_request_falls_back_witness :
  let unbound := set_connection_id None (demo_record (Some STATE_OFFER_SENT)) in
  let r1 := set_state (Some STATE_REQUEST_RECEIVED)
              (set_credential_request (Some "request")
                 (set_connection_id (Some "c1") unbound)) in
  receive_request demo_profile demo_request_message (Some "c1")
    (demo_world [unbound])
  = (Ok r1,
     add_log [EvSave "x1" "receive credential request"] (demo_world [r1])) /\
  credential_exchange_id r1 = credential_exchange_id unbound /\
  connection_id unbound = None /\
  connection_id r1 = Some "c1".
Proof.
  intros unbound r1.
  destruct (receive_request_falls_back demo_profile demo_request_message
              (Some "c1") (demo_world [unbound]) "request" eq_refl)
    as (H & _ & _).
  destruct (H eq_refl unbound eq_refl) as (r' & w' & i & Hrun & _).
  split; [|repeat split].
  rewrite Hrun. vm_compute in Hrun. injection Hrun as <- <-. reflexivity.
Defined.

(** ** Re-entry of [create_request] and [issue_credential] *)
Lemma create_request_reentry P holder_did r w offer req :
  state r = Some STATE_OFFER_RECEIVED ->
  credential_offer r = Some offer ->
  credential_request r = Some req ->
  exists m r' w' i,
    create_request P holder_did (r, w) = (Ok m, (r', w')) /\
    CredentialRequest.requests_attach m = [req] /\
    CredentialRequest._thread m = thread_id r /\
    state r' = Some STATE_REQUEST_SENT /\
    credential_request r' = Some req /\
    log w' = log w ++
      [EvLog WARNING
         "create_request called multiple times for v1.0 credential exchange: %s"
         [py_str (credential_exchange_id r)];
       EvSave i "create credential request"] /\
    cache w' = cache w /\
    In r' (exchange_records w').
Proof.
  intros Hst Hoffer Hreq.
  unfold create_request, bind, this, assign, in_world, attr, ret, save,
    save_record, new_uuid, emit.
  cbn. rewrite bool_decide_eq_false_2 by (rewrite Hst; auto).
  rewrite Hoffer, Hreq. cbn. rewrite Hreq. cbn.
  destruct (credential_exchange_id r) as [i|] eqn:E; cbn.
  - eexists _, _, _, _. split; [reflexivity|]. cbn.
    rewrite <- app_assoc. repeat split; auto using store_put_In.
  - eexists _, _, _, _. split; [reflexivity|]. cbn.
    rewrite <- app_assoc. repeat split; auto using store_put_In.
Qed.

Lemma issue_credential_reentry P comment retries r w c :
  state r = Some STATE_REQUEST_RECEIVED ->
  credential r = Some c ->
  exists m r' w' i,
    issue_credential P comment retries (r, w) = (Ok m, (r', w')) /\
    CredentialIssue.credentials_attach m = [c] /\
    CredentialIssue.comment m = comment /\
    CredentialIssue._thread m = thread_id r /\
    state r' = Some STATE_ISSUED /\
    credential r' = Some c /\
    log w' = log w ++
      [EvLog WARNING
         "issue_credential called multiple times for credential exchange record %s - abstaining"
         [py_str (credential_exchange_id r)];
       EvSave i "issue credential"] /\
    rev_reg_records w' = rev_reg_records w /\
    In r' (exchange_records w').
Proof.
  intros Hst Hc.
  destruct retries; cbn [issue_credential];
  unfold issue_credential_finish, bind, this, assign, in_world, attr, ret,
    save, save_record, new_uuid, emit;
  cbn; rewrite bool_decide_eq_false_2 by (rewrite Hst; auto);
  rewrite Hc; cbn;
  (destruct (credential_exchange_id r) as [i|] eqn:E; cbn; rewrite ?Hc; cbn;
   eexists _, _, _, _; (split; [reflexivity|]); cbn;
   rewrite <- app_assoc; repeat split; auto using store_put_In).
Qed.

Lemma create_request_post P holder_did r w :
  post (create_request P holder_did) (r, w)
    (fun x s' =>
       credential_definition_id (fst s') = credential_definition_id r /\
       (forall m, x = Ok m -> state (fst s') = Some STATE_REQUEST_SENT)).
Proof.
  unfold create_request.
  repeat wp_step; cbn; try (split; [reflexivity | intros; congruence]).
Qed.

Lemma issue_credential_finish_post P comment r w :
  post (issue_credential_finish P comment) (r, w)
    (fun x s' =>
       credential_definition_id (fst s') = credential_definition_id r /\
       (forall m, x = Ok m -> state (fst s') = Some STATE_ISSUED)).
Proof.
  unfold issue_credential_finish.
  repeat wp_step; cbn; try (split; [reflexivity | intros; congruence]).
Qed.

(** Every run of [issue_credential], retries included, leaves the record's
    credential definition as it was, and a run that returns leaves the
    record [ISSUED]. *)
Lemma issue_credential_post P comment retries : forall r w,
  post (issue_credential P comment retries) (r, w)
    (fun x s' =>
       credential_definition_id (fst s') = credential_definition_id r /\
       (forall m, x = Ok m -> state (fst s') = Some STATE_ISSUED)).
Proof.
  induction retries as [|n IH]; intros r w.
  - cbn [issue_credential].
    repeat first
      [ eapply post_mono; [apply issue_credential_finish_post|];
        cbn; intros ? ? [? ?]
      | wp_step ];
      cbn in *; try (split; [congruence | intros; congruence || eauto]).
  - cbn [issue_credential].
    repeat first
      [ eapply post_mono; [apply issue_credential_finish_post|];
        cbn; intros ? ? [? ?]
      | eapply post_mono; [apply IH|]; cbn; intros ? ? [? ?]
      | wp_step ];
      cbn in *; try (split; [congruence | intros; congruence || eauto]).
Qed.

Lemma create_request_again P holder_did r w m r' w' :
  create_request P holder_did (r, w) = (Ok m, (r', w')) ->
  forall holder_did',
    create_request P holder_did' (r', w') =
      (Raise (CredentialManagerError
                (WrongState (credential_exchange_id r')
                            (Some STATE_REQUEST_SENT) STATE_OFFER_RECEIVED)),
       (r', w')).
Proof.
  intros H did'. pose proof (create_request_post P holder_did r w) as Hp.
  unfold post in Hp. rewrite H in Hp. cbn in Hp. destruct Hp as [_ Hs].
  specialize (Hs m eq_refl).
  rewrite create_request_wrong_state by (rewrite Hs; discriminate).
  now rewrite Hs.
Qed.

Lemma issue_credential_again P comment retries r w m r' w' :
  issue_credential P comment retries (r, w) = (Ok m, (r', w')) ->
  forall comment' retries',
    issue_credential P comment' retries' (r', w') =
      (Raise (CredentialManagerError
                (WrongState (credential_exchange_id r')
                            (Some STATE_ISSUED) STATE_REQUEST_RECEIVED)),
       (r', w')).
Proof.
  intros H c' n'. pose proof (issue_credential_post P comment retries r w) as Hp.
  unfold post in Hp. rewrite H in Hp. cbn in Hp. destruct Hp as [_ Hs].
  specialize (Hs m eq_refl).
  rewrite issue_credential_wrong_state by (rewrite Hs; discriminate).
  now rewrite Hs.
Qed.

(** C3 (as the code has it): on a record in [OFFER_RECEIVED] that carries its
    offer and already a request, [create_request] calls neither ledger, cache
    nor holder: it logs a warning, builds the request message from the stored
    request and the record's thread, moves the record to [REQUEST_SENT] and
    saves it.  On a record in [REQUEST_RECEIVED] that already carries a
    credential, [issue_credential] likewise calls neither ledger, registry
    nor issuer, builds the issue message from the stored credential and moves
    the record to [ISSUED].  The second of two calls in a row on the same
    record finds the state the first one set and raises the wrong-state
    error, with the record and the world untouched: no cryptographic
    side-effect, and no message either. *)
Theorem reentry_skips_cryptography (P : Profile.t) (r : V10CredentialExchange)
    (w : World) :
  (forall holder_did offer req,
     state r = Some STATE_OFFER_RECEIVED ->
     credential_offer r = Some offer ->
     credential_request r = Some req ->
     exists m r' w' i,
       create_request P holder_did (r, w) = (Ok m, (r', w')) /\
       CredentialRequest.requests_attach m = [req] /\
       CredentialRequest._thread m = thread_id r /\
       state r' = Some STATE_REQUEST_SENT /\
       credential_request r' = Some req /\
       log w' = log w ++
         [EvLog WARNING
            "create_request called multiple times for v1.0 credential exchange: %s"
            [py_str (credential_exchange_id r)];
          EvSave i "create credential request"] /\
       cache w' = cache w /\
       In r' (exchange_records w')) /\
  (forall comment retries c,
     state r = Some STATE_REQUEST_RECEIVED ->
     credential r = Some c ->
     exists m r' w' i,
       issue_credential P comment retries (r, w) = (Ok m, (r', w')) /\
       CredentialIssue.credentials_attach m = [c] /\
       CredentialIssue.comment m = comment /\
       CredentialIssue._thread m = thread_id r /\
       state r' = Some STATE_ISSUED /\
       credential r' = Some c /\
       log w' = log w ++
         [EvLog WARNING
            "issue_credential called multiple times for credential exchange record %s - abstaining"
            [py_str (credential_exchange_id r)];
          EvSave i "issue credential"] /\
       rev_reg_records w' = rev_reg_records w /\
       In r' (exchange_records w')) /\
  (forall holder_did m r' w',
     create_request P holder_did (r, w) = (Ok m, (r', w')) ->
     forall holder_did',
       create_request P holder_did' (r', w') =
         (Raise (CredentialManagerError
                   (WrongState (credential_exchange_id r')
                               (Some STATE_REQUEST_SENT)
                               STATE_OFFER_RECEIVED)), (r', w'))) /\
  (forall comment retries m r' w',
     issue_credential P comment retries (r, w) = (Ok m, (r', w')) ->
     forall comment' retries',
       issue_credential P comment' retries' (r', w') =
         (Raise (CredentialManagerError
                   (WrongState (credential_exchange_id r')
                               (Some STATE_ISSUED)
                               STATE_REQUEST_RECEIVED)), (r', w'))).
Proof.
  split; [|split; [|split]].
  - intros. eapply create_request_reentry; eassumption.
  - intros. eapply issue_credential_reentry; eassumption.
  - intros. eapply create_request_again; eassumption.
  - intros. eapply issue_credential_again; eassumption.
Qed.

Lemma reentry_skips_cryptography_witness :
  let holder := set_credential_request (Some "request") demo_holder_record in
  let issuer := set_credential (Some (demo_credential None))
                  demo_issuer_record in
  (exists m r' w',
     create_request demo_profile "did:ex:h" (holder, demo_world [holder])
     = (Ok m, (r', w')) /\
     CredentialRequest.requests_attach m = ["request"] /\
     state r' = Some STATE_REQUEST_SENT /\
     List.filter is_crypto_call (log w') = []) /\
  (exists m r' w',
     issue_credential demo_profile None 5 (issuer, demo_world [issuer])
     = (Ok m, (r', w')) /\
     CredentialIssue.credentials_attach m = [demo_credential None] /\
     state r' = Some STATE_ISSUED /\
     List.filter is_crypto_call (log w') = []).
Proof.
  intros holder issuer. split.
  - destruct (reentry_skips_cryptography demo_profile holder
                (demo_world [holder])) as (H & _).
    destruct (H "did:ex:h" (demo_offer "X:3:CL:42:tag") "request"
                eq_refl eq_refl eq_refl)
      as (m & r' & w' & i & Hrun & Hm & _ & Hs & _ & Hlog & _).
    exists m, r', w'. repeat split; try assumption.
    rewrite Hlog. reflexivity.
  - destruct (reentry_skips_cryptography demo_profile issuer
                (demo_world [issuer])) as (_ & H & _).
    destruct (H None 5%nat (demo_credential None) eq_refl eq_refl)
      as (m & r' & w' & i & Hrun & Hm & _ & _ & Hs & _ & Hlog & _).
    exists m, r', w'. repeat split; try assumption.
    rewrite Hlog. reflexivity.
Defined.

(** The first call creates the request; the same call made again on the
    record it left fails, and there is no second request message. *)
Lemma create_request_twice_fails :
  let first := create_request demo_profile "did:ex:h"
                 (demo_holder_record, demo_world [demo_holder_record]) in
  (exists m, fst first = Ok m) /\
  credential_request (fst (snd first)) = Some "request" /\
  fst (create_request demo_profile "did:ex:h" (snd first)) =
    Raise (CredentialManagerError
             (WrongState (Some "x1") (Some STATE_REQUEST_SENT)
                         STATE_OFFER_RECEIVED)).
Proof.
  split; [eexists; vm_compute; reflexivity|]. split; vm_compute; reflexivity.
Qed.

(** ** Assignments of [credential_definition_id] *)

Lemma create_offer_post P counter_proposal comment r w :
  post (create_offer P counter_proposal comment) (r, w)
    (fun x s' =>
       forall m, x = Ok m ->
         exists offer,
           CredentialOffer.offers_attach m = [offer] /\
           credential_definition_id (fst s')
           = Some (IndyOffer.cred_def_id offer) /\
           state (fst s') = Some STATE_OFFER_SENT).
Proof.
  unfold create_offer.
  repeat wp_step; cbn; intros; simplify_eq; eauto.
Qed.

Lemma store_credential_post P cred_id r w :
  post (store_credential P cred_id) (r, w)
    (fun x s' =>
       credential_definition_id (fst s') = credential_definition_id r /\
       state (fst s') = state r).
Proof.
  unfold store_credential.
  repeat wp_step; cbn; auto.
Qed.

Lemma send_credential_ack_post P r w :
  post (send_credential_ack P) (r, w)
    (fun x s' =>
       credential_definition_id (fst s') = credential_definition_id r).
Proof.
  unfold send_credential_ack.
  repeat wp_step; cbn; auto.
Qed.

Lemma receive_offer_assigns P message conn_id w r' w' :
  receive_offer P message conn_id w = (Ok r', w') ->
  exists offer,
    CredentialOffer.indy_offer 0 message = Some offer /\
    credential_definition_id r' = Some (IndyOffer.cred_def_id offer) /\
    state r' = Some STATE_OFFER_RECEIVED.
Proof.
  unfold receive_offer.
  destruct (CredentialOffer.indy_offer 0 message) as [offer|]; [|discriminate].
  unfold bind, try_except, new_uuid, ret, on_not_found,
    retrieve_by_connection_and_thread, retrieve_by_tag_filter, save_record.
  cbn.
  match goal with |- context [List.find ?f ?l] =>
    destruct (List.find f l) as [r1|] eqn:H1 end; cbn.
  - destruct (credential_exchange_id r1); cbn; intros [= <- <-];
      exists offer; auto.
  - intros [= <- <-]. exists offer; auto.
Qed.

Lemma create_offer_same_record P counter_proposal comment r w :
  post (create_offer P counter_proposal comment) (r, w)
    (fun x s' =>
       credential_exchange_id r <> None ->
       credential_exchange_id (fst s') = credential_exchange_id r).
Proof.
  unfold create_offer.
  repeat wp_step; cbn in *; intros; congruence.
Qed.

Lemma receive_offer_same_record P message conn_id w r' w' r0 :
  receive_offer P message conn_id w = (Ok r', w') ->
  stored_under (CredentialOffer._thread_id message) conn_id w = Some r0 ->
  credential_exchange_id r0 <> None ->
  credential_exchange_id r' = credential_exchange_id r0.
Proof.
  unfold receive_offer, stored_under.
  destruct (CredentialOffer.indy_offer 0 message) as [offer|]; [|discriminate].
  unfold bind, try_except, new_uuid, ret, on_not_found,
    retrieve_by_connection_and_thread, retrieve_by_tag_filter, save_record.
  cbn. intros Hrun Hfind Hid. rewrite Hfind in Hrun. cbn in Hrun.
  destruct (credential_exchange_id r0) eqn:E; [|congruence].
  cbn in Hrun. injection Hrun as <- <-. cbn. now rewrite E.
Qed.

Ltac keeps_loaded E :=
  intros [= <-]; eexists; (split; [reflexivity|]);
  (split; [cbn; rewrite ?E; reflexivity|]);
  (split; [cbn; rewrite ?E; congruence || reflexivity|]);
  intros y;
  lazymatch goal with
  | |- In _ (List.filter _ (store_put ?R ?L)) -> _ =>
      apply (deleted_others R L y)
  | |- In _ (store_put ?R ?L) -> _ => apply (store_put_others R L y)
  end; cbn; rewrite ?E; discriminate.

Lemma receive_request_keeps P message conn_id w :
  keeps_loaded_cred_def
    (match stored_under (CredentialRequest._thread_id message) conn_id w with
     | Some r => Some r
     | None => stored_under (CredentialRequest._thread_id message) None w
     end)
    w (receive_request P message conn_id w).
Proof.
  unfold keeps_loaded_cred_def, stored_under, receive_request, bind,
    try_except, ret, raise, on_not_found, retrieve_by_connection_and_thread,
    retrieve_by_tag_filter, save_record, new_uuid.
  intros r'.
  destruct (negb _); [discriminate|].
  destruct (CredentialRequest.indy_cred_req 0 message); [|discriminate].
  cbn -[same_record store_put].
  match goal with |- context [List.find ?f ?l] =>
    destruct (List.find f l) as [r1|] eqn:H1 end; cbn -[same_record store_put].
  - destruct (credential_exchange_id r1) eqn:E; cbn -[same_record store_put]; keeps_loaded E.
  - match goal with |- context [List.find ?f ?l] =>
      destruct (List.find f l) as [r2|] eqn:H2 end; cbn -[same_record store_put]; [|discriminate].
    destruct (credential_exchange_id r2) eqn:E; cbn -[same_record store_put]; keeps_loaded E.
Qed.

Lemma receive_credential_keeps P message conn_id w :
  keeps_loaded_cred_def
    (stored_under (CredentialIssue._thread_id message) conn_id w)
    w (receive_credential P message conn_id w).
Proof.
  unfold keeps_loaded_cred_def, stored_under, receive_credential, bind, ret,
    raise, retrieve_by_connection_and_thread, retrieve_by_tag_filter,
    save_record, new_uuid.
  intros r'.
  destruct (negb _); [discriminate|].
  destruct (CredentialIssue.indy_credential 0 message); [|discriminate].
  cbn -[same_record store_put].
  match goal with |- context [List.find ?f ?l] =>
    destruct (List.find f l) as [r1|] eqn:H1 end; cbn -[same_record store_put]; [|discriminate].
  destruct (credential_exchange_id r1) eqn:E; cbn -[same_record store_put]; keeps_loaded E.
Qed.

Lemma receive_credential_ack_keeps P message conn_id w :
  keeps_loaded_cred_def
    (stored_under (CredentialAck._thread_id message) conn_id w)
    w (receive_credential_ack P message conn_id w).
Proof.
  unfold keeps_loaded_cred_def, stored_under, receive_credential_ack, bind,
    ret, raise, retrieve_by_connection_and_thread, retrieve_by_tag_filter,
    save_record, new_uuid, delete_record.
  intros r'.
  match goal with |- context [List.find ?f ?l] =>
    destruct (List.find f l) as [r1|] eqn:H1 end; cbn -[same_record store_put]; [|discriminate].
  destruct (credential_exchange_id r1) eqn:E; cbn -[same_record store_put];
    destruct (default false (auto_remove r1)); cbn -[same_record store_put]; keeps_loaded E.
Qed.

Lemma receive_problem_report_keeps P message conn_id w :
  keeps_loaded_cred_def
    (stored_under (CredentialProblemReport._thread_id message) conn_id w)
    w (receive_problem_report P message conn_id w).
Proof.
  unfold keeps_loaded_cred_def, stored_under, receive_problem_report, bind,
    ret, raise, retrieve_by_connection_and_thread, retrieve_by_tag_filter,
    save_record, new_uuid.
  intros r'.
  match goal with |- context [List.find ?f ?l] =>
    destruct (List.find f l) as [r1|] eqn:H1 end; cbn -[same_record store_put]; [|discriminate].
  destruct (credential_exchange_id r1) eqn:E; cbn -[same_record store_put]; keeps_loaded E.
Qed.

(** C9 (as the code has it): [credential_definition_id] is assigned by every
    run of [receive_offer] (the credential definition of the received offer,
    also on a record that exists, which keeps its identifier) and of
    [create_offer] (the credential definition of the offer made, also for a
    counter-proposal, on the record it was given), whatever the record held
    before.  No other flow changes it: [create_request], [issue_credential],
    [store_credential] and [send_credential_ack] leave the value of the
    record they are given as it was, however they end, and
    [receive_request], [receive_credential], [receive_credential_ack] and
    [receive_problem_report] return the record they loaded with the value it
    had, store it in no other version and write no other record. *)
Theorem credential_definition_id_assignments (P : Profile.t) (w : World) :
  (forall message conn_id r' w',
     receive_offer P message conn_id w = (Ok r', w') ->
     exists offer,
       CredentialOffer.indy_offer 0 message = Some offer /\
       credential_definition_id r' = Some (IndyOffer.cred_def_id offer) /\
       forall r0,
         stored_under (CredentialOffer._thread_id message) conn_id w
         = Some r0 ->
         credential_exchange_id r0 <> None ->
         credential_exchange_id r' = credential_exchange_id r0) /\
  (forall r counter_proposal comment m r' w',
     create_offer P counter_proposal comment (r, w) = (Ok m, (r', w')) ->
     exists offer,
       CredentialOffer.offers_attach m = [offer] /\
       credential_definition_id r' = Some (IndyOffer.cred_def_id offer) /\
       (credential_exchange_id r <> None ->
        credential_exchange_id r' = credential_exchange_id r)) /\
  (forall r holder_did,
     credential_definition_id (fst (snd (create_request P holder_did (r, w))))
     = credential_definition_id r) /\
  (forall r comment retries,
     credential_definition_id
       (fst (snd (issue_credential P comment retries (r, w))))
     = credential_definition_id r) /\
  (forall r cred_id,
     credential_definition_id (fst (snd (store_credential P cred_id (r, w))))
     = credential_definition_id r) /\
  (forall r,
     credential_definition_id (fst (snd (send_credential_ack P (r, w))))
     = credential_definition_id r) /\
  (forall message conn_id,
     keeps_loaded_cred_def
       (match stored_under (CredentialRequest._thread_id message) conn_id w
        with
        | Some r => Some r
        | None => stored_under (CredentialRequest._thread_id message) None w
        end)
       w (receive_request P message conn_id w)) /\
  (forall message conn_id,
     keeps_loaded_cred_def
       (stored_under (CredentialIssue._thread_id message) conn_id w)
       w (receive_credential P message conn_id w)) /\
  (forall message conn_id,
     keeps_loaded_cred_def
       (stored_under (CredentialAck._thread_id message) conn_id w)
       w (receive_credential_ack P message conn_id w)) /\
  (forall message conn_id,
     keeps_loaded_cred_def
       (stored_under (CredentialProblemReport._thread_id message) conn_id w)
       w (receive_problem_report P message conn_id w)).
Proof.
  split; [|split; [|repeat split]].
  - intros message conn_id r' w' H.
    destruct (receive_offer_assigns _ _ _ _ _ _ H) as (o & ? & ? & _).
    exists o. repeat split; auto.
    intros r0. exact (receive_offer_same_record P message conn_id w r' w' r0 H).
  - intros r cp comment m r' w' H.
    pose proof (create_offer_post P cp comment r w) as Hp.
    pose proof (create_offer_same_record P cp comment r w) as Hs.
    unfold post in Hp, Hs. rewrite H in Hp, Hs.
    destruct (Hp m eq_refl) as (o & ? & ? & _). eauto.
  - intros r did. apply (create_request_post P did r w).
  - intros r comment retries. apply (issue_credential_post P comment retries r w).
  - intros r cred_id. apply (store_credential_post P cred_id r w).
  - intros r. apply (send_credential_ack_post P r w).
  - intros. apply receive_request_keeps.
  - intros. apply receive_credential_keeps.
  - intros. apply receive_credential_ack_keeps.
  - intros. apply receive_problem_report_keeps.
Qed.

(** Two offers arrive on one thread, the first on credential definition 41,
    the second on 42: the record the first one opened is the one the second
    one rewrites. *)
Lemma credential_definition_id_assignments_witness :
  let first := receive_offer demo_profile (demo_offer_message "X:3:CL:41:tag")
                 (Some "c1") (demo_world []) in
  let second := receive_offer demo_profile
                  (demo_offer_message "X:3:CL:42:tag") (Some "c1")
                  (snd first) in
  exists r1 r2,
    fst first = Ok r1 /\
    fst second = Ok r2 /\
    credential_definition_id r2 = Some "X:3:CL:42:tag" /\
    credential_exchange_id r2 = credential_exchange_id r1.
Proof.
  intros first second.
  destruct (credential_definition_id_assignments demo_profile (snd first))
    as (H & _).
  destruct first as [[r1|e] w1] eqn:E1; [|vm_compute in E1; discriminate].
  cbn [snd] in *. vm_compute in E1. injection E1 as <- <-.
  destruct second as [[r2|e] w2] eqn:E2; [|vm_compute in E2; discriminate].
  destruct (H _ _ _ _ E2) as (offer & Ho & Hc & Hid).
  eexists _, r2. split; [reflexivity|]. split; [reflexivity|]. split.
  - rewrite Hc. injection Ho as <-. reflexivity.
  - apply Hid; [reflexivity|discriminate].
Defined.

(** The same two offers: the record that the first offer left with
    credential definition 41 is, after the second, the one stored record,
    with credential definition 42. *)
Lemma receive_offer_reassigns_cred_def :
  let first := receive_offer demo_profile (demo_offer_message "X:3:CL:41:tag")
                 (Some "c1") (demo_world []) in
  exists r1 w1 r2 w2,
    first = (Ok r1, w1) /\
    receive_offer demo_profile (demo_offer_message "X:3:CL:42:tag")
      (Some "c1") w1 = (Ok r2, w2) /\
    exchange_records w1 = [r1] /\
    exchange_records w2 = [r2] /\
    credential_exchange_id r2 = credential_exchange_id r1 /\
    credential_definition_id r1 = Some "X:3:CL:41:tag" /\
    credential_definition_id r2 = Some "X:3:CL:42:tag".
Proof.
  eexists _, _, _, _. split; [vm_compute; reflexivity|].
  split; [vm_compute; reflexivity|]. repeat split.
Qed.

(** ** Choosing the credential definition *)

Lemma max_by_key_spec {A : Type} (l : list (A * Z)) : forall best bk,
  exists k,
    In (max_by_key best bk l, k) ((best, bk) :: l) /\
    forall y ky, In (y, ky) ((best, bk) :: l) -> ky <= k.
Proof.
  induction l as [|[x kx] l IH]; intros best bk; cbn [max_by_key].
  - exists bk. split; [now left|]. intros y ky [[= <- <-]|[]]. lia.
  - destruct (bk <? kx) eqn:E.
    + destruct (IH x kx) as (k & Hin & Hmax). exists k. split.
      * destruct Hin as [Hin|Hin]; [right; now left | right; now right].
      * apply Z.ltb_lt in E.
        pose proof (Hmax x kx (or_introl eq_refl)) as Hx.
        intros y ky [Hy|[Hy|Hy]].
        -- injection Hy as <- <-. lia.
        -- apply (Hmax y ky). now left.
        -- apply (Hmax y ky). now right.
    + destruct (IH best bk) as (k & Hin & Hmax). exists k. split.
      * destruct Hin as [Hin|Hin]; [now left | right; now right].
      * apply Z.ltb_ge in E.
        pose proof (Hmax best bk (or_introl eq_refl)) as Hb.
        intros y ky [Hy|[Hy|Hy]].
        -- apply (Hmax y ky). now left.
        -- injection Hy as <- <-. lia.
        -- apply (Hmax y ky). now right.
Qed.

Lemma epoch_key_ok {S : Type} r e (s : S) :
  epoch_of r = Some e -> epoch_key r s = (Ok e, s).
Proof.
  unfold epoch_of, epoch_key. destruct (StorageRecord.tags r !! "epoch") as [t|];
    cbn; [|discriminate].
  intros ->. reflexivity.
Qed.

Lemma map_m_epoch_key {S : Type} (l : list StorageRecord.t) (s : S) :
  (forall x, In x l -> is_Some (epoch_of x)) ->
  exists ks, map_m epoch_key l s = (Ok ks, s) /\
             Forall2 (fun x k => epoch_of x = Some k) l ks.
Proof.
  induction l as [|x l IH]; intros H.
  - exists []. split; [reflexivity | constructor].
  - destruct (H x (or_introl eq_refl)) as [e He].
    destruct IH as (ks & Hks & Hall); [intros; apply H; now right|].
    exists (e :: ks). split; [|now constructor].
    cbn [map_m]. unfold bind. rewrite (epoch_key_ok _ _ _ He), Hks. reflexivity.
Qed.

Lemma Forall2_zip_In {A B : Type} (R : A -> B -> Prop) l ks x k :
  Forall2 R l ks -> In (x, k) (zip l ks) -> In x l /\ R x k.
Proof.
  induction 1 as [|a b l' ks' Hab Hall IH]; cbn; [tauto|].
  intros [[= <- <-]|Hin]; [auto | destruct (IH Hin); auto].
Qed.

Lemma Forall2_In_zip {A B : Type} (R : A -> B -> Prop) l ks x :
  Forall2 R l ks -> In x l -> exists k, In (x, k) (zip l ks).
Proof.
  induction 1 as [|a b l' ks' Hab Hall IH]; cbn; [tauto|].
  intros [<-|Hin]; [eexists; now left | destruct (IH Hin) as [k ?]; eauto].
Qed.

Lemma In_zip_fst {A B : Type} (l : list A) : forall (ks : list B) x k,
  In (x, k) (zip l ks) -> In x l.
Proof.
  induction l as [|a l IH]; intros [|k' ks] x k; cbn; try tauto.
  intros [[= <- <-]|H]; [now left | right; eauto].
Qed.

Lemma match_sent_none q w :
  sent_cred_defs q w = [] ->
  _match_sent_cred_def_id q w
  = (Raise (CredentialManagerError (NoOperableCredDef q)), w).
Proof.
  unfold sent_cred_defs, _match_sent_cred_def_id, find_all_records, bind.
  now intros ->.
Qed.

Lemma match_sent_some q w :
  sent_cred_defs q w ≠ [] ->
  (forall x, In x (sent_cred_defs q w) ->
     is_Some (epoch_of x) /\
     is_Some (StorageRecord.tags x !! "cred_def_id")) ->
  exists best e c,
    In best (sent_cred_defs q w) /\
    epoch_of best = Some e /\
    (forall x e', In x (sent_cred_defs q w) -> epoch_of x = Some e' -> e' <= e) /\
    StorageRecord.tags best !! "cred_def_id" = Some c /\
    _match_sent_cred_def_id q w = (Ok c, w).
Proof.
  unfold _match_sent_cred_def_id, find_all_records, bind.
  fold (sent_cred_defs q w).
  destruct (sent_cred_defs q w) as [|r0 rest] eqn:Ef; [congruence|].
  intros _ Hall.
  destruct (Hall r0 (or_introl eq_refl)) as [[k0 Hk0] _].
  destruct (map_m_epoch_key (S := World) rest w) as (ks & Hks & Hf2);
    [intros; apply Hall; now right|].
  rewrite (epoch_key_ok _ _ _ Hk0), Hks.
  destruct (max_by_key_spec (zip rest ks) r0 k0) as (k & Hin & Hmax).
  set (best := max_by_key r0 k0 (zip rest ks)) in *.
  assert (Hbest : In best (r0 :: rest) /\ epoch_of best = Some k).
  { destruct Hin as [[= <- <-]|Hin]; [split; [now left | assumption]|].
    destruct (Forall2_zip_In _ _ _ _ _ Hf2 Hin). split; [now right | assumption]. }
  destruct Hbest as [Hb1 Hb2].
  destruct (Hall best Hb1) as [_ [c Hc]].
  exists best, k, c. repeat split; auto.
  - intros x e' Hx He'. destruct Hx as [Hx|Hx].
    + subst x. apply (Hmax r0 e'). left. congruence.
    + destruct (Forall2_In_zip _ _ _ _ Hf2 Hx) as [kx Hkx].
      destruct (Forall2_zip_In _ _ _ _ _ Hf2 Hkx) as [_ Hek].
      assert (kx = e') by congruence. subst. apply (Hmax x e'). now right.
  - now rewrite Hc.
Qed.

Lemma tag_query_trace t m :
  cred_def_tag_query (CredentialProposal.assign_trace_decorator t m)
  = cred_def_tag_query m.
Proof. reflexivity. Qed.

Lemma tag_query_cred_def_id m c :
  CredentialProposal.cred_def_id m = Some c -> truthy (Some c) = true ->
  cred_def_tag_query m !! "cred_def_id" = Some c.
Proof.
  intros Hc Ht. unfold cred_def_tag_query, CRED_DEF_TAGS.
  cbn [fold_left]. 
  replace (proposal_getattr m "cred_def_id") with (Some c) by (now rewrite <- Hc).
  rewrite Ht. apply lookup_insert_eq.
Qed.

Lemma match_sent_explicit m c0 w c :
  CredentialProposal.cred_def_id m = Some c0 -> truthy (Some c0) = true ->
  _match_sent_cred_def_id (cred_def_tag_query m) w = (Ok c, w) -> c = c0.
Proof.
  intros Hc Ht. pose proof (tag_query_cred_def_id m c0 Hc Ht) as Hq.
  unfold _match_sent_cred_def_id, find_all_records, bind.
  fold (sent_cred_defs (cred_def_tag_query m) w).
  destruct (sent_cred_defs (cred_def_tag_query m) w) as [|r0 rest] eqn:Ef;
    [discriminate|].
  destruct (epoch_key r0 w) as [[k0|?] ?] eqn:E0; [|discriminate].
  destruct (map_m epoch_key rest w0) as [[ks|?] ?] eqn:E1; [|discriminate].
  destruct (max_by_key_spec (zip rest ks) r0 k0) as (k & Hin & _).
  set (best := max_by_key r0 k0 (zip rest ks)) in *.
  assert (Hb : In best (r0 :: rest)).
  { destruct Hin as [[= <- <-]|Hin]; [now left|]. right.
    eapply In_zip_fst, Hin. }
  rewrite <- Ef in Hb. unfold sent_cred_defs in Hb.
  apply filter_In in Hb as [_ Hb]. apply andb_true_iff in Hb as [_ Hb].
  apply bool_decide_eq_true_1 in Hb.
  pose proof (lookup_weaken _ _ _ _ Hq Hb) as Hl.
  rewrite Hl. now intros [= <- _].
Qed.

Lemma match_sent_world q w : snd (_match_sent_cred_def_id q w) = w.
Proof.
  unfold _match_sent_cred_def_id, find_all_records, bind. cbn.
  destruct (List.filter _ _) as [|r0 rest]; [reflexivity|].
  unfold epoch_key at 1.
  destruct (StorageRecord.tags r0 !! "epoch") as [t|]; [|reflexivity].
  destruct (py_int t); [|reflexivity]. cbn.
  assert (Hm : forall l, snd (map_m epoch_key l w) = w).
  { induction l as [|x l IH]; [reflexivity|]. cbn [map_m]. unfold bind.
    unfold epoch_key at 1.
    destruct (StorageRecord.tags x !! "epoch") as [t'|]; [|reflexivity].
    destruct (py_int t'); [|reflexivity]. cbn.
    destruct (map_m epoch_key l w) as [[ks|e] w1]; cbn in *; now subst. }
  specialize (Hm rest).
  destruct (map_m epoch_key rest w) as [[ks|e] w1]; cbn in *; subst;
    [|reflexivity].
  now destruct (StorageRecord.tags _ !! "cred_def_id").
Qed.

(** ** Creating an offer *)

#[local] Arguments cred_def_tag_query : simpl never.
#[local] Arguments _match_sent_cred_def_id : simpl never.

Lemma create_offer_no_match P counter_proposal comment r w m :
  offer_proposal counter_proposal r = Some m ->
  sent_cred_defs (cred_def_tag_query m) w = [] ->
  create_offer P counter_proposal comment (r, w)
  = (Raise (CredentialManagerError
              (NoOperableCredDef (cred_def_tag_query m))), (r, w)).
Proof.
  intros Hm Hnone. unfold create_offer, bind, this, attr, in_world.
  cbn [fst snd]. unfold offer_proposal in Hm. rewrite Hm.
  cbn -[CredentialProposal.assign_trace_decorator].
  rewrite tag_query_trace, (match_sent_none _ _ Hnone). reflexivity.
Qed.

Lemma create_offer_mismatch P counter_proposal comment r w m cdid preview :
  offer_proposal counter_proposal r = Some m ->
  _match_sent_cred_def_id (cred_def_tag_query m) w = (Ok cdid, w) ->
  CredentialProposal.credential_proposal m = Some preview ->
  dom (CredentialPreview.attr_dict preview)
  ≠ list_to_set (attrNames (schema_of_cred_def P cdid)) ->
  create_offer P counter_proposal comment (r, w)
  = (Raise (CredentialManagerError
              (PreviewMismatch
                 (dom (CredentialPreview.attr_dict preview))
                 (list_to_set (attrNames (schema_of_cred_def P cdid))))),
     (r, after_schema_lookup P cdid w)).
Proof.
  intros Hm Hsel Hp Hne.
  unfold create_offer, bind, this, attr, in_world.
  cbn [fst snd]. unfold offer_proposal in Hm. rewrite Hm.
  cbn -[CredentialProposal.assign_trace_decorator].
  rewrite tag_query_trace, Hsel. cbn. rewrite Hp. cbn.
  fold (schema_of_cred_def P cdid).
  rewrite bool_decide_eq_true_2 by assumption.
  unfold after_schema_lookup. rewrite <- app_assoc. reflexivity.
Qed.

Lemma create_offer_vets P counter_proposal comment r w msg r' w' :
  create_offer P counter_proposal comment (r, w) = (Ok msg, (r', w')) ->
  exists m cdid preview,
    offer_proposal counter_proposal r = Some m /\
    _match_sent_cred_def_id (cred_def_tag_query m) w = (Ok cdid, w) /\
    CredentialProposal.credential_proposal m = Some preview /\
    dom (CredentialPreview.attr_dict preview)
    = list_to_set (attrNames (schema_of_cred_def P cdid)).
Proof.
  unfold create_offer, bind, this, attr, in_world. cbn [fst snd].
  fold (offer_proposal counter_proposal r).
  destruct (offer_proposal counter_proposal r) as [m|]; [|discriminate].
  cbn -[CredentialProposal.assign_trace_decorator]. rewrite tag_query_trace.
  pose proof (match_sent_world (cred_def_tag_query m) w) as Hw.
  destruct (_match_sent_cred_def_id (cred_def_tag_query m) w)
    as [[cdid|e] w1] eqn:Hsel; cbn in Hw; subst w1; cbn; [|discriminate].
  destruct (CredentialProposal.credential_proposal m) as [preview|] eqn:Hp;
    cbn; [|discriminate].
  fold (schema_of_cred_def P cdid).
  destruct (bool_decide _) eqn:Hb; [discriminate|].
  apply bool_decide_eq_false_1 in Hb. intros _.
  exists m, cdid, preview. repeat split; auto.
  destruct (decide (dom (CredentialPreview.attr_dict preview)
                    = list_to_set (attrNames (schema_of_cred_def P cdid))));
    [assumption | contradiction].
Qed.

Lemma create_offer_succeeds P counter_proposal comment r w m cdid preview :
  offer_proposal counter_proposal r = Some m ->
  _match_sent_cred_def_id (cred_def_tag_query m) w = (Ok cdid, w) ->
  CredentialProposal.credential_proposal m = Some preview ->
  dom (CredentialPreview.attr_dict preview)
  = list_to_set (attrNames (schema_of_cred_def P cdid)) ->
  cache w = None ->
  let offer := Profile.create_credential_offer P
                 (log (after_schema_lookup P cdid w)) cdid in
  exists msg r' w' i,
    create_offer P counter_proposal comment (r, w) = (Ok msg, (r', w')) /\
    CredentialOffer.offers_attach msg = [offer] /\
    CredentialOffer.credential_preview msg = Some preview /\
    state r' = Some STATE_OFFER_SENT /\
    credential_definition_id r' = Some (IndyOffer.cred_def_id offer) /\
    schema_id r' = Some (IndyOffer.schema_id offer) /\
    credential_offer r' = Some offer /\
    log w' = log w ++
      [EvLedger "credential_definition_id2schema_id" (Some cdid);
       EvLedger "get_schema"
         (Some (Profile.credential_definition_id2schema_id P cdid));
       EvIssuerCreateCredentialOffer cdid;
       EvSave i "create credential offer"] /\
    In r' (exchange_records w').
Proof.
  intros Hm Hsel Hp Heq Hcache offer.
  unfold create_offer, bind, this, attr, in_world.
  cbn [fst snd]. unfold offer_proposal in Hm. rewrite Hm.
  cbn -[CredentialProposal.assign_trace_decorator].
  rewrite tag_query_trace, Hsel. cbn. rewrite Hp. cbn.
  fold (schema_of_cred_def P cdid).
  rewrite bool_decide_eq_false_2 by (intros H; now apply H).
  unfold obtain_credential_offer, assign, save, save_record, bind, this,
    in_world, new_uuid, ret.
  cbn. rewrite Hcache. cbn.
  destruct (credential_exchange_id r) as [i|] eqn:E; cbn;
    eexists _, _, _, _; (split; [reflexivity|]); cbn;
    rewrite <- !app_assoc; repeat split; auto using store_put_In.
Qed.

(** The lookup of a tag in the query, one tag name at a time. *)
Lemma tag_query_fold (m : CredentialProposal.t) (t : string) :
  forall (l : list string) (q : gmap string string),
    fold_left
      (fun q t =>
         match proposal_getattr m t with
         | Some v => if truthy (Some v) then <[t := v]> q else q
         | None => q
         end) l q !! t
    = if bool_decide (t ∈ l) && truthy (proposal_getattr m t)
      then proposal_getattr m t
      else q !! t.
Proof.
  induction l as [|x l IH]; intros q; [reflexivity|].
  cbn [fold_left]. rewrite IH.
  destruct (truthy (proposal_getattr m t)) eqn:Ht.
  - destruct (bool_decide (t ∈ l)) eqn:El.
    + apply bool_decide_eq_true_1 in El.
      rewrite bool_decide_eq_true_2 by (apply elem_of_cons; now right).
      reflexivity.
    + apply bool_decide_eq_false_1 in El. cbn.
      destruct (decide (x = t)) as [->|Hne].
      * rewrite bool_decide_eq_true_2 by (apply elem_of_cons; now left). cbn.
        destruct (proposal_getattr m t) as [v|]; [|discriminate].
        cbn in Ht |- *. rewrite Ht. apply lookup_insert_eq.
      * rewrite bool_decide_eq_false_2
          by (intros [?|?]%elem_of_cons; auto). cbn.
        destruct (proposal_getattr m x) as [v|]; [|reflexivity].
        destruct (negb (String.eqb v "")); [|reflexivity].
        now apply lookup_insert_ne.
  - rewrite !andb_false_r.
    destruct (proposal_getattr m x) as [v|] eqn:Ex; [|reflexivity].
    destruct (truthy (Some v)) eqn:Hv; [|reflexivity].
    apply lookup_insert_ne. intros ->. congruence.
Qed.

Lemma tag_query_selectors (m : CredentialProposal.t) (t v : string) :
  cred_def_tag_query m !! t = Some v <->
  In t CRED_DEF_TAGS /\ proposal_getattr m t = Some v /\ v <> "".
Proof.
  unfold cred_def_tag_query. rewrite tag_query_fold, lookup_empty.
  rewrite <- list_elem_of_In.
  destruct (bool_decide (t ∈ CRED_DEF_TAGS)) eqn:Et; cbn.
  - apply bool_decide_eq_true_1 in Et.
    destruct (proposal_getattr m t) as [v'|] eqn:Ev; cbn.
    + destruct (String.eqb_spec v' ""); cbn.
      * split; [discriminate|]. intros (_ & [= ->] & H). contradiction.
      * split; [intros [= ->]; auto|]. now intros (_ & [= ->] & _).
    + split; [discriminate|]. now intros (_ & ? & _).
  - apply bool_decide_eq_false_1 in Et.
    split; [discriminate|]. now intros (? & _).
Qed.

Lemma sent_cred_defs_spec (q : gmap string string) (w : World) x :
  In x (sent_cred_defs q w) <->
  In x (storage_records w) /\
  StorageRecord.type x = CRED_DEF_SENT_RECORD_TYPE /\
  forall t v, q !! t = Some v -> StorageRecord.tags x !! t = Some v.
Proof.
  unfold sent_cred_defs. rewrite List.filter_In, andb_true_iff.
  rewrite String.eqb_eq, bool_decide_eq_true, map_subseteq_spec. tauto.
Qed.

Lemma sent_cred_defs_unknown m c0 w :
  CredentialProposal.cred_def_id m = Some c0 -> c0 <> "" ->
  (forall x, In x (storage_records w) ->
             StorageRecord.tags x !! "cred_def_id" <> Some c0) ->
  sent_cred_defs (cred_def_tag_query m) w = [].
Proof.
  intros Hc Hne Hnone.
  destruct (sent_cred_defs (cred_def_tag_query m) w) as [|x l] eqn:E;
    [reflexivity|].
  assert (Hx : In x (sent_cred_defs (cred_def_tag_query m) w))
    by (rewrite E; now left).
  apply sent_cred_defs_spec in Hx as (Hin & _ & Htags).
  exfalso. apply (Hnone x Hin). apply Htags.
  apply tag_query_cred_def_id; [exact Hc|].
  cbn. now destruct (String.eqb_spec c0 "").
Qed.

(** C6 (as the code has it): [create_offer] has no branch for an explicit
    [cred_def_id]: it chooses the credential definition by one tag query,
    which holds exactly the proposal's selectors that are set and not empty
    ([cred_def_id] among them), over the records of sent credential
    definitions whose tags carry every entry of the query.  With no matching
    record it raises the manager's error and the record and the world are as
    they were; that is also what happens to a proposal naming a
    [cred_def_id] that no sent record carries.  With matching records (each
    with an integer epoch) the choice is the [cred_def_id] of a record whose
    epoch is the largest; when the proposal names a [cred_def_id] and the
    selection succeeds, the choice is that one.  The offer is then made for
    the chosen credential definition. *)
Theorem create_offer_selects_cred_def (P : Profile.t)
    (counter_proposal : option CredentialProposal.t) (comment : option string)
    (r : V10CredentialExchange) (w : World) (m : CredentialProposal.t) :
  offer_proposal counter_proposal r = Some m ->
  let q := cred_def_tag_query m in
  (forall t v,
     q !! t = Some v <->
     In t CRED_DEF_TAGS /\ proposal_getattr m t = Some v /\ v <> "") /\
  (forall x,
     In x (sent_cred_defs q w) <->
     In x (storage_records w) /\
     StorageRecord.type x = CRED_DEF_SENT_RECORD_TYPE /\
     forall t v, q !! t = Some v -> StorageRecord.tags x !! t = Some v) /\
  (sent_cred_defs q w = [] ->
   create_offer P counter_proposal comment (r, w)
   = (Raise (CredentialManagerError (NoOperableCredDef q)), (r, w))) /\
  (forall c0,
     CredentialProposal.cred_def_id m = Some c0 -> c0 <> "" ->
     (forall x, In x (storage_records w) ->
                StorageRecord.tags x !! "cred_def_id" <> Some c0) ->
     create_offer P counter_proposal comment (r, w)
     = (Raise (CredentialManagerError (NoOperableCredDef q)), (r, w))) /\
  (sent_cred_defs q w ≠ [] ->
   (forall x, In x (sent_cred_defs q w) ->
      is_Some (epoch_of x) /\
      is_Some (StorageRecord.tags x !! "cred_def_id")) ->
   exists best e c,
     In best (sent_cred_defs q w) /\
     epoch_of best = Some e /\
     (forall x e', In x (sent_cred_defs q w) -> epoch_of x = Some e' ->
                   e' <= e) /\
     StorageRecord.tags best !! "cred_def_id" = Some c /\
     _match_sent_cred_def_id q w = (Ok c, w)) /\
  (forall c0 c,
     CredentialProposal.cred_def_id m = Some c0 -> truthy (Some c0) = true ->
     _match_sent_cred_def_id q w = (Ok c, w) -> c = c0) /\
  (forall cdid preview,
     _match_sent_cred_def_id q w = (Ok cdid, w) ->
     CredentialProposal.credential_proposal m = Some preview ->
     dom (CredentialPreview.attr_dict preview)
     = list_to_set (attrNames (schema_of_cred_def P cdid)) ->
     cache w = None ->
     exists msg r' w',
       create_offer P counter_proposal comment (r, w) = (Ok msg, (r', w')) /\
       CredentialOffer.offers_attach msg
       = [Profile.create_credential_offer P
            (log (after_schema_lookup P cdid w)) cdid] /\
       credential_definition_id r'
       = Some (IndyOffer.cred_def_id
                 (Profile.create_credential_offer P
                    (log (after_schema_lookup P cdid w)) cdid)) /\
       In (EvIssuerCreateCredentialOffer cdid) (log w')).
Proof.
  intros Hm q. subst q.
  split; [|split; [|split; [|split; [|split; [|split]]]]].
  - intros t v. apply tag_query_selectors.
  - intros x. apply sent_cred_defs_spec.
  - intros H. now apply create_offer_no_match.
  - intros c0 Hc Hne Hnone. apply create_offer_no_match; [exact Hm|].
    now apply (sent_cred_defs_unknown m c0 w).
  - intros H1 H2. now apply match_sent_some.
  - intros c0 c H1 H2 H3. eapply match_sent_explicit; eassumption.
  - intros cdid preview H1 H2 H3 H4.
    destruct (create_offer_succeeds P counter_proposal comment r w m cdid
                preview Hm H1 H2 H3 H4)
      as (msg & r' & w' & i & Hrun & Hatt & _ & _ & Hcd & _ & _ & Hlog & _).
    exists msg, r', w'. split; [exact Hrun|]. split; [exact Hatt|].
    split; [exact Hcd|].
    rewrite Hlog. apply in_or_app. right. cbn. tauto.
Qed.

Lemma create_offer_selects_cred_def_witness :
  let m := demo_proposal None ["name"; "date"; "id"] in
  let r := set_credential_proposal_dict (Some m)
             (demo_record (Some STATE_PROPOSAL_RECEIVED)) in
  let w := demo_world [r] in
  let q := cred_def_tag_query m in
  (forall t v, q !! t = Some v <->
               t = "schema_name" /\ v = "identification schema") /\
  (exists best e c,
     In best (sent_cred_defs q w) /\
     epoch_of best = Some e /\
     (forall x e', In x (sent_cred_defs q w) -> epoch_of x = Some e' ->
                   e' <= e) /\
     StorageRecord.tags best !! "cred_def_id" = Some c /\
     _match_sent_cred_def_id q w = (Ok c, w)) /\
  _match_sent_cred_def_id q w = (Ok "X:3:CL:42:tag", w).
Proof.
  intros m r w q.
  destruct (create_offer_selects_cred_def demo_profile None None r w m
              eq_refl)
    as (Hq & _ & _ & _ & H & _).
  split; [|split].
  - clear H. intros t v. fold q in Hq. rewrite Hq. clear Hq. split.
    + intros (Hin & Hget & Hne).
      cbn in Hin.
      destruct Hin as [<-|[<-|[<-|[<-|[<-|[<-|[]]]]]]];
        cbn in Hget; try discriminate.
      injection Hget as <-. split; reflexivity.
    + intros [-> ->]. split; [right; left; reflexivity|].
      split; [reflexivity|discriminate].
  - clear Hq.
    assert (Hfound : sent_cred_defs q w = storage_records w)
      by (vm_compute; reflexivity).
    apply H.
    + fold q. rewrite Hfound. discriminate.
    + fold q. rewrite Hfound.
      intros x [<-|[<-|[<-|[]]]]; split; eexists; vm_compute; reflexivity.
  - vm_compute. reflexivity.
Defined.

(** The proposal names a credential definition the agent never sent: it is
    not used, no offer is made, and the record's state is as it was. *)
Lemma create_offer_explicit_cred_def_unknown :
  let m := demo_proposal (Some "X:3:CL:99:tag") ["name"; "date"; "id"] in
  let r := set_credential_proposal_dict (Some m)
             (demo_record (Some STATE_PROPOSAL_RECEIVED)) in
  let out := create_offer demo_profile None None (r, demo_world [r]) in
  CredentialProposal.cred_def_id m = Some "X:3:CL:99:tag" /\
  fst out
  = Raise (CredentialManagerError (NoOperableCredDef (cred_def_tag_query m)))
  /\ snd out = (r, demo_world [r]) /\
  credential_definition_id (fst (snd out)) = None /\
  log (snd (snd out)) = [].
Proof.
  intros m r out.
  assert (Hrun : out
                 = (Raise (CredentialManagerError
                             (NoOperableCredDef (cred_def_tag_query m))),
                    (r, demo_world [r]))).
  { apply create_offer_no_match; [reflexivity|].
    apply (sent_cred_defs_unknown m "X:3:CL:99:tag"); [reflexivity|discriminate|].
    intros x [<-|[<-|[<-|[]]]]; vm_compute; discriminate. }
  rewrite Hrun. repeat split.
Qed.

(** The three sent credential definitions match the proposal's schema name;
    the one of the latest epoch is chosen. *)
Example match_sent_cred_def_id_latest :
  _match_sent_cred_def_id
    (cred_def_tag_query (demo_proposal None ["name"; "date"; "id"]))
    (demo_world [])
  = (Ok "X:3:CL:42:tag", demo_world []).
Proof. vm_compute. reflexivity. Qed.

(** C7: [create_offer] returns only when the names of the preview's
    attributes are, as a set, the [attrNames] of the schema of the chosen
    credential definition; with any other preview it raises the manager's
    mismatch error and leaves the record as it was (the world has the two
    ledger reads in its log); with the same set, and no cache in the way, it
    does return, the record [OFFER_SENT]. *)
Theorem create_offer_vets_preview (P : Profile.t)
    (counter_proposal : option CredentialProposal.t) (comment : option string)
    (r : V10CredentialExchange) (w : World) :
  (forall msg r' w',
     create_offer P counter_proposal comment (r, w) = (Ok msg, (r', w')) ->
     exists m cdid preview,
       offer_proposal counter_proposal r = Some m /\
       _match_sent_cred_def_id (cred_def_tag_query m) w = (Ok cdid, w) /\
       CredentialProposal.credential_proposal m = Some preview /\
       dom (CredentialPreview.attr_dict preview)
       = list_to_set (attrNames (schema_of_cred_def P cdid))) /\
  (forall m cdid preview,
     offer_proposal counter_proposal r = Some m ->
     _match_sent_cred_def_id (cred_def_tag_query m) w = (Ok cdid, w) ->
     CredentialProposal.credential_proposal m = Some preview ->
     dom (CredentialPreview.attr_dict preview)
     ≠ list_to_set (attrNames (schema_of_cred_def P cdid)) ->
     create_offer P counter_proposal comment (r, w)
     = (Raise (CredentialManagerError
                 (PreviewMismatch
                    (dom (CredentialPreview.attr_dict preview))
                    (list_to_set (attrNames (schema_of_cred_def P cdid))))),
        (r, after_schema_lookup P cdid w))) /\
  (forall m cdid preview,
     offer_proposal counter_proposal r = Some m ->
     _match_sent_cred_def_id (cred_def_tag_query m) w = (Ok cdid, w) ->
     CredentialProposal.credential_proposal m = Some preview ->
     dom (CredentialPreview.attr_dict preview)
     = list_to_set (attrNames (schema_of_cred_def P cdid)) ->
     cache w = None ->
     exists msg r' w',
       create_offer P counter_proposal comment (r, w) = (Ok msg, (r', w')) /\
       CredentialOffer.credential_preview msg = Some preview /\
       state r' = Some STATE_OFFER_SENT).
Proof.
  split; [|split].
  - intros msg r' w' H. eapply create_offer_vets; eassumption.
  - intros m cdid preview H1 H2 H3 H4.
    eapply create_offer_mismatch; eassumption.
  - intros m cdid preview H1 H2 H3 H4 H5.
    destruct (create_offer_succeeds P counter_proposal comment r w m cdid
                preview H1 H2 H3 H4 H5)
      as (msg & r' & w' & i & Hrun & _ & Hprev & Hst & _).
    exists msg, r', w'. auto.
Qed.

Lemma create_offer_vets_preview_witness :
  let r := set_credential_proposal_dict
             (Some (demo_proposal None ["name"; "date"]))
             (demo_record (Some STATE_PROPOSAL_RECEIVED)) in
  let w := demo_world [r] in
  let out := create_offer demo_profile None None (r, w) in
  fst out
  = Raise (CredentialManagerError
             (PreviewMismatch {[ "name"; "date" ]}
                              {[ "name"; "date"; "id" ]})) /\
  state (fst (snd out)) = Some STATE_PROPOSAL_RECEIVED.
Proof.
  intros r w out.
  destruct (create_offer_vets_preview demo_profile None None r w)
    as (_ & H & _).
  specialize (H (demo_proposal None ["name"; "date"]) "X:3:CL:42:tag"
                (demo_preview ["name"; "date"]) eq_refl).
  subst out. rewrite H.
  - split; [|reflexivity]. cbn [fst]. do 2 f_equal.
  - vm_compute. reflexivity.
  - reflexivity.
  - intros Heq.
    apply (f_equal (fun s : gset string => bool_decide ("id" ∈ s))) in Heq.
    vm_compute in Heq. discriminate Heq.
Defined.

(** ** Issuing against revocation registries *)

Lemma sorted_head (l : list IssuerRevRegRecord.t) :
  match IssuerRevRegRecord.sorted l with
  | [] => l = []
  | h :: _ =>
      In h l /\
      forall x, In x l ->
        IssuerRevRegRecord.created_at x <= IssuerRevRegRecord.created_at h
  end.
Proof.
  induction l as [|a l IH]; [reflexivity|].
  unfold IssuerRevRegRecord.sorted in *. cbn [foldr].
  destruct (foldr IssuerRevRegRecord.insert_sorted [] l) as [|h t].
  - subst l. cbn. split; [now left|]. intros x [<-|[]]. lia.
  - destruct IH as [Hin Hmax]. cbn [IssuerRevRegRecord.insert_sorted].
    unfold IssuerRevRegRecord.lt.
    destruct (IssuerRevRegRecord.created_at a
              <? IssuerRevRegRecord.created_at h) eqn:E.
    + apply Z.ltb_lt in E. split; [now right|].
      intros x [<-|Hx]; [lia | now apply Hmax].
    + apply Z.ltb_ge in E. split; [now left|].
      intros x [<-|Hx]; [lia | specialize (Hmax x Hx); lia].
Qed.

Lemma rev_reg_put_In a l : In a (rev_reg_put a l).
Proof.
  unfold rev_reg_put.
  destruct (existsb _ l) eqn:E.
  - apply existsb_exists in E as (x & Hx & Hs).
    apply in_map_iff. exists x. now rewrite Hs.
  - apply in_or_app. right. now left.
Qed.

Ltac cbn_flow :=
  cbn -[IssuerRevRegRecord.query_by_cred_def_id IssuerRevRegRecord.sorted
        CredentialPreview.attr_dict py_int];
  cbn [fst snd rev_reg_records exchange_records storage_records cache
       uuid_counter log set_log set_rev_reg_records set_exchange_records
       set_uuid_counter set_cache].

Section NoActiveRegistry.
Variable P : Profile.t.
Variables (r : V10CredentialExchange) (w : World).
Variables (offer : IndyOffer.t) (req : IndyCredRequest).
Hypothesis Hstate : state r = Some STATE_REQUEST_RECEIVED.
Hypothesis Hcred : credential r = None.
Hypothesis Hoffer : credential_offer r = Some offer.
Hypothesis Hreq : credential_request r = Some req.
Hypothesis Hrevocable :
  revocation (Profile.get_credential_definition P (credential_definition_id r))
  = true.
Hypothesis Hnone :
  IssuerRevRegRecord.query_by_cred_def_id (rev_reg_records w)
    (credential_definition_id r) (Some IssuerRevRegRecord.STATE_ACTIVE) = [].

Lemma issue_credential_exhausted comment :
  let cdid := credential_definition_id r in
  let posted :=
    IssuerRevRegRecord.query_by_cred_def_id (rev_reg_records w) cdid
      (Some IssuerRevRegRecord.STATE_POSTED) in
  let size :=
    match IssuerRevRegRecord.sorted
            (IssuerRevRegRecord.query_by_cred_def_id (rev_reg_records w)
               cdid None) with
    | old :: _ => Some (IssuerRevRegRecord.max_cred_num old)
    | [] => None
    end in
  let notifications : list Event :=
    match posted with
    | [] => [EvNotifyRevocationReg cdid size true;
             EvNotifyRevocationReg cdid size true]
    | _ :: _ => []
    end in
  issue_credential P comment 0 (r, w)
  = (Raise (CredentialManagerError (NoActiveRevocationRegistry cdid)),
     (r, add_log (issue_ledger_reads r ++ notifications) w)).
Proof.
  intros cdid posted size notifications.
  cbn [issue_credential].
  unfold bind, this, attr, in_world, try_except, ret, raise, assign,
    ledger_get_schema, ledger_get_credential_definition, emit,
    get_active_issuer_rev_reg_record, query_rev_regs,
    notify_revocation_reg_event.
  cbn_flow. rewrite bool_decide_eq_false_2 by (rewrite Hstate; auto).
  rewrite Hcred, Hoffer, Hreq. cbn_flow. rewrite Hrevocable. cbn_flow.
  rewrite Hnone. cbn_flow.
  subst notifications size posted cdid. unfold add_log, issue_ledger_reads.
  destruct (IssuerRevRegRecord.query_by_cred_def_id (rev_reg_records w)
              (credential_definition_id r)
              (Some IssuerRevRegRecord.STATE_POSTED)); cbn_flow;
    rewrite <- ?app_assoc; reflexivity.
Qed.

Lemma issue_credential_waits comment n :
  let cdid := credential_definition_id r in
  let posted :=
    IssuerRevRegRecord.query_by_cred_def_id (rev_reg_records w) cdid
      (Some IssuerRevRegRecord.STATE_POSTED) in
  let size :=
    match IssuerRevRegRecord.sorted
            (IssuerRevRegRecord.query_by_cred_def_id (rev_reg_records w)
               cdid None) with
    | old :: _ => Some (IssuerRevRegRecord.max_cred_num old)
    | [] => None
    end in
  let notifications : list Event :=
    match posted with
    | [] => [EvNotifyRevocationReg cdid size true;
             EvNotifyRevocationReg cdid size true]
    | _ :: _ => []
    end in
  issue_credential P comment (S n) (r, w)
  = issue_credential P comment n
      (r, snd (sleep P 2
                 (add_log (issue_ledger_reads r ++ notifications ++
                           [EvLog INFO
                              "Waiting 2s on posted rev reg for cred def %s, retrying"
                              [py_str cdid]]) w))).
Proof.
  intros cdid posted size notifications.
  cbn [issue_credential].
  unfold bind, this, attr, in_world, try_except, ret, raise, assign,
    ledger_get_schema, ledger_get_credential_definition, emit,
    get_active_issuer_rev_reg_record, query_rev_regs,
    notify_revocation_reg_event.
  cbn_flow. rewrite bool_decide_eq_false_2 by (rewrite Hstate; auto).
  rewrite Hcred, Hoffer, Hreq. cbn_flow. rewrite Hrevocable. cbn_flow.
  rewrite Hnone. cbn_flow.
  subst notifications size posted cdid. unfold add_log, issue_ledger_reads.
  destruct (IssuerRevRegRecord.query_by_cred_def_id (rev_reg_records w)
              (credential_definition_id r)
              (Some IssuerRevRegRecord.STATE_POSTED)); cbn_flow;
    rewrite <- ?app_assoc; cbn [app];
    match goal with
    | |- _ = issue_credential P comment n (r, ?W2) => set (w2 := W2)
    end;
    match goal with
    | |- ?L = _ =>
        match L with
        | context [issue_credential P comment n (r, ?W1)] =>
            replace W1 with w2
              by (subst w2; unfold sleep; cbn_flow;
                  rewrite <- ?app_assoc; reflexivity)
        end
    end;
    destruct (issue_credential P comment n (r, w2)) as [[x|e] [r' w']];
    reflexivity.
Qed.
End NoActiveRegistry.

(** C4: with a revocable credential definition and no active registry
    record, [issue_credential] looks for posted records; when there are none
    it emits two notifications with [auto_create_rev_reg] set, whose size is
    that of the most recently created registry record of the credential
    definition when there is one and unset otherwise.  Then, with retries
    left it sleeps 2 seconds and runs again with one retry less; with none
    left it raises the manager's error, the record unchanged and still in
    [REQUEST_RECEIVED]. *)
Theorem no_active_registry_retries (P : Profile.t) (r : V10CredentialExchange)
    (w : World) (offer : IndyOffer.t) (req : IndyCredRequest)
    (comment : option string) :
  state r = Some STATE_REQUEST_RECEIVED ->
  credential r = None ->
  credential_offer r = Some offer ->
  credential_request r = Some req ->
  revocation (Profile.get_credential_definition P (credential_definition_id r))
  = true ->
  IssuerRevRegRecord.query_by_cred_def_id (rev_reg_records w)
    (credential_definition_id r) (Some IssuerRevRegRecord.STATE_ACTIVE) = [] ->
  let cdid := credential_definition_id r in
  let existing :=
    IssuerRevRegRecord.query_by_cred_def_id (rev_reg_records w) cdid None in
  let posted :=
    IssuerRevRegRecord.query_by_cred_def_id (rev_reg_records w) cdid
      (Some IssuerRevRegRecord.STATE_POSTED) in
  exists size notifications,
    ((existing = [] /\ size = None) \/
     (exists old,
        In old existing /\
        (forall x, In x existing ->
           IssuerRevRegRecord.created_at x
           <= IssuerRevRegRecord.created_at old) /\
        size = Some (IssuerRevRegRecord.max_cred_num old))) /\
    (posted = [] ->
     notifications = [EvNotifyRevocationReg cdid size true;
                      EvNotifyRevocationReg cdid size true]) /\
    (posted ≠ [] -> notifications = []) /\
    issue_credential P comment 0 (r, w)
    = (Raise (CredentialManagerError (NoActiveRevocationRegistry cdid)),
       (r, add_log (issue_ledger_reads r ++ notifications) w)) /\
    state (fst (snd (issue_credential P comment 0 (r, w))))
    = Some STATE_REQUEST_RECEIVED /\
    (forall n,
       issue_credential P comment (S n) (r, w)
       = issue_credential P comment n
           (r, snd (sleep P 2
                      (add_log
                         (issue_ledger_reads r ++ notifications ++
                          [EvLog INFO
                             "Waiting 2s on posted rev reg for cred def %s, retrying"
                             [py_str cdid]]) w)))) /\
    (forall w0, log (snd (sleep P 2 w0)) = log w0 ++ [EvSleep 2]).
Proof.
  intros Hstate Hcred Hoffer Hreq Hrev Hnone cdid existing posted.
  pose proof (issue_credential_exhausted P r w offer req Hstate Hcred Hoffer
                Hreq Hrev Hnone comment) as Hex.
  pose proof (issue_credential_waits P r w offer req Hstate Hcred Hoffer
                Hreq Hrev Hnone comment) as Hwait.
  cbv zeta in Hex, Hwait. fold cdid in Hex, Hwait.
  fold existing in Hex, Hwait. fold posted in Hex, Hwait.
  set (size := match IssuerRevRegRecord.sorted existing with
               | old :: _ => Some (IssuerRevRegRecord.max_cred_num old)
               | [] => None
               end) in *.
  exists size,
    (match posted with
     | [] => [EvNotifyRevocationReg cdid size true;
              EvNotifyRevocationReg cdid size true]
     | _ :: _ => []
     end).
  split; [|split; [|split; [|split; [exact Hex|]]]].
  - pose proof (sorted_head existing) as Hs. subst size.
    destruct (IssuerRevRegRecord.sorted existing) as [|old rest].
    + left. auto.
    + right. exists old. destruct Hs. auto.
  - intros ->. reflexivity.
  - intros Hne. destruct posted; [congruence | reflexivity].
  - rewrite Hex. cbn. split; [assumption|]. split; [exact Hwait | reflexivity].
Qed.

Section ActiveRegistry.
Variable P : Profile.t.
Variables (r : V10CredentialExchange) (w : World).
Variables (offer : IndyOffer.t) (req : IndyCredRequest).
Variables (proposal : CredentialProposal.t) (preview : CredentialPreview.t).
Variables (a : IssuerRevRegRecord.t) (others : list IssuerRevRegRecord.t).
Variables (c : IndyCredential.t) (rid : string) (n : Z).
Hypothesis Hstate : state r = Some STATE_REQUEST_RECEIVED.
Hypothesis Hcred : credential r = None.
Hypothesis Hoffer : credential_offer r = Some offer.
Hypothesis Hreq : credential_request r = Some req.
Hypothesis Hprop : credential_proposal_dict r = Some proposal.
Hypothesis Hprev : CredentialProposal.credential_proposal proposal = Some preview.
Hypothesis Hrevocable :
  revocation (Profile.get_credential_definition P (credential_definition_id r))
  = true.
Hypothesis Hactive :
  IssuerRevRegRecord.query_by_cred_def_id (rev_reg_records w)
    (credential_definition_id r) (Some IssuerRevRegRecord.STATE_ACTIVE)
  = a :: others.
Hypothesis Hissued :
  Profile.create_credential P
    (log w ++ issue_ledger_reads r ++
     [EvFetchTails (IssuerRevRegRecord.revoc_reg_id a)])
    (issue_args P r offer req preview a)
  = Issued c (Some rid).
Hypothesis Hint : py_int rid = Some n.

Lemma issue_credential_fills_registry comment retries :
  n = IssuerRevRegRecord.max_cred_num a ->
  exists msg r' w' i,
    issue_credential P comment retries (r, w) = (Ok msg, (r', w')) /\
    log w' = log w ++ issue_ledger_reads r ++
      [EvFetchTails (IssuerRevRegRecord.revoc_reg_id a);
       EvIssuerCreateCredential (issue_args P r offer req preview a);
       EvRevRegSetState (IssuerRevRegRecord.revoc_reg_id a)
                        IssuerRevRegRecord.STATE_FULL;
       EvNotifyRevocationReg (credential_definition_id r)
                             (Some (IssuerRevRegRecord.max_cred_num a)) true;
       EvSave i "issue credential"] /\
    rev_reg_records w'
    = rev_reg_put (IssuerRevRegRecord.with_state IssuerRevRegRecord.STATE_FULL a)
                  (rev_reg_records w) /\
    state r' = Some STATE_ISSUED /\
    credential r' = Some c /\
    revocation_id r' = Some rid /\
    revoc_reg_id r' = Some (IssuerRevRegRecord.revoc_reg_id a) /\
    CredentialIssue.credentials_attach msg = [c].
Proof.
  intros Hfull.
  destruct retries; cbn [issue_credential];
  unfold issue_credential_finish, int_of_revocation_id, bind, this, attr,
    in_world, try_except, ret, raise, assign, save, save_record, new_uuid,
    ledger_get_schema, ledger_get_credential_definition, emit,
    get_active_issuer_rev_reg_record, query_rev_regs, rev_reg_set_state,
    issuer_create_credential, notify_revocation_reg_event;
  cbn_flow; rewrite bool_decide_eq_false_2 by (rewrite Hstate; auto);
  rewrite Hcred, Hoffer, Hreq; cbn_flow; rewrite Hrevocable; cbn_flow;
  rewrite Hactive; cbn_flow; rewrite Hprop; cbn_flow; rewrite Hprev; cbn_flow;
  unfold issue_ledger_reads, issue_args in Hissued; cbn [app] in Hissued;
  rewrite <- !app_assoc; cbn [app]; rewrite Hissued; cbn_flow;
  rewrite Hint; cbn_flow;
  rewrite bool_decide_eq_true_2 by (now subst n); cbn_flow;
  (destruct (credential_exchange_id r) as [i|] eqn:E; cbn_flow;
   eexists _, _, _, _; (split; [reflexivity|]); cbn_flow;
   unfold issue_ledger_reads, issue_args; rewrite ?E;
   rewrite <- ?app_assoc; cbn [app]; repeat split; reflexivity).
Qed.

Lemma issue_credential_leaves_registry comment retries :
  n ≠ IssuerRevRegRecord.max_cred_num a ->
  exists msg r' w' i,
    issue_credential P comment retries (r, w) = (Ok msg, (r', w')) /\
    log w' = log w ++ issue_ledger_reads r ++
      [EvFetchTails (IssuerRevRegRecord.revoc_reg_id a);
       EvIssuerCreateCredential (issue_args P r offer req preview a);
       EvSave i "issue credential"] /\
    rev_reg_records w' = rev_reg_records w /\
    state r' = Some STATE_ISSUED /\
    credential r' = Some c /\
    revocation_id r' = Some rid /\
    revoc_reg_id r' = Some (IssuerRevRegRecord.revoc_reg_id a) /\
    CredentialIssue.credentials_attach msg = [c].
Proof.
  intros Hbelow.
  destruct retries; cbn [issue_credential];
  unfold issue_credential_finish, int_of_revocation_id, bind, this, attr,
    in_world, try_except, ret, raise, assign, save, save_record, new_uuid,
    ledger_get_schema, ledger_get_credential_definition, emit,
    get_active_issuer_rev_reg_record, query_rev_regs, rev_reg_set_state,
    issuer_create_credential, notify_revocation_reg_event;
  cbn_flow; rewrite bool_decide_eq_false_2 by (rewrite Hstate; auto);
  rewrite Hcred, Hoffer, Hreq; cbn_flow; rewrite Hrevocable; cbn_flow;
  rewrite Hactive; cbn_flow; rewrite Hprop; cbn_flow; rewrite Hprev; cbn_flow;
  unfold issue_ledger_reads, issue_args in Hissued; cbn [app] in Hissued;
  rewrite <- !app_assoc; cbn [app]; rewrite Hissued; cbn_flow;
  rewrite Hint; cbn_flow;
  rewrite bool_decide_eq_false_2 by congruence; cbn_flow;
  (destruct (credential_exchange_id r) as [i|] eqn:E; cbn_flow;
   eexists _, _, _, _; (split; [reflexivity|]); cbn_flow;
   unfold issue_ledger_reads, issue_args; rewrite ?E;
   rewrite <- ?app_assoc; cbn [app]; repeat split; reflexivity).
Qed.
End ActiveRegistry.

(** C5: when [issue_credential] issues against the active registry record
    and the issuer returns a revocation id equal to the registry's
    [max_creds], the record of the registry is set to [FULL] (it is in the
    store in that state when the flow returns) and one notification is
    emitted, of the size of that registry, between the issuer's call and the
    save; with any other revocation id, one below capacity in particular,
    nothing is set and nothing is notified.  In both cases the flow returns
    with the record [ISSUED].  (A retry is a new run of [issue_credential];
    this is the run that issues.) *)
Theorem registry_full_on_last_slot (P : Profile.t) (r : V10CredentialExchange)
    (w : World) (offer : IndyOffer.t) (req : IndyCredRequest)
    (proposal : CredentialProposal.t) (preview : CredentialPreview.t)
    (a : IssuerRevRegRecord.t) (others : list IssuerRevRegRecord.t)
    (c : IndyCredential.t) (rid : string) (n : Z)
    (comment : option string) (retries : nat) :
  state r = Some STATE_REQUEST_RECEIVED ->
  credential r = None ->
  credential_offer r = Some offer ->
  credential_request r = Some req ->
  credential_proposal_dict r = Some proposal ->
  CredentialProposal.credential_proposal proposal = Some preview ->
  revocation (Profile.get_credential_definition P (credential_definition_id r))
  = true ->
  IssuerRevRegRecord.query_by_cred_def_id (rev_reg_records w)
    (credential_definition_id r) (Some IssuerRevRegRecord.STATE_ACTIVE)
  = a :: others ->
  Profile.create_credential P
    (log w ++ issue_ledger_reads r ++
     [EvFetchTails (IssuerRevRegRecord.revoc_reg_id a)])
    (issue_args P r offer req preview a)
  = Issued c (Some rid) ->
  py_int rid = Some n ->
  exists msg r' w' emitted,
    issue_credential P comment retries (r, w) = (Ok msg, (r', w')) /\
    state r' = Some STATE_ISSUED /\
    revocation_id r' = Some rid /\
    log w' = log w ++ emitted /\
    (n = max_creds (get_registry a) ->
     List.filter is_set_state emitted
     = [EvRevRegSetState (IssuerRevRegRecord.revoc_reg_id a)
                         IssuerRevRegRecord.STATE_FULL] /\
     List.filter is_notification emitted
     = [EvNotifyRevocationReg (credential_definition_id r)
          (Some (IssuerRevRegRecord.max_cred_num a)) true] /\
     (exists i,
        emitted = issue_ledger_reads r ++
          [EvFetchTails (IssuerRevRegRecord.revoc_reg_id a);
           EvIssuerCreateCredential (issue_args P r offer req preview a);
           EvRevRegSetState (IssuerRevRegRecord.revoc_reg_id a)
                            IssuerRevRegRecord.STATE_FULL;
           EvNotifyRevocationReg (credential_definition_id r)
             (Some (IssuerRevRegRecord.max_cred_num a)) true;
           EvSave i "issue credential"]) /\
     In (IssuerRevRegRecord.with_state IssuerRevRegRecord.STATE_FULL a)
        (rev_reg_records w')) /\
    (n ≠ max_creds (get_registry a) ->
     List.filter is_set_state emitted = [] /\
     List.filter is_notification emitted = [] /\
     rev_reg_records w' = rev_reg_records w).
Proof.
  intros Hstate Hcred Hoffer Hreq Hprop Hprev Hrev Hactive Hissued Hint.
  change (max_creds (get_registry a)) with (IssuerRevRegRecord.max_cred_num a).
  destruct (decide (n = IssuerRevRegRecord.max_cred_num a)) as [Hfull|Hbelow].
  - destruct (issue_credential_fills_registry P r w offer req proposal preview
                a others c rid n Hstate Hcred Hoffer Hreq Hprop Hprev Hrev
                Hactive Hissued Hint comment retries Hfull)
      as (msg & r' & w' & i & Hrun & Hlog & Hregs & Hst & _ & Hrid & _).
    eexists msg, r', w', _. split; [exact Hrun|].
    split; [exact Hst|]. split; [exact Hrid|]. split; [exact Hlog|].
    split; [|intros; contradiction].
    intros _. split; [reflexivity|]. split; [reflexivity|].
    split; [exists i; reflexivity|]. rewrite Hregs. apply rev_reg_put_In.
  - destruct (issue_credential_leaves_registry P r w offer req proposal preview
                a others c rid n Hstate Hcred Hoffer Hreq Hprop Hprev Hrev
                Hactive Hissued Hint comment retries Hbelow)
      as (msg & r' & w' & i & Hrun & Hlog & Hregs & Hst & _ & Hrid & _).
    eexists msg, r', w', _. split; [exact Hrun|].
    split; [exact Hst|]. split; [exact Hrid|]. split; [exact Hlog|].
    split; [intros; contradiction|].
    intros _. split; [reflexivity|]. split; [reflexivity | exact Hregs].
Qed.


Lemma no_active_registry_retries_witness :
  let r := demo_issuer_record in
  let w := demo_registry_world
             [demo_rev_reg "R-1" IssuerRevRegRecord.STATE_FULL 10 100;
              demo_rev_reg "R-2" IssuerRevRegRecord.STATE_FULL 20 200] [r] in
  exists size notifications,
    notifications
    = [EvNotifyRevocationReg (Some "X:3:CL:42:tag") size true;
       EvNotifyRevocationReg (Some "X:3:CL:42:tag") size true] /\
    issue_credential demo_profile None 0 (r, w)
    = (Raise (CredentialManagerError
                (NoActiveRevocationRegistry (Some "X:3:CL:42:tag"))),
       (r, add_log (issue_ledger_reads r ++ notifications) w)) /\
    state (fst (snd (issue_credential demo_profile None 0 (r, w))))
    = Some STATE_REQUEST_RECEIVED.
Proof.
  intros r w.
  destruct (no_active_registry_retries demo_profile r w
              (demo_offer "X:3:CL:42:tag") "request" None
              eq_refl eq_refl eq_refl eq_refl eq_refl eq_refl)
    as (size & notifications & _ & Hposted & _ & Hrun & Hstate & _).
  exists size, notifications. split; [|split; assumption].
  apply Hposted. reflexivity.
Defined.

(** Two full registries exist, of 10 and of 20 credentials; the one of 20 is
    the later one, and its size is asked for, twice. *)
Example issue_credential_asks_for_registries :
  let r := demo_issuer_record in
  let w := demo_registry_world
             [demo_rev_reg "R-1" IssuerRevRegRecord.STATE_FULL 10 100;
              demo_rev_reg "R-2" IssuerRevRegRecord.STATE_FULL 20 200] [r] in
  List.filter is_notification (log (snd (snd (issue_credential demo_profile None 0 (r, w)))))
  = [EvNotifyRevocationReg (Some "X:3:CL:42:tag") (Some 20) true;
     EvNotifyRevocationReg (Some "X:3:CL:42:tag") (Some 20) true].
Proof. vm_compute. reflexivity. Qed.

(** No registry ever appears: with the default five retries the flow asks
    six times, sleeps five times and gives up. *)
Example issue_credential_gives_up :
  let r := demo_issuer_record in
  let out := issue_credential demo_profile None 5 (r, demo_world [r]) in
  fst out = Raise (CredentialManagerError
                     (NoActiveRevocationRegistry (Some "X:3:CL:42:tag"))) /\
  length (List.filter is_notification (log (snd (snd out)))) = 12%nat /\
  List.filter (fun e => match e with EvSleep _ => true | _ => false end)
              (log (snd (snd out)))
  = [EvSleep 2; EvSleep 2; EvSleep 2; EvSleep 2; EvSleep 2] /\
  state (fst (snd out)) = Some STATE_REQUEST_RECEIVED.
Proof. vm_compute. repeat split. Qed.

Lemma registry_full_on_last_slot_witness :
  let r := demo_issuer_record in
  let a := demo_rev_reg "R-1" IssuerRevRegRecord.STATE_ACTIVE 10 100 in
  let w := demo_registry_world [a] [r] in
  exists msg r' w' emitted,
    issue_credential demo_profile None 5 (r, w) = (Ok msg, (r', w')) /\
    state r' = Some STATE_ISSUED /\
    log w' = log w ++ emitted /\
    List.filter is_set_state emitted
    = [EvRevRegSetState "R-1" IssuerRevRegRecord.STATE_FULL] /\
    List.filter is_notification emitted
    = [EvNotifyRevocationReg (Some "X:3:CL:42:tag") (Some 10) true] /\
    In (demo_rev_reg "R-1" IssuerRevRegRecord.STATE_FULL 10 100)
       (rev_reg_records w').
Proof.
  intros r a w.
  destruct (registry_full_on_last_slot demo_profile r w
              (demo_offer "X:3:CL:42:tag") "request"
              (demo_proposal None ["name"; "date"; "id"])
              (demo_preview ["name"; "date"; "id"]) a []
              (demo_credential (Some "R-1")) "10" 10 None 5
              eq_refl eq_refl eq_refl eq_refl eq_refl eq_refl eq_refl
              eq_refl eq_refl eq_refl)
    as (msg & r' & w' & emitted & Hrun & Hst & _ & Hlog & Hfull & _).
  destruct (Hfull eq_refl) as (Hset & Hnot & _ & Hin).
  exists msg, r', w', emitted. repeat split; assumption.
Defined.

(** Registry ["R-1"] holds 10 credentials; the issuer hands out slot 10. *)
Example issue_credential_last_slot :
  let r := demo_issuer_record in
  let w := demo_registry_world
             [demo_rev_reg "R-1" IssuerRevRegRecord.STATE_ACTIVE 10 100] [r] in
  let out := issue_credential demo_profile None 5 (r, w) in
  rev_reg_records (snd (snd out))
  = [demo_rev_reg "R-1" IssuerRevRegRecord.STATE_FULL 10 100] /\
  state (fst (snd out)) = Some STATE_ISSUED /\
  revocation_id (fst (snd out)) = Some "10".
Proof. vm_compute. repeat split. Qed.

(** * Further properties of the flows *)

(** ** Inbound messages that are turned away *)

(** X1: [receive_request] and [receive_credential] assert that the message
    has one attachment; with none or with several they raise
    [AssertionError] before anything is looked up, and the world is as it
    was. *)
Theorem attachment_count_is_asserted (P : Profile.t) (conn_id : option string)
    (w : World) :
  (forall message,
     length (CredentialRequest.requests_attach message) ≠ 1%nat ->
     receive_request P message conn_id w = (Raise AssertionError, w)) /\
  (forall message,
     length (CredentialIssue.credentials_attach message) ≠ 1%nat ->
     receive_credential P message conn_id w = (Raise AssertionError, w)).
Proof.
  split; intros message H.
  - unfold receive_request.
    destruct (Nat.eqb_spec (length (CredentialRequest.requests_attach message)) 1);
      [contradiction | reflexivity].
  - unfold receive_credential.
    destruct (Nat.eqb_spec (length (CredentialIssue.credentials_attach message)) 1);
      [contradiction | reflexivity].
Qed.

Lemma attachment_count_is_asserted_witness :
  let two := {| CredentialIssue._message_id := "m";
                CredentialIssue._thread := Some "t1";
                CredentialIssue._trace := false;
                CredentialIssue.comment := None;
                CredentialIssue.credentials_attach :=
                  [demo_credential None; demo_credential None] |} in
  let w := demo_world [demo_record (Some STATE_REQUEST_SENT)] in
  receive_credential demo_profile two (Some "c1") w = (Raise AssertionError, w).
Proof.
  intros two w.
  apply (attachment_count_is_asserted demo_profile (Some "c1") w).
  cbn. lia.
Defined.

(** X2: [receive_credential], [receive_credential_ack] and
    [receive_problem_report] have no fallback for a thread they do not know:
    when no record is stored under (connection, thread) the storage's
    not-found error comes out of the flow and nothing is written. *)
Theorem unknown_thread_is_not_found (P : Profile.t) (conn_id : option string)
    (w : World) :
  let known thid :=
    List.find (fun r => bool_decide (thread_id r = Some thid) &&
                        bool_decide (connection_id r = conn_id))
              (exchange_records w) in
  (forall message cred,
     CredentialIssue.credentials_attach message = [cred] ->
     known (CredentialIssue._thread_id message) = None ->
     receive_credential P message conn_id w = (Raise StorageNotFoundError, w)) /\
  (forall message,
     known (CredentialAck._thread_id message) = None ->
     receive_credential_ack P message conn_id w
     = (Raise StorageNotFoundError, w)) /\
  (forall message,
     known (CredentialProblemReport._thread_id message) = None ->
     receive_problem_report P message conn_id w
     = (Raise StorageNotFoundError, w)).
Proof.
  intros known. subst known. cbv beta. split; [|split].
  - intros message cred Hatt Hmiss.
    unfold receive_credential, CredentialIssue.indy_credential, bind,
      retrieve_by_connection_and_thread, retrieve_by_tag_filter.
    rewrite Hatt. cbn. now rewrite Hmiss.
  - intros message Hmiss.
    unfold receive_credential_ack, bind,
      retrieve_by_connection_and_thread, retrieve_by_tag_filter.
    now rewrite Hmiss.
  - intros message Hmiss.
    unfold receive_problem_report, bind,
      retrieve_by_connection_and_thread, retrieve_by_tag_filter.
    now rewrite Hmiss.
Qed.

Lemma unknown_thread_is_not_found_witness :
  receive_problem_report demo_profile demo_problem_report (Some "c1")
    (demo_world [])
  = (Raise StorageNotFoundError, demo_world []).
Proof.
  apply (unknown_thread_is_not_found demo_profile (Some "c1") (demo_world [])).
  reflexivity.
Defined.

(** ** Receiving an offer *)

Lemma receive_offer_new P message conn_id w offer rest :
  CredentialOffer.offers_attach message = offer :: rest ->
  List.find (fun r => bool_decide
                        (thread_id r = Some (CredentialOffer._thread_id message))
                      && bool_decide (connection_id r = conn_id))
            (exchange_records w) = None ->
  exists r' w' i p,
    receive_offer P message conn_id w = (Ok r', w') /\
    credential_exchange_id r' = Some i /\
    connection_id r' = conn_id /\
    thread_id r' = Some (CredentialOffer._thread_id message) /\
    initiator r' = Some INITIATOR_EXTERNAL /\
    role r' = Some ROLE_HOLDER /\
    state r' = Some STATE_OFFER_RECEIVED /\
    credential_offer r' = Some offer /\
    schema_id r' = Some (IndyOffer.schema_id offer) /\
    credential_definition_id r' = Some (IndyOffer.cred_def_id offer) /\
    credential_request r' = None /\
    auto_remove r' = Some (default_auto_remove P) /\
    trace r' = CredentialOffer._trace message /\
    credential_proposal_dict r' = Some p /\
    CredentialProposal.comment p = CredentialOffer.comment message /\
    CredentialProposal.credential_proposal p
    = CredentialOffer.credential_preview message /\
    CredentialProposal.schema_id p = Some (IndyOffer.schema_id offer) /\
    CredentialProposal.cred_def_id p = Some (IndyOffer.cred_def_id offer) /\
    In r' (exchange_records w') /\
    log w' = log w ++ [EvSave i "receive credential offer"].
Proof.
  intros Hatt Hmiss.
  unfold receive_offer, CredentialOffer.indy_offer. rewrite Hatt. cbn [lookup list_lookup].
  unfold bind, try_except, new_uuid, ret, on_not_found,
    retrieve_by_connection_and_thread, retrieve_by_tag_filter, save_record.
  cbn. rewrite Hmiss. cbn.
  eexists _, _, _, _. split; [reflexivity|]. cbn.
  repeat split; auto using store_put_In.
Qed.

Lemma receive_offer_existing P message conn_id w offer rest r0 :
  CredentialOffer.offers_attach message = offer :: rest ->
  List.find (fun r => bool_decide
                        (thread_id r = Some (CredentialOffer._thread_id message))
                      && bool_decide (connection_id r = conn_id))
            (exchange_records w) = Some r0 ->
  exists r' w' i p,
    receive_offer P message conn_id w = (Ok r', w') /\
    credential_exchange_id r' = Some i /\
    (credential_exchange_id r0 ≠ None ->
     credential_exchange_id r' = credential_exchange_id r0) /\
    connection_id r' = connection_id r0 /\
    thread_id r' = thread_id r0 /\
    initiator r' = initiator r0 /\
    role r' = role r0 /\
    auto_remove r' = auto_remove r0 /\
    credential_request r' = credential_request r0 /\
    credential_request_metadata r' = credential_request_metadata r0 /\
    credential r' = credential r0 /\
    state r' = Some STATE_OFFER_RECEIVED /\
    credential_offer r' = Some offer /\
    schema_id r' = Some (IndyOffer.schema_id offer) /\
    credential_definition_id r' = Some (IndyOffer.cred_def_id offer) /\
    credential_proposal_dict r' = Some p /\
    CredentialProposal.credential_proposal p
    = CredentialOffer.credential_preview message /\
    CredentialProposal.cred_def_id p = Some (IndyOffer.cred_def_id offer) /\
    In r' (exchange_records w') /\
    log w' = log w ++ [EvSave i "receive credential offer"].
Proof.
  intros Hatt Hfound.
  unfold receive_offer, CredentialOffer.indy_offer. rewrite Hatt. cbn [lookup list_lookup].
  unfold bind, try_except, new_uuid, ret, on_not_found,
    retrieve_by_connection_and_thread, retrieve_by_tag_filter, save_record.
  cbn. rewrite Hfound. cbn.
  destruct (credential_exchange_id r0) as [i|] eqn:E; cbn;
    eexists _, _, _, _; (split; [reflexivity|]); cbn;
    repeat split; auto using store_put_In; congruence.
Qed.

(** X3: an offer on a thread without a record opens one: the holder's
    record of that connection and thread, started by the other side, in
    [OFFER_RECEIVED], with the attached offer, its schema and credential
    definition, and a proposal made from the offer.  An offer on a thread
    with a record rewrites that record whatever its state: the offer, the
    schema, the credential definition and the proposal are replaced, the
    state becomes [OFFER_RECEIVED], and identity, role, flags and any
    request or credential the record carries stay. *)
Theorem receive_offer_opens_or_rewrites (P : Profile.t)
    (message : CredentialOffer.t) (conn_id : option string) (w : World)
    (offer : IndyOffer.t) (rest : list IndyOffer.t) :
  CredentialOffer.offers_attach message = offer :: rest ->
  let stored :=
    List.find (fun r => bool_decide
                          (thread_id r
                           = Some (CredentialOffer._thread_id message))
                        && bool_decide (connection_id r = conn_id))
              (exchange_records w) in
  exists r' w' i p,
    receive_offer P message conn_id w = (Ok r', w') /\
    log w' = log w ++ [EvSave i "receive credential offer"] /\
    In r' (exchange_records w') /\
    credential_exchange_id r' = Some i /\
    state r' = Some STATE_OFFER_RECEIVED /\
    credential_offer r' = Some offer /\
    schema_id r' = Some (IndyOffer.schema_id offer) /\
    credential_definition_id r' = Some (IndyOffer.cred_def_id offer) /\
    credential_proposal_dict r' = Some p /\
    CredentialProposal.credential_proposal p
    = CredentialOffer.credential_preview message /\
    CredentialProposal.cred_def_id p = Some (IndyOffer.cred_def_id offer) /\
    (stored = None ->
     connection_id r' = conn_id /\
     thread_id r' = Some (CredentialOffer._thread_id message) /\
     initiator r' = Some INITIATOR_EXTERNAL /\
     role r' = Some ROLE_HOLDER /\
     credential_request r' = None /\
     auto_remove r' = Some (default_auto_remove P) /\
     trace r' = CredentialOffer._trace message) /\
    (forall r0, stored = Some r0 ->
     (credential_exchange_id r0 ≠ None ->
      credential_exchange_id r' = credential_exchange_id r0) /\
     connection_id r' = connection_id r0 /\
     thread_id r' = thread_id r0 /\
     initiator r' = initiator r0 /\
     role r' = role r0 /\
     auto_remove r' = auto_remove r0 /\
     credential_request r' = credential_request r0 /\
     credential_request_metadata r' = credential_request_metadata r0 /\
     credential r' = credential r0).
Proof.
  intros Hatt stored. destruct stored as [r0|] eqn:Hs; subst stored.
  - destruct (receive_offer_existing P message conn_id w offer rest r0 Hatt Hs)
      as (r' & w' & i & p & H).
    exists r', w', i, p. intuition (try discriminate).
    all: match goal with H : Some _ = Some _ |- _ => injection H as <- end;
      auto.
  - destruct (receive_offer_new P message conn_id w offer rest Hatt Hs)
      as (r' & w' & i & p & H).
    exists r', w', i, p. intuition (try discriminate).
Qed.

Lemma receive_offer_opens_or_rewrites_witness :
  exists r' w',
    receive_offer demo_profile (demo_offer_message "X:3:CL:42:tag")
      (Some "c1") (demo_world []) = (Ok r', w') /\
    state r' = Some STATE_OFFER_RECEIVED /\
    role r' = Some ROLE_HOLDER /\
    thread_id r' = Some "t1" /\
    credential_definition_id r' = Some "X:3:CL:42:tag".
Proof.
  destruct (receive_offer_opens_or_rewrites demo_profile
              (demo_offer_message "X:3:CL:42:tag") (Some "c1") (demo_world [])
              (demo_offer "X:3:CL:42:tag") [] eq_refl)
    as (r' & w' & i & p & Hrun & _ & _ & _ & Hst & _ & _ & Hcd & _ & _ & _
        & Hnew & _).
  destruct (Hnew eq_refl) as (_ & Hth & _ & Hrole & _).
  exists r', w'. auto.
Defined.

(** X4: a record that already carries a request keeps it when a new offer
    arrives on its thread, and [create_request] after that offer sends the
    request the record carries: the holder is not asked for a request on the
    new offer. *)
Theorem request_survives_a_new_offer (P : Profile.t)
    (message : CredentialOffer.t) (conn_id : option string) (w : World)
    (offer : IndyOffer.t) (rest : list IndyOffer.t)
    (r0 : V10CredentialExchange) (req : IndyCredRequest)
    (holder_did : string) :
  CredentialOffer.offers_attach message = offer :: rest ->
  List.find (fun r => bool_decide
                        (thread_id r
                         = Some (CredentialOffer._thread_id message))
                      && bool_decide (connection_id r = conn_id))
            (exchange_records w) = Some r0 ->
  credential_request r0 = Some req ->
  exists r1 w1 msg r2 w2 i,
    receive_offer P message conn_id w = (Ok r1, w1) /\
    credential_offer r1 = Some offer /\
    create_request P holder_did (r1, w1) = (Ok msg, (r2, w2)) /\
    CredentialRequest.requests_attach msg = [req] /\
    state r2 = Some STATE_REQUEST_SENT /\
    log w2 = log w1 ++
      [EvLog WARNING
         "create_request called multiple times for v1.0 credential exchange: %s"
         [py_str (credential_exchange_id r1)];
       EvSave i "create credential request"].
Proof.
  intros Hatt Hs Hreq.
  destruct (receive_offer_existing P message conn_id w offer rest r0 Hatt Hs)
    as (r1 & w1 & i1 & p & Hrun & _ & _ & _ & _ & _ & _ & _ & Hr & _ & _ & Hst
        & Hoff & _).
  destruct (create_request_reentry P holder_did r1 w1 offer req Hst Hoff)
    as (msg & r2 & w2 & i & Hrun2 & Hm & _ & Hst2 & _ & Hlog & _);
    [congruence|].
  exists r1, w1, msg, r2, w2, i. repeat split; assumption.
Qed.

Lemma request_survives_a_new_offer_witness :
  let r0 := set_credential_request (Some "old request")
              (demo_record (Some STATE_REQUEST_SENT)) in
  exists r1 w1 msg r2 w2,
    receive_offer demo_profile (demo_offer_message "X:3:CL:42:tag")
      (Some "c1") (demo_world [r0]) = (Ok r1, w1) /\
    create_request demo_profile "did:ex:h" (r1, w1) = (Ok msg, (r2, w2)) /\
    CredentialRequest.requests_attach msg = ["old request"] /\
    List.filter is_crypto_call (log w2) = [].
Proof.
  intros r0.
  destruct (request_survives_a_new_offer demo_profile
              (demo_offer_message "X:3:CL:42:tag") (Some "c1")
              (demo_world [r0]) (demo_offer "X:3:CL:42:tag") [] r0
              "old request" "did:ex:h" eq_refl eq_refl eq_refl)
    as (r1 & w1 & msg & r2 & w2 & i & H1 & _ & H2 & H3 & _ & Hlog).
  exists r1, w1, msg, r2, w2. repeat split; try assumption.
  rewrite Hlog.
  assert (Hw1 : log w1 = [EvSave "x1" "receive credential offer"])
    by (vm_compute in H1; now injection H1 as _ <-).
  rewrite Hw1. reflexivity.
Defined.

(** ** Making a request *)

Section CreateRequestFresh.
Variable P : Profile.t.
Variables (r : V10CredentialExchange) (w : World).
Variables (offer : IndyOffer.t) (holder_did : string).
Hypothesis Hstate : state r = Some STATE_OFFER_RECEIVED.
Hypothesis Hoffer : credential_offer r = Some offer.
Hypothesis Hfresh : credential_request r = None.

Lemma create_request_generates :
  let cdid := credential_definition_id r in
  let made :=
    Profile.create_credential_request P
      (log w ++ [EvLedger "get_credential_definition" cdid]) offer
      (Profile.get_credential_definition P cdid) holder_did in
  let key := "credential_request::" +:+ py_str cdid +:+ "::" +:+ holder_did
               +:+ "::" +:+ IndyOffer.nonce offer in
  (cache w = None \/
   exists entries, cache w = Some entries /\ entries !! key = None) ->
  exists msg r' w' i,
    create_request P holder_did (r, w) = (Ok msg, (r', w')) /\
    credential_request r' = Some (fst made) /\
    credential_request_metadata r' = Some (snd made) /\
    CredentialRequest.requests_attach msg = [fst made] /\
    CredentialRequest._thread msg = thread_id r /\
    state r' = Some STATE_REQUEST_SENT /\
    In r' (exchange_records w') /\
    List.filter is_crypto_call (log w')
    = List.filter is_crypto_call (log w)
      ++ [EvHolderCreateCredentialRequest cdid holder_did] /\
    (cache w = None ->
     cache w' = None /\
     log w' = log w ++
       [EvLedger "get_credential_definition" cdid;
        EvHolderCreateCredentialRequest cdid holder_did;
        EvSave i "create credential request"]) /\
    (forall entries, cache w = Some entries ->
     cache w' = Some (<[key := CachedRequest (fst made) (snd made)]> entries) /\
     log w' = log w ++
       [EvLedger "get_credential_definition" cdid;
        EvHolderCreateCredentialRequest cdid holder_did;
        EvCacheSetResult key 3600;
        EvSave i "create credential request"]).
Proof.
  intros cdid made key Hcache.
  unfold create_request, obtain_credential_request, bind, this, assign,
    in_world, attr, ret, save, save_record, new_uuid, emit,
    ledger_get_credential_definition, holder_create_credential_request.
  cbn. rewrite bool_decide_eq_false_2 by (rewrite Hstate; auto).
  rewrite Hoffer, Hfresh. cbn.
  fold cdid. fold key.
  destruct Hcache as [Hnone | (entries & Hsome & Hmiss)].
  - rewrite Hnone. cbn. fold cdid. fold made.
    destruct (credential_exchange_id r) as [i|] eqn:E; cbn;
      eexists _, _, _, _; (split; [reflexivity|]); cbn;
      rewrite <- ?app_assoc; cbn [app]; rewrite ?List.filter_app; cbn;
      repeat split; auto using store_put_In; congruence.
  - rewrite Hsome. cbn. fold key. rewrite Hmiss. cbn. fold cdid. fold made.
    destruct (credential_exchange_id r) as [i|] eqn:E; cbn;
      eexists _, _, _, _; (split; [reflexivity|]); cbn;
      rewrite <- ?app_assoc; cbn [app]; rewrite ?List.filter_app; cbn;
      repeat split; auto using store_put_In; congruence.
Qed.

Lemma create_request_from_cache entries req meta :
  let cdid := credential_definition_id r in
  let key := "credential_request::" +:+ py_str cdid +:+ "::" +:+ holder_did
               +:+ "::" +:+ IndyOffer.nonce offer in
  cache w = Some entries ->
  entries !! key = Some (CachedRequest req meta) ->
  exists msg r' w' i,
    create_request P holder_did (r, w) = (Ok msg, (r', w')) /\
    credential_request r' = Some req /\
    credential_request_metadata r' = Some meta /\
    CredentialRequest.requests_attach msg = [req] /\
    state r' = Some STATE_REQUEST_SENT /\
    cache w' = cache w /\
    log w' = log w ++ [EvSave i "create credential request"].
Proof.
  intros cdid key Hsome Hhit.
  unfold create_request, obtain_credential_request, bind, this, assign,
    in_world, attr, ret, save, save_record, new_uuid, emit,
    ledger_get_credential_definition, holder_create_credential_request.
  cbn. rewrite bool_decide_eq_false_2 by (rewrite Hstate; auto).
  rewrite Hoffer, Hfresh. cbn. fold cdid. fold key.
  rewrite Hsome. cbn. fold key. rewrite Hhit. cbn.
  destruct (credential_exchange_id r) as [i|] eqn:E; cbn;
    eexists _, _, _, _; (split; [reflexivity|]); cbn;
    repeat split; auto using store_put_In.
Qed.
End CreateRequestFresh.

(** X5: on a record in [OFFER_RECEIVED] that carries its offer and no
    request, and with no cached request for it, [create_request] reads the
    credential definition from the ledger, asks the holder once for a request
    on the record's offer, puts the request and its metadata on the record,
    sends that request on the record's thread and moves the record to
    [REQUEST_SENT].  With a cache configured the pair is stored under
    [credential_request::<cred def>::<holder did>::<nonce>] for 3600 s. *)
Theorem create_request_asks_the_holder_once (P : Profile.t)
    (r : V10CredentialExchange) (w : World) (offer : IndyOffer.t)
    (holder_did : string) :
  state r = Some STATE_OFFER_RECEIVED ->
  credential_offer r = Some offer ->
  credential_request r = None ->
  let cdid := credential_definition_id r in
  let made :=
    Profile.create_credential_request P
      (log w ++ [EvLedger "get_credential_definition" cdid]) offer
      (Profile.get_credential_definition P cdid) holder_did in
  let key := "credential_request::" +:+ py_str cdid +:+ "::" +:+ holder_did
               +:+ "::" +:+ IndyOffer.nonce offer in
  (cache w = None \/
   exists entries, cache w = Some entries /\ entries !! key = None) ->
  exists msg r' w' i,
    create_request P holder_did (r, w) = (Ok msg, (r', w')) /\
    credential_request r' = Some (fst made) /\
    credential_request_metadata r' = Some (snd made) /\
    CredentialRequest.requests_attach msg = [fst made] /\
    CredentialRequest._thread msg = thread_id r /\
    state r' = Some STATE_REQUEST_SENT /\
    In r' (exchange_records w') /\
    List.filter is_crypto_call (log w')
    = List.filter is_crypto_call (log w)
      ++ [EvHolderCreateCredentialRequest cdid holder_did] /\
    (cache w = None ->
     cache w' = None /\
     log w' = log w ++
       [EvLedger "get_credential_definition" cdid;
        EvHolderCreateCredentialRequest cdid holder_did;
        EvSave i "create credential request"]) /\
    (forall entries, cache w = Some entries ->
     cache w' = Some (<[key := CachedRequest (fst made) (snd made)]> entries) /\
     log w' = log w ++
       [EvLedger "get_credential_definition" cdid;
        EvHolderCreateCredentialRequest cdid holder_did;
        EvCacheSetResult key 3600;
        EvSave i "create credential request"]).
Proof.
  intros Hstate Hoffer Hfresh.
  exact (create_request_generates P r w offer holder_did Hstate Hoffer Hfresh).
Qed.

Lemma create_request_asks_the_holder_once_witness :
  exists msg r' w',
    create_request demo_profile "did:ex:h"
      (demo_holder_record, demo_world [demo_holder_record])
    = (Ok msg, (r', w')) /\
    credential_request r' = Some "request" /\
    credential_request_metadata r' = Some "metadata" /\
    CredentialRequest.requests_attach msg = ["request"] /\
    List.filter is_crypto_call (log w')
    = [EvHolderCreateCredentialRequest (Some "X:3:CL:42:tag") "did:ex:h"].
Proof.
  destruct (create_request_asks_the_holder_once demo_profile demo_holder_record
              (demo_world [demo_holder_record]) (demo_offer "X:3:CL:42:tag")
              "did:ex:h" eq_refl eq_refl eq_refl (or_introl eq_refl))
    as (msg & r' & w' & i & Hrun & Hreq & Hmeta & Hatt & _ & _ & _ & Hcalls & _).
  exists msg, r', w'. repeat split; assumption.
Defined.

(** X6: with a cache configured, once [create_request] has made a request for
    a credential definition, holder DID and offer nonce, [create_request] on
    another record with that credential definition and nonce takes the cached
    pair: neither the ledger nor the holder is called, and the second record
    gets the request and the metadata of the first. *)
Theorem create_request_is_deduplicated (P : Profile.t)
    (r1 r2 : V10CredentialExchange) (w : World) (offer1 offer2 : IndyOffer.t)
    (holder_did : string) (entries : gmap string CacheValue) :
  state r1 = Some STATE_OFFER_RECEIVED ->
  credential_offer r1 = Some offer1 ->
  credential_request r1 = None ->
  state r2 = Some STATE_OFFER_RECEIVED ->
  credential_offer r2 = Some offer2 ->
  credential_request r2 = None ->
  credential_definition_id r2 = credential_definition_id r1 ->
  IndyOffer.nonce offer2 = IndyOffer.nonce offer1 ->
  cache w = Some entries ->
  entries !! ("credential_request::" +:+ py_str (credential_definition_id r1)
              +:+ "::" +:+ holder_did +:+ "::" +:+ IndyOffer.nonce offer1)
  = None ->
  exists msg1 r1' w1 msg2 r2' w2 i,
    create_request P holder_did (r1, w) = (Ok msg1, (r1', w1)) /\
    create_request P holder_did (r2, w1) = (Ok msg2, (r2', w2)) /\
    credential_request r2' = credential_request r1' /\
    credential_request_metadata r2' = credential_request_metadata r1' /\
    CredentialRequest.requests_attach msg2
    = CredentialRequest.requests_attach msg1 /\
    log w2 = log w1 ++ [EvSave i "create credential request"].
Proof.
  intros Hs1 Ho1 Hf1 Hs2 Ho2 Hf2 Hcd Hn Hcache Hmiss.
  destruct (create_request_generates P r1 w offer1 holder_did Hs1 Ho1 Hf1
              (or_intror (ex_intro _ entries (conj Hcache Hmiss))))
    as (msg1 & r1' & w1 & i1 & Hrun1 & Hreq1 & Hmeta1 & Hatt1 & _ & _ & _ & _
        & _ & Hc).
  destruct (Hc entries Hcache) as [Hcache1 _].
  edestruct (create_request_from_cache P r2 w1 offer2 holder_did Hs2 Ho2 Hf2)
    as (msg2 & r2' & w2 & i & Hrun2 & Hreq2 & Hmeta2 & Hatt2 & _ & _ & Hlog);
    [exact Hcache1 | rewrite Hcd, Hn; apply lookup_insert_eq |].
  exists msg1, r1', w1, msg2, r2', w2, i.
  repeat split; try assumption; congruence.
Qed.

Lemma create_request_is_deduplicated_witness :
  let r1 := demo_holder_record in
  let r2 := set_thread_id (Some "t2")
              (set_credential_exchange_id (Some "x2") demo_holder_record) in
  let w := set_cache (Some ∅) (demo_world [r1; r2]) in
  exists msg1 r1' w1 msg2 r2' w2 i,
    create_request demo_profile "did:ex:h" (r1, w) = (Ok msg1, (r1', w1)) /\
    create_request demo_profile "did:ex:h" (r2, w1) = (Ok msg2, (r2', w2)) /\
    credential_request r2' = credential_request r1' /\
    credential_request_metadata r2' = credential_request_metadata r1' /\
    CredentialRequest.requests_attach msg2
    = CredentialRequest.requests_attach msg1 /\
    log w2 = log w1 ++ [EvSave i "create credential request"].
Proof.
  intros r1 r2 w.
  apply (create_request_is_deduplicated demo_profile r1 r2 w
           (demo_offer "X:3:CL:42:tag") (demo_offer "X:3:CL:42:tag")
           "did:ex:h" ∅); reflexivity.
Defined.

(** ** Making an offer *)

Lemma create_offer_coherent P counter_proposal comment r w :
  post (create_offer P counter_proposal comment) (r, w)
    (fun x s' =>
       forall msg, x = Ok msg ->
         exists m offer,
           offer_proposal counter_proposal r = Some m /\
           credential_proposal_dict (fst s')
           = Some (CredentialProposal.assign_trace_decorator (trace r) m) /\
           credential_offer_dict (fst s') = Some msg /\
           thread_id (fst s') = Some (CredentialOffer._thread_id msg) /\
           (truthy (thread_id r) = true -> thread_id (fst s') = thread_id r) /\
           (truthy (thread_id r) = false ->
            thread_id (fst s') = Some (CredentialOffer._message_id msg)) /\
           CredentialOffer.offers_attach msg = [offer] /\
           credential_offer (fst s') = Some offer /\
           schema_id (fst s') = Some (IndyOffer.schema_id offer) /\
           CredentialOffer.comment msg = comment /\
           CredentialOffer.credential_preview msg
           = CredentialProposal.credential_proposal m).
Proof.
  unfold create_offer. fold (offer_proposal counter_proposal r).
  repeat wp_step; cbn; intros; simplify_eq.
  all: eexists _, _; (split; [eassumption|]); cbn;
    unfold CredentialOffer._thread_id; cbn;
    destruct (truthy (thread_id r)) eqn:Ht; cbn;
    repeat split; try reflexivity; try discriminate;
    intros _; destruct (thread_id r); cbn in *; congruence.
Qed.

(** X7: when [create_offer] returns, the record and the message agree: the
    record's thread is the thread of the offer message (the record's own
    thread when it had one, the id of the message otherwise), the record
    carries the attached offer, its schema, the message itself and the
    proposal the offer was made from, which is the counter-proposal when one
    was given. *)
Theorem create_offer_threads_the_record (P : Profile.t)
    (counter_proposal : option CredentialProposal.t) (comment : option string)
    (r : V10CredentialExchange) (w : World) (msg : CredentialOffer.t)
    (r' : V10CredentialExchange) (w' : World) :
  create_offer P counter_proposal comment (r, w) = (Ok msg, (r', w')) ->
  exists m offer,
    offer_proposal counter_proposal r = Some m /\
    (forall c, counter_proposal = Some c -> m = c) /\
    credential_proposal_dict r'
    = Some (CredentialProposal.assign_trace_decorator (trace r) m) /\
    credential_offer_dict r' = Some msg /\
    thread_id r' = Some (CredentialOffer._thread_id msg) /\
    (truthy (thread_id r) = true -> thread_id r' = thread_id r) /\
    (truthy (thread_id r) = false ->
     thread_id r' = Some (CredentialOffer._message_id msg)) /\
    CredentialOffer.offers_attach msg = [offer] /\
    credential_offer r' = Some offer /\
    schema_id r' = Some (IndyOffer.schema_id offer) /\
    CredentialOffer.comment msg = comment /\
    CredentialOffer.credential_preview msg
    = CredentialProposal.credential_proposal m.
Proof.
  intros Hrun.
  pose proof (create_offer_coherent P counter_proposal comment r w) as Hp.
  unfold post in Hp. rewrite Hrun in Hp. cbn in Hp.
  destruct (Hp msg eq_refl) as (m & offer & Hm & H).
  exists m, offer. split; [exact Hm|]. split; [|exact H].
  intros c ->. cbn in Hm. congruence.
Qed.

Lemma create_offer_threads_the_record_witness :
  let fresh := set_credential_proposal_dict
                 (Some (demo_proposal None ["name"; "date"; "id"]))
                 new_exchange_record in
  exists msg r' w',
    create_offer demo_profile None None (fresh, demo_world [])
    = (Ok msg, (r', w')) /\
    thread_id r' = Some (CredentialOffer._message_id msg) /\
    credential_offer_dict r' = Some msg.
Proof.
  intros fresh.
  destruct (create_offer demo_profile None None (fresh, demo_world []))
    as [[msg|e] [r' w']] eqn:Hrun; [|vm_compute in Hrun; discriminate].
  destruct (create_offer_threads_the_record _ _ _ _ _ _ _ _ Hrun)
    as (m & offer & _ & _ & _ & Hdict & _ & _ & Hth & _).
  exists msg, r', w'. split; [reflexivity|]. split; [|exact Hdict].
  apply Hth. reflexivity.
Defined.

Section CreateOfferCache.
Variable P : Profile.t.
Variables (counter_proposal : option CredentialProposal.t)
          (comment : option string).
Variables (r : V10CredentialExchange) (w : World).
Variables (m : CredentialProposal.t) (cdid : string)
          (preview : CredentialPreview.t).
Variable entries : gmap string CacheValue.
Hypothesis Hm : offer_proposal counter_proposal r = Some m.
Hypothesis Hsel :
  _match_sent_cred_def_id (cred_def_tag_query m) w = (Ok cdid, w).
Hypothesis Hp : CredentialProposal.credential_proposal m = Some preview.
Hypothesis Heq :
  dom (CredentialPreview.attr_dict preview)
  = list_to_set (attrNames (schema_of_cred_def P cdid)).
Hypothesis Hcache : cache w = Some entries.

Lemma create_offer_cache_miss :
  entries !! ("credential_offer::" +:+ cdid) = None ->
  let offer := Profile.create_credential_offer P
                 (log (after_schema_lookup P cdid w)) cdid in
  exists msg r' w' i,
    create_offer P counter_proposal comment (r, w) = (Ok msg, (r', w')) /\
    CredentialOffer.offers_attach msg = [offer] /\
    credential_offer r' = Some offer /\
    state r' = Some STATE_OFFER_SENT /\
    cache w'
    = Some (<["credential_offer::" +:+ cdid := CachedOffer offer]> entries) /\
    log w' = log w ++
      [EvLedger "credential_definition_id2schema_id" (Some cdid);
       EvLedger "get_schema"
         (Some (Profile.credential_definition_id2schema_id P cdid));
       EvIssuerCreateCredentialOffer cdid;
       EvCacheSetResult ("credential_offer::" +:+ cdid) 3600;
       EvSave i "create credential offer"].
Proof.
  intros Hmiss offer.
  unfold create_offer, bind, this, attr, in_world.
  cbn [fst snd]. unfold offer_proposal in Hm. rewrite Hm.
  cbn -[CredentialProposal.assign_trace_decorator].
  rewrite tag_query_trace, Hsel. cbn. rewrite Hp. cbn.
  fold (schema_of_cred_def P cdid).
  rewrite bool_decide_eq_false_2 by (intros H; now apply H).
  unfold obtain_credential_offer, assign, save, save_record, bind, this,
    in_world, new_uuid, ret, emit, issuer_create_credential_offer.
  cbn. rewrite Hcache. cbn. rewrite Hmiss. cbn.
  destruct (credential_exchange_id r) as [i|] eqn:E; cbn;
    eexists _, _, _, _; (split; [reflexivity|]); cbn;
    rewrite <- !app_assoc; repeat split; auto.
Qed.

Lemma create_offer_cache_hit offer :
  entries !! ("credential_offer::" +:+ cdid) = Some (CachedOffer offer) ->
  exists msg r' w' i,
    create_offer P counter_proposal comment (r, w) = (Ok msg, (r', w')) /\
    CredentialOffer.offers_attach msg = [offer] /\
    credential_offer r' = Some offer /\
    state r' = Some STATE_OFFER_SENT /\
    cache w' = cache w /\
    log w' = log w ++
      [EvLedger "credential_definition_id2schema_id" (Some cdid);
       EvLedger "get_schema"
         (Some (Profile.credential_definition_id2schema_id P cdid));
       EvSave i "create credential offer"].
Proof.
  intros Hhit.
  unfold create_offer, bind, this, attr, in_world.
  cbn [fst snd]. unfold offer_proposal in Hm. rewrite Hm.
  cbn -[CredentialProposal.assign_trace_decorator].
  rewrite tag_query_trace, Hsel. cbn. rewrite Hp. cbn.
  fold (schema_of_cred_def P cdid).
  rewrite bool_decide_eq_false_2 by (intros H; now apply H).
  unfold obtain_credential_offer, assign, save, save_record, bind, this,
    in_world, new_uuid, ret, emit, issuer_create_credential_offer.
  cbn. rewrite Hcache. cbn. rewrite Hhit. cbn.
  destruct (credential_exchange_id r) as [i|] eqn:E; cbn;
    eexists _, _, _, _; (split; [reflexivity|]); cbn;
    rewrite <- ?app_assoc; repeat split; auto.
Qed.
End CreateOfferCache.

(** X8: with a cache configured, the offer of a credential definition is
    made once.  When the cache has nothing under
    [credential_offer::<cred def>], [create_offer] asks the issuer and stores
    the offer there for 3600 s; when it has an offer there, [create_offer]
    attaches that offer and the issuer is not called. *)
Theorem create_offer_goes_through_cache (P : Profile.t)
    (counter_proposal : option CredentialProposal.t) (comment : option string)
    (r : V10CredentialExchange) (w : World) (m : CredentialProposal.t)
    (cdid : string) (preview : CredentialPreview.t)
    (entries : gmap string CacheValue) :
  offer_proposal counter_proposal r = Some m ->
  _match_sent_cred_def_id (cred_def_tag_query m) w = (Ok cdid, w) ->
  CredentialProposal.credential_proposal m = Some preview ->
  dom (CredentialPreview.attr_dict preview)
  = list_to_set (attrNames (schema_of_cred_def P cdid)) ->
  cache w = Some entries ->
  let key := "credential_offer::" +:+ cdid in
  (entries !! key = None ->
   exists msg r' w' offer,
     create_offer P counter_proposal comment (r, w) = (Ok msg, (r', w')) /\
     offer = Profile.create_credential_offer P
               (log (after_schema_lookup P cdid w)) cdid /\
     CredentialOffer.offers_attach msg = [offer] /\
     cache w' = Some (<[key := CachedOffer offer]> entries) /\
     List.filter is_crypto_call (log w')
     = List.filter is_crypto_call (log w)
       ++ [EvIssuerCreateCredentialOffer cdid] /\
     In (EvCacheSetResult key 3600) (log w')) /\
  (forall offer, entries !! key = Some (CachedOffer offer) ->
   exists msg r' w',
     create_offer P counter_proposal comment (r, w) = (Ok msg, (r', w')) /\
     CredentialOffer.offers_attach msg = [offer] /\
     credential_offer r' = Some offer /\
     cache w' = cache w /\
     List.filter is_crypto_call (log w') = List.filter is_crypto_call (log w)).
Proof.
  intros Hm Hsel Hp Heq Hcache key. split.
  - intros Hmiss.
    destruct (create_offer_cache_miss P counter_proposal comment r w m cdid
                preview entries Hm Hsel Hp Heq Hcache Hmiss)
      as (msg & r' & w' & i & Hrun & Hatt & _ & _ & Hc & Hlog).
    eexists msg, r', w', _. split; [exact Hrun|]. split; [reflexivity|].
    split; [exact Hatt|]. split; [exact Hc|].
    rewrite Hlog. split.
    + rewrite List.filter_app. reflexivity.
    + apply in_or_app. right. cbn. tauto.
  - intros offer Hhit.
    destruct (create_offer_cache_hit P counter_proposal comment r w m cdid
                preview entries Hm Hsel Hp Heq Hcache offer Hhit)
      as (msg & r' & w' & i & Hrun & Hatt & Hoff & _ & Hc & Hlog).
    exists msg, r', w'. repeat split; try assumption.
    rewrite Hlog, List.filter_app. cbn. apply app_nil_r.
Qed.

Lemma create_offer_goes_through_cache_witness :
  let r := set_credential_proposal_dict
             (Some (demo_proposal None ["name"; "date"; "id"]))
             (demo_record (Some STATE_PROPOSAL_RECEIVED)) in
  let cached := demo_offer "cached offer" in
  let w := set_cache
             (Some {[ "credential_offer::X:3:CL:42:tag" := CachedOffer cached ]})
             (demo_world [r]) in
  exists msg r' w',
    create_offer demo_profile None None (r, w) = (Ok msg, (r', w')) /\
    CredentialOffer.offers_attach msg = [cached] /\
    credential_offer r' = Some cached /\
    cache w' = cache w /\
    List.filter is_crypto_call (log w') = List.filter is_crypto_call (log w).
Proof.
  intros r cached w.
  edestruct (create_offer_goes_through_cache demo_profile None None r w
               (demo_proposal None ["name"; "date"; "id"]) "X:3:CL:42:tag"
               (demo_preview ["name"; "date"; "id"]))
    as [_ Hhit].
  - reflexivity.
  - vm_compute. reflexivity.
  - reflexivity.
  - vm_compute. reflexivity.
  - reflexivity.
  - apply (Hhit cached). vm_compute. reflexivity.
Defined.

(** ** Issuing *)

Ltac unfold_issue :=
  unfold issue_credential_finish, int_of_revocation_id, bind, this, attr,
    in_world, try_except, ret, raise, assign, save, save_record, new_uuid,
    ledger_get_schema, ledger_get_credential_definition, emit,
    get_active_issuer_rev_reg_record, query_rev_regs, rev_reg_set_state,
    issuer_create_credential, notify_revocation_reg_event.

Section IssuePlain.
Variable P : Profile.t.
Variables (r : V10CredentialExchange) (w : World).
Variables (offer : IndyOffer.t) (req : IndyCredRequest).
Variables (proposal : CredentialProposal.t) (preview : CredentialPreview.t).
Variables (c : IndyCredential.t) (rid : option string).
Hypothesis Hstate : state r = Some STATE_REQUEST_RECEIVED.
Hypothesis Hcred : credential r = None.
Hypothesis Hoffer : credential_offer r = Some offer.
Hypothesis Hreq : credential_request r = Some req.
Hypothesis Hprop : credential_proposal_dict r = Some proposal.
Hypothesis Hprev : CredentialProposal.credential_proposal proposal = Some preview.
Hypothesis Hplain :
  revocation (Profile.get_credential_definition P (credential_definition_id r))
  = false.

Hypothesis Hissued :
  Profile.create_credential P (log w ++ issue_ledger_reads r)
    (issue_args_plain P r offer req preview)
  = Issued c rid.

Lemma issue_credential_plain comment retries :
  exists msg r' w' i,
    issue_credential P comment retries (r, w) = (Ok msg, (r', w')) /\
    log w' = log w ++ issue_ledger_reads r ++
      [EvIssuerCreateCredential (issue_args_plain P r offer req preview);
       EvSave i "issue credential"] /\
    rev_reg_records w' = rev_reg_records w /\
    state r' = Some STATE_ISSUED /\
    credential r' = Some c /\
    revocation_id r' = rid /\
    revoc_reg_id r' = revoc_reg_id r /\
    CredentialIssue.credentials_attach msg = [c] /\
    CredentialIssue.comment msg = comment /\
    CredentialIssue._thread msg = thread_id r /\
    In r' (exchange_records w').
Proof.
  destruct retries; cbn [issue_credential]; unfold_issue;
  cbn_flow; rewrite bool_decide_eq_false_2 by (rewrite Hstate; auto);
  rewrite Hcred, Hoffer, Hreq; cbn_flow; rewrite Hplain; cbn_flow;
  rewrite Hprop; cbn_flow; rewrite Hprev; cbn_flow;
  unfold issue_ledger_reads, issue_args_plain in Hissued;
  rewrite <- !app_assoc; cbn [app]; rewrite Hissued; cbn_flow;
  (destruct (credential_exchange_id r) as [i|] eqn:E; cbn_flow;
   eexists _, _, _, _; (split; [reflexivity|]); cbn_flow;
   unfold issue_ledger_reads, issue_args_plain; rewrite ?E;
   rewrite <- ?app_assoc; cbn [app];
   repeat split; auto using store_put_In).
Qed.
End IssuePlain.

Section RegistryFull.
Variable P : Profile.t.
Variables (r : V10CredentialExchange) (w : World).
Variables (offer : IndyOffer.t) (req : IndyCredRequest).
Variables (proposal : CredentialProposal.t) (preview : CredentialPreview.t).
Variables (a : IssuerRevRegRecord.t) (others : list IssuerRevRegRecord.t).
Hypothesis Hstate : state r = Some STATE_REQUEST_RECEIVED.
Hypothesis Hcred : credential r = None.
Hypothesis Hoffer : credential_offer r = Some offer.
Hypothesis Hreq : credential_request r = Some req.
Hypothesis Hprop : credential_proposal_dict r = Some proposal.
Hypothesis Hprev : CredentialProposal.credential_proposal proposal = Some preview.
Hypothesis Hrevocable :
  revocation (Profile.get_credential_definition P (credential_definition_id r))
  = true.
Hypothesis Hactive :
  IssuerRevRegRecord.query_by_cred_def_id (rev_reg_records w)
    (credential_definition_id r) (Some IssuerRevRegRecord.STATE_ACTIVE)
  = a :: others.
Hypothesis Hfull :
  Profile.create_credential P
    (log w ++ issue_ledger_reads r ++
     [EvFetchTails (IssuerRevRegRecord.revoc_reg_id a)])
    (issue_args P r offer req preview a)
  = RevocationRegistryFull.

(** The world once the issuer has refused and the registry is marked. *)
Lemma issue_credential_full_exhausted comment :
  issue_credential P comment 0 (r, w)
  = (Raise IndyIssuerRevocationRegistryFullError,
     (set_revoc_reg_id (Some (IssuerRevRegRecord.revoc_reg_id a)) r,
      set_rev_reg_records
        (rev_reg_put
           (IssuerRevRegRecord.with_state IssuerRevRegRecord.STATE_FULL a)
           (rev_reg_records w))
        (add_log
           (issue_ledger_reads r ++
            [EvFetchTails (IssuerRevRegRecord.revoc_reg_id a);
             EvIssuerCreateCredential (issue_args P r offer req preview a);
             EvRevRegSetState (IssuerRevRegRecord.revoc_reg_id a)
                              IssuerRevRegRecord.STATE_FULL]) w))).
Proof.
  cbn [issue_credential]; unfold_issue;
  cbn_flow; rewrite bool_decide_eq_false_2 by (rewrite Hstate; auto);
  rewrite Hcred, Hoffer, Hreq; cbn_flow; rewrite Hrevocable; cbn_flow;
  rewrite Hactive; cbn_flow; rewrite Hprop; cbn_flow; rewrite Hprev; cbn_flow.
  unfold issue_ledger_reads, issue_args in Hfull; cbn [app] in Hfull.
  rewrite <- !app_assoc; cbn [app]. rewrite Hfull. cbn_flow.
  unfold add_log, issue_ledger_reads, issue_args. cbn_flow.
  rewrite <- ?app_assoc. reflexivity.
Qed.

Lemma issue_credential_full_retries comment n :
  issue_credential P comment (S n) (r, w)
  = issue_credential P comment n
      (set_revoc_reg_id (Some (IssuerRevRegRecord.revoc_reg_id a)) r,
       snd (sleep P 1
              (set_rev_reg_records
                 (rev_reg_put
                    (IssuerRevRegRecord.with_state
                       IssuerRevRegRecord.STATE_FULL a)
                    (rev_reg_records w))
                 (add_log
                    (issue_ledger_reads r ++
                     [EvFetchTails (IssuerRevRegRecord.revoc_reg_id a);
                      EvIssuerCreateCredential
                        (issue_args P r offer req preview a);
                      EvRevRegSetState (IssuerRevRegRecord.revoc_reg_id a)
                                       IssuerRevRegRecord.STATE_FULL;
                      EvLog INFO
                        "Waiting 1s and retrying: revocation registry %s is full"
                        [IssuerRevRegRecord.revoc_reg_id a]]) w)))).
Proof.
  cbn [issue_credential]; unfold_issue;
  cbn_flow; rewrite bool_decide_eq_false_2 by (rewrite Hstate; auto);
  rewrite Hcred, Hoffer, Hreq; cbn_flow; rewrite Hrevocable; cbn_flow;
  rewrite Hactive; cbn_flow; rewrite Hprop; cbn_flow; rewrite Hprev; cbn_flow.
  unfold issue_ledger_reads, issue_args in Hfull; cbn [app] in Hfull.
  rewrite <- !app_assoc; cbn [app]. rewrite Hfull. cbn_flow.
  match goal with
  | |- _ = issue_credential P comment n ?S2 => set (s2 := S2)
  end.
  match goal with
  | |- ?L = _ =>
      match L with
      | context [issue_credential P comment n ?S1] =>
          replace S1 with s2
            by (subst s2; unfold sleep, add_log, issue_ledger_reads, issue_args;
                cbn_flow; rewrite <- ?app_assoc; reflexivity)
      end
  end.
  destruct (issue_credential P comment n s2) as [[x|e] [r' w']]; reflexivity.
Qed.
End RegistryFull.

(** X9: when the credential definition has no revocation part,
    [issue_credential] touches no registry record: after the two ledger reads
    it calls the issuer once, with the record's registry id and no tails
    path, takes the credential and whatever revocation id the issuer returns
    (none is fine here), moves the record to [ISSUED], saves it and sends the
    credential on the record's thread with the comment given. *)
Theorem issue_credential_without_revocation (P : Profile.t)
    (r : V10CredentialExchange) (w : World) (offer : IndyOffer.t)
    (req : IndyCredRequest) (proposal : CredentialProposal.t)
    (preview : CredentialPreview.t) (c : IndyCredential.t)
    (rid : option string) (comment : option string) (retries : nat) :
  state r = Some STATE_REQUEST_RECEIVED ->
  credential r = None ->
  credential_offer r = Some offer ->
  credential_request r = Some req ->
  credential_proposal_dict r = Some proposal ->
  CredentialProposal.credential_proposal proposal = Some preview ->
  revocation (Profile.get_credential_definition P (credential_definition_id r))
  = false ->
  Profile.create_credential P (log w ++ issue_ledger_reads r)
    (issue_args_plain P r offer req preview)
  = Issued c rid ->
  exists msg r' w' i,
    issue_credential P comment retries (r, w) = (Ok msg, (r', w')) /\
    log w' = log w ++ issue_ledger_reads r ++
      [EvIssuerCreateCredential (issue_args_plain P r offer req preview);
       EvSave i "issue credential"] /\
    rev_reg_records w' = rev_reg_records w /\
    state r' = Some STATE_ISSUED /\
    credential r' = Some c /\
    revocation_id r' = rid /\
    revoc_reg_id r' = revoc_reg_id r /\
    CredentialIssue.credentials_attach msg = [c] /\
    CredentialIssue.comment msg = comment /\
    CredentialIssue._thread msg = thread_id r /\
    In r' (exchange_records w').
Proof.
  intros. eapply issue_credential_plain; eassumption.
Qed.

Lemma issue_credential_without_revocation_witness :
  let r := demo_issuer_record in
  exists msg r' w',
    issue_credential demo_profile_plain (Some "here it is") 5
      (r, demo_world [r]) = (Ok msg, (r', w')) /\
    state r' = Some STATE_ISSUED /\
    revocation_id r' = None /\
    CredentialIssue.comment msg = Some "here it is" /\
    CredentialIssue._thread msg = Some "t1" /\
    rev_reg_records w' = [].
Proof.
  intros r.
  destruct (issue_credential_without_revocation demo_profile_plain r
              (demo_world [r]) (demo_offer "X:3:CL:42:tag") "request"
              (demo_proposal None ["name"; "date"; "id"])
              (demo_preview ["name"; "date"; "id"]) (demo_credential None)
              None (Some "here it is") 5
              eq_refl eq_refl eq_refl eq_refl eq_refl eq_refl eq_refl eq_refl)
    as (msg & r' & w' & i & Hrun & _ & Hregs & Hst & _ & Hrid & _ & _ & Hc
        & Hth & _).
  exists msg, r', w'. repeat split; assumption.
Defined.

(** X10: when the issuer reports the active registry full,
    [issue_credential] sets the record of that registry to [FULL]; with
    retries left it sleeps 1 second and runs again with one retry less, on
    the record as it is then; with none left the issuer's error comes out,
    the exchange record still in [REQUEST_RECEIVED] and not saved, but naming
    the full registry as its [revoc_reg_id]. *)
Theorem registry_full_is_retried (P : Profile.t) (r : V10CredentialExchange)
    (w : World) (offer : IndyOffer.t) (req : IndyCredRequest)
    (proposal : CredentialProposal.t) (preview : CredentialPreview.t)
    (a : IssuerRevRegRecord.t) (others : list IssuerRevRegRecord.t)
    (comment : option string) :
  state r = Some STATE_REQUEST_RECEIVED ->
  credential r = None ->
  credential_offer r = Some offer ->
  credential_request r = Some req ->
  credential_proposal_dict r = Some proposal ->
  CredentialProposal.credential_proposal proposal = Some preview ->
  revocation (Profile.get_credential_definition P (credential_definition_id r))
  = true ->
  IssuerRevRegRecord.query_by_cred_def_id (rev_reg_records w)
    (credential_definition_id r) (Some IssuerRevRegRecord.STATE_ACTIVE)
  = a :: others ->
  Profile.create_credential P
    (log w ++ issue_ledger_reads r ++
     [EvFetchTails (IssuerRevRegRecord.revoc_reg_id a)])
    (issue_args P r offer req preview a)
  = RevocationRegistryFull ->
  let marked :=
    set_rev_reg_records
      (rev_reg_put
         (IssuerRevRegRecord.with_state IssuerRevRegRecord.STATE_FULL a)
         (rev_reg_records w)) in
  let attempt :=
    issue_ledger_reads r ++
    [EvFetchTails (IssuerRevRegRecord.revoc_reg_id a);
     EvIssuerCreateCredential (issue_args P r offer req preview a);
     EvRevRegSetState (IssuerRevRegRecord.revoc_reg_id a)
                      IssuerRevRegRecord.STATE_FULL] in
  let r1 := set_revoc_reg_id (Some (IssuerRevRegRecord.revoc_reg_id a)) r in
  issue_credential P comment 0 (r, w)
  = (Raise IndyIssuerRevocationRegistryFullError,
     (r1, marked (add_log attempt w))) /\
  state r1 = Some STATE_REQUEST_RECEIVED /\
  credential r1 = None /\
  In (IssuerRevRegRecord.with_state IssuerRevRegRecord.STATE_FULL a)
     (rev_reg_records (marked (add_log attempt w))) /\
  exchange_records (marked (add_log attempt w)) = exchange_records w /\
  (forall n,
     issue_credential P comment (S n) (r, w)
     = issue_credential P comment n
         (r1, snd (sleep P 1
                     (marked
                        (add_log
                           (attempt ++
                            [EvLog INFO
                               "Waiting 1s and retrying: revocation registry %s is full"
                               [IssuerRevRegRecord.revoc_reg_id a]]) w))))) /\
  (forall w0, log (snd (sleep P 1 w0)) = log w0 ++ [EvSleep 1]).
Proof.
  intros Hstate Hcred Hoffer Hreq Hprop Hprev Hrev Hactive Hfull
    marked attempt r1.
  split; [|split; [|split; [|split; [|split; [|split]]]]].
  - exact (issue_credential_full_exhausted P r w offer req proposal preview a
             others Hstate Hcred Hoffer Hreq Hprop Hprev Hrev Hactive Hfull
             comment).
  - exact Hstate.
  - exact Hcred.
  - cbn. apply rev_reg_put_In.
  - reflexivity.
  - intros n. subst attempt. rewrite <- app_assoc.
    exact (issue_credential_full_retries P r w offer req proposal preview a
             others Hstate Hcred Hoffer Hreq Hprop Hprev Hrev Hactive Hfull
             comment n).
  - reflexivity.
Qed.

Lemma registry_full_is_retried_witness :
  let r := demo_issuer_record in
  let a := demo_rev_reg "R-full" IssuerRevRegRecord.STATE_ACTIVE 10 100 in
  let w := demo_registry_world [a] [r] in
  let out := issue_credential demo_profile None 0 (r, w) in
  fst out = Raise IndyIssuerRevocationRegistryFullError /\
  state (fst (snd out)) = Some STATE_REQUEST_RECEIVED /\
  revoc_reg_id (fst (snd out)) = Some "R-full" /\
  rev_reg_records (snd (snd out))
  = [demo_rev_reg "R-full" IssuerRevRegRecord.STATE_FULL 10 100].
Proof.
  intros r a w out.
  destruct (registry_full_is_retried demo_profile r w
              (demo_offer "X:3:CL:42:tag") "request"
              (demo_proposal None ["name"; "date"; "id"])
              (demo_preview ["name"; "date"; "id"]) a [] None
              eq_refl eq_refl eq_refl eq_refl eq_refl eq_refl eq_refl
              eq_refl eq_refl)
    as (Hrun & _).
  subst out. rewrite Hrun. repeat split.
Defined.

(** The registry fills up under the flow, and a second one is active by the
    time of the retry: the credential goes out on the second. *)
Example issue_credential_moves_to_next_registry :
  let r := demo_issuer_record in
  let full := demo_rev_reg "R-full" IssuerRevRegRecord.STATE_ACTIVE 10 100 in
  let next := demo_rev_reg "R-next" IssuerRevRegRecord.STATE_ACTIVE 10 200 in
  let out := issue_credential demo_profile None 5
               (r, demo_registry_world [full; next] [r]) in
  state (fst (snd out)) = Some STATE_ISSUED /\
  revoc_reg_id (fst (snd out)) = Some "R-next" /\
  List.filter is_sleep (log (snd (snd out))) = [EvSleep 1] /\
  count is_issuer_create_credential (snd (snd out)) = 2%nat.
Proof. vm_compute. repeat split. Qed.

(** ** Accounting for the effects of a run *)

(** A world effect run on the world of the frame. *)
Lemma post_in_world_run {A} (c : M World A) (s : Frame) Q :
  Q (fst (c (snd s))) (fst s, snd (c (snd s))) -> post (in_world c) s Q.
Proof. unfold post, in_world. cbn. destruct (c (snd s)); auto. Qed.

Lemma count_emit p e w :
  count p (set_log (log w ++ [e]) w)
  = (count p w + (if p e then 1 else 0))%nat.
Proof.
  unfold count. cbn. rewrite List.filter_app, length_app. cbn.
  destruct (p e); reflexivity.
Qed.

(** [save] writes the record of the frame, numbering it first when it has no
    identifier yet. *)
Lemma post_save_run P reason (s : Frame) Q :
  (forall i, credential_exchange_id (fst s) = Some i ->
     Q (Ok tt)
       (fst s,
        set_log (log (snd s) ++ [EvSave i reason])
          (set_exchange_records
             (store_put (fst s) (exchange_records (snd s))) (snd s)))) ->
  (credential_exchange_id (fst s) = None ->
     let i := Profile.uuid4 P (uuid_counter (snd s)) in
     let r' := set_credential_exchange_id (Some i) (fst s) in
     Q (Ok tt)
       (r',
        set_log (log (snd s) ++ [EvSave i reason])
          (set_exchange_records
             (store_put r' (exchange_records (snd s)))
             (set_uuid_counter (S (uuid_counter (snd s))) (snd s))))) ->
  post (save P reason) s Q.
Proof.
  intros H1 H2. unfold post, save, save_record, bind, this, in_world, assign.
  destruct s as [r w]. cbn in *.
  destruct (credential_exchange_id r) eqn:E; cbn; auto.
Qed.

Ltac run_step :=
  lazymatch goal with
  | |- post (bind _ _) _ _ => apply post_bind
  | |- post (ret _) _ _ => apply post_ret
  | |- post (raise _) _ _ => apply post_raise
  | |- post this _ _ => apply post_this
  | |- post (assign _) _ _ => apply post_assign
  | |- post (save _ _) _ _ => apply post_save_run; [intros ? ?|intros ?]
  | |- post (in_world _) _ _ => apply post_in_world_run
  | |- post (attr _) _ _ => apply post_attr; intros
  | |- post (try_except _ _) _ _ => apply post_try_except
  | |- post (int_of_revocation_id _) _ _ => unfold int_of_revocation_id
  | |- match on_not_found _ _ with _ => _ end => unfold on_not_found
  | |- match (match ?e with _ => _ end) with _ => _ end => destruct e eqn:?
  | |- post (if ?b then _ else _) _ _ => destruct b eqn:?
  | |- post (match ?x with _ => _ end) _ _ => destruct x eqn:?
  | |- match ?x with _ => _ end => destruct x eqn:?
  end; cbn [fst snd on_not_found].

Lemma issue_credential_finish_budget P comment r w w0 n :
  credential r <> None ->
  (count is_sleep w <= count is_sleep w0 + n)%nat ->
  (count is_issuer_create_credential w
   <= count is_issuer_create_credential w0 + S n)%nat ->
  count is_save w = count is_save w0 ->
  post (issue_credential_finish P comment) (r, w)
    (fun x s' => within_budget w0 n x (snd s')).
Proof.
  intros Hc Hs Hi Hsv. unfold issue_credential_finish.
  repeat run_step.
  all: cbn in *; try congruence.
  all: unfold within_budget, count in *; cbn;
    rewrite ?List.filter_app, ?length_app; cbn; lia.
Qed.

Lemma get_active_issuer_rev_reg_record_world cdid w :
  snd (get_active_issuer_rev_reg_record cdid w) = w.
Proof.
  unfold get_active_issuer_rev_reg_record.
  destruct IssuerRevRegRecord.query_by_cred_def_id; reflexivity.
Qed.

Lemma issuer_create_credential_log P args w :
  log (snd (issuer_create_credential P args w))
  = log w ++ [EvIssuerCreateCredential args].
Proof.
  unfold issuer_create_credential.
  destruct Profile.create_credential; reflexivity.
Qed.

Lemma holder_store_credential_log P args w :
  log (snd (holder_store_credential P args w))
  = log w ++ [EvHolderStoreCredential args].
Proof.
  unfold holder_store_credential.
  destruct Profile.store_credential; reflexivity.
Qed.

Ltac count_log :=
  unfold within_budget, count in *; cbn in *;
  rewrite ?get_active_issuer_rev_reg_record_world in *; cbn in *;
  rewrite ?issuer_create_credential_log in *; cbn in *;
  rewrite ?List.filter_app, ?length_app in *; cbn in *;
  try congruence; try lia.

Lemma issue_credential_budget P comment n : forall r w,
  post (issue_credential P comment n) (r, w)
    (fun x s' => within_budget w n x (snd s')).
Proof.
  induction n as [|n IH]; intros r w; cbn [issue_credential].
  - repeat first
      [ apply issue_credential_finish_budget
      | run_step ].
    all: count_log.
  - repeat first
      [ apply issue_credential_finish_budget
      | eapply post_mono; [apply IH|]; cbn [fst snd];
        intros [?|?] [? ?] (? & ? & ?)
      | run_step ].
    all: count_log.
Qed.

(** X11: whatever the ledger, the registries and the issuer do, a run of
    [issue_credential] with [retries] retries sleeps at most [retries] times
    and calls the issuer's [create_credential] at most [retries + 1] times;
    it saves the exchange record exactly once when it returns and not at all
    when it raises. *)
Theorem issue_credential_attempts_are_bounded (P : Profile.t)
    (comment : option string) (retries : nat) (r : V10CredentialExchange)
    (w : World) :
  let out := issue_credential P comment retries (r, w) in
  let w' := snd (snd out) in
  (count is_sleep w' <= count is_sleep w + retries)%nat /\
  (count is_issuer_create_credential w'
   <= count is_issuer_create_credential w + S retries)%nat /\
  count is_save w' = match fst out with
                     | Ok _ => S (count is_save w)
                     | Raise _ => count is_save w
                     end.
Proof.
  exact (issue_credential_budget P comment retries r w).
Qed.

(** ** What reaches the record store *)

Lemma store_untouched_refl w : store_untouched w w.
Proof. split; reflexivity. Qed.

Lemma store_untouched_trans w1 w2 w3 :
  store_untouched w1 w2 -> store_untouched w2 w3 -> store_untouched w1 w3.
Proof. intros [? ?] [? ?]. split; congruence. Qed.

Lemma quiet_ret {A} (a : A) : quiet (ret a).
Proof. intros w. apply store_untouched_refl. Qed.

Lemma quiet_raise {A} e : quiet (raise (A := A) e).
Proof. intros w. apply store_untouched_refl. Qed.

Lemma quiet_bind {A B} (c : M World A) (k : A -> M World B) :
  quiet c -> (forall a, quiet (k a)) -> quiet (bind c k).
Proof.
  intros Hc Hk w. unfold bind. specialize (Hc w).
  destruct (c w) as [[a|e] w1]; cbn in *; [|exact Hc].
  eapply store_untouched_trans; [exact Hc|apply Hk].
Qed.

Lemma quiet_emit e : is_save e = false -> quiet (emit e).
Proof.
  intros He w. split; [reflexivity|]. unfold emit. cbn [snd].
  rewrite count_emit, He. lia.
Qed.

Lemma quiet_new_uuid P : quiet (new_uuid P).
Proof. intros w. split; reflexivity. Qed.

Lemma quiet_match_sent q : quiet (_match_sent_cred_def_id q).
Proof. intros w. rewrite match_sent_world. apply store_untouched_refl. Qed.

Lemma quiet_ledger_id2schema P c :
  quiet (ledger_credential_definition_id2schema_id P c).
Proof. apply quiet_bind; [now apply quiet_emit|intros; apply quiet_ret]. Qed.

Lemma quiet_ledger_get_schema P c : quiet (ledger_get_schema P c).
Proof. apply quiet_bind; [now apply quiet_emit|intros; apply quiet_ret]. Qed.

Lemma quiet_ledger_get_credential_definition P c :
  quiet (ledger_get_credential_definition P c).
Proof. apply quiet_bind; [now apply quiet_emit|intros; apply quiet_ret]. Qed.

Lemma quiet_ledger_get_revoc_reg_def P c :
  quiet (ledger_get_revoc_reg_def P c).
Proof. apply quiet_bind; [now apply quiet_emit|intros; apply quiet_ret]. Qed.

Lemma quiet_issuer_create_credential_offer P c :
  quiet (issuer_create_credential_offer P c).
Proof.
  intros w. split; [reflexivity|]. cbv delta [issuer_create_credential_offer
    holder_create_credential_request holder_get_credential] beta.
  cbn [snd]. rewrite count_emit. cbn. lia.
Qed.

Lemma quiet_holder_create_credential_request P o cd c d :
  quiet (holder_create_credential_request P o cd c d).
Proof.
  intros w. split; [reflexivity|]. cbv delta [issuer_create_credential_offer
    holder_create_credential_request holder_get_credential] beta.
  cbn [snd]. rewrite count_emit. cbn. lia.
Qed.

Lemma quiet_holder_store_credential P args :
  quiet (holder_store_credential P args).
Proof.
  intros w. unfold holder_store_credential.
  destruct Profile.store_credential; (split; [reflexivity|]); cbn [snd];
    rewrite count_emit; cbn; lia.
Qed.

Lemma quiet_holder_get_credential P c : quiet (holder_get_credential P c).
Proof.
  intros w. split; [reflexivity|]. cbv delta [issuer_create_credential_offer
    holder_create_credential_request holder_get_credential] beta.
  cbn [snd]. rewrite count_emit. cbn. lia.
Qed.

Lemma quiet_set_cache {A} (a : A) c :
  quiet (fun w => (Ok a, set_cache c w)).
Proof. intros w. split; reflexivity. Qed.

Lemma quiet_obtain_credential_offer P c :
  quiet (obtain_credential_offer P c).
Proof.
  intros w. unfold obtain_credential_offer.
  destruct (cache w) as [entries|].
  - destruct (entries !! _); [apply store_untouched_refl|].
    revert w. apply quiet_bind; [apply quiet_issuer_create_credential_offer|].
    intros offer. apply quiet_bind; [apply quiet_set_cache|].
    intros _. apply quiet_bind; [now apply quiet_emit|].
    intros _. apply quiet_ret.
  - revert w. apply quiet_bind; [apply quiet_issuer_create_credential_offer|].
    intros offer. apply quiet_ret.
Qed.

Lemma quiet_obtain_credential_request P c o d :
  quiet (obtain_credential_request P c o d).
Proof.
  assert (Hc : quiet
    (let* credential_definition := ledger_get_credential_definition P c in
     let* created := holder_create_credential_request P o
                       credential_definition c d in
     ret (CachedRequest (fst created) (snd created)))).
  { apply quiet_bind; [apply quiet_ledger_get_credential_definition|].
    intros cd. apply quiet_bind;
      [apply quiet_holder_create_credential_request|].
    intros. apply quiet_ret. }
  intros w. unfold obtain_credential_request.
  destruct (cache w) as [entries|]; [|apply Hc].
  destruct (entries !! _); [apply store_untouched_refl|].
  revert w. apply quiet_bind; [exact Hc|].
  intros v. apply quiet_bind; [apply quiet_set_cache|].
  intros _. apply quiet_bind; [now apply quiet_emit|].
  intros _. apply quiet_ret.
Qed.

Lemma post_in_world_quiet {A} (c : M World A) (s : Frame) Q :
  quiet c ->
  (forall x w', store_untouched (snd s) w' -> Q x (fst s, w')) ->
  post (in_world c) s Q.
Proof.
  intros Hc H. unfold post, in_world. specialize (Hc (snd s)).
  destruct (c (snd s)) as [x w']. cbn in *. auto.
Qed.

Create HintDb quiet.
#[local] Hint Resolve quiet_new_uuid quiet_match_sent quiet_ledger_id2schema
  quiet_ledger_get_schema quiet_ledger_get_credential_definition
  quiet_ledger_get_revoc_reg_def quiet_holder_store_credential
  quiet_holder_get_credential quiet_obtain_credential_offer
  quiet_obtain_credential_request : quiet.

Ltac quiet_step :=
  lazymatch goal with
  | |- post (in_world (emit _)) _ _ =>
      apply post_in_world_quiet;
      [apply quiet_emit; reflexivity | intros ? ? ?]
  | |- post (in_world _) _ _ =>
      apply post_in_world_quiet; [solve [auto with quiet] | intros ? ? ?]
  | |- _ => run_step
  end; cbn [fst snd].

Ltac store_facts :=
  unfold saved_on_return, store_untouched in *; cbn [fst snd] in *;
  repeat match goal with H : _ /\ _ |- _ => destruct H end;
  unfold count in *; cbn; rewrite ?List.filter_app, ?length_app; cbn;
  split; [congruence | lia].

Lemma create_offer_saves P counter_proposal comment r w :
  post (create_offer P counter_proposal comment) (r, w)
    (fun x s' => saved_on_return w x s').
Proof.
  unfold create_offer. repeat quiet_step. all: store_facts.
Qed.

Lemma create_request_saves P holder_did r w :
  post (create_request P holder_did) (r, w)
    (fun x s' => saved_on_return w x s').
Proof.
  unfold create_request. repeat quiet_step. all: store_facts.
Qed.

Lemma store_credential_saves P cred_id r w :
  post (store_credential P cred_id) (r, w)
    (fun x s' => saved_on_return w x s').
Proof.
  unfold store_credential. repeat quiet_step. all: store_facts.
Qed.

(** X12: [create_offer], [create_request] and [store_credential] write the
    exchange record as their last effect only: a run that returns has saved
    once and the store holds the record as the run leaves it; a run that
    raises, at whatever step, has saved nothing and the exchange records are
    the ones it started with. *)
Theorem saved_exactly_on_return (P : Profile.t) (r : V10CredentialExchange)
    (w : World) (counter_proposal : option CredentialProposal.t)
    (comment : option string) (holder_did : string)
    (cred_id : option string) :
  let offered := create_offer P counter_proposal comment (r, w) in
  let requested := create_request P holder_did (r, w) in
  let stored := store_credential P cred_id (r, w) in
  saved_on_return w (fst offered) (snd offered) /\
  saved_on_return w (fst requested) (snd requested) /\
  saved_on_return w (fst stored) (snd stored).
Proof.
  split; [|split].
  - exact (create_offer_saves P counter_proposal comment r w).
  - exact (create_request_saves P holder_did r w).
  - exact (store_credential_saves P cred_id r w).
Qed.

(** ** Storing the credential *)

(** X13: on a record in [CREDENTIAL_RECEIVED], [store_credential] reads the
    credential definition (and, when the credential names a registry, the
    registry definition and its tails file) and calls the holder.  When the
    holder stores the credential, the record takes the holder's credential
    id, the credential as the holder reads it back and that credential's
    revocation ids, is saved, and stays in [CREDENTIAL_RECEIVED].  When the
    holder fails, the error is logged and raised again; the record is as it
    was and nothing is saved. *)
Theorem store_credential_outcome (P : Profile.t) (r : V10CredentialExchange)
    (w : World) (raw : IndyCredential.t) (cred_id : option string) :
  state r = Some STATE_CREDENTIAL_RECEIVED ->
  raw_credential r = Some raw ->
  let args := store_args P r raw cred_id in
  let before := log w ++ store_preparation P raw in
  match Profile.store_credential P before args with
  | Stored cid =>
      let stored :=
        Profile.get_credential P (before ++ [EvHolderStoreCredential args])
          cid in
      exists r' w' i,
        store_credential P cred_id (r, w) = (Ok tt, (r', w')) /\
        credential_id r' = Some cid /\
        credential r' = Some stored /\
        revoc_reg_id r' = IndyCredential.rev_reg_id stored /\
        revocation_id r' = IndyCredential.cred_rev_id stored /\
        state r' = Some STATE_CREDENTIAL_RECEIVED /\
        raw_credential r' = Some raw /\
        log w' = before ++ [EvHolderStoreCredential args;
                            EvHolderGetCredential cid;
                            EvSave i "store credential"] /\
        In r' (exchange_records w')
  | HolderFailure code msg =>
      store_credential P cred_id (r, w)
      = (Raise (IndyHolderError code msg),
         (r, add_log
               (store_preparation P raw ++
                [EvHolderStoreCredential args;
                 EvLog ERROR "Error storing credential. %s: %s" [code; msg]])
               w))
  end.
Proof.
  intros Hstate Hraw args before. subst args before.
  unfold store_credential, store_args, store_preparation, store_rev_reg_def,
    add_log, save, save_record, bind, this, attr, in_world, try_except, ret,
    raise, assign, new_uuid, ledger_get_credential_definition,
    ledger_get_revoc_reg_def, holder_store_credential, holder_get_credential,
    emit.
  cbn. rewrite Hstate.
  rewrite bool_decide_eq_false_2 by (intros H; now apply H).
  cbn. rewrite Hraw. cbn.
  destruct (truthy (IndyCredential.rev_reg_id raw)) eqn:Ht; cbn;
    rewrite <- ?app_assoc; cbn [app];
    destruct (Profile.store_credential P _ _) as [cid|code msg]; cbn;
    rewrite <- ?app_assoc; cbn [app]; try reflexivity.
  all: destruct (credential_exchange_id r); cbn;
    rewrite <- ?app_assoc; cbn [app];
    do 3 eexists; (split; [reflexivity|]); cbn;
    repeat split; auto using store_put_In;
    rewrite <- ?app_assoc; reflexivity.
Qed.

Lemma store_credential_outcome_witness :
  exists r' w',
    store_credential demo_profile None
      (demo_received_record (Some "R1"),
       demo_world [demo_received_record (Some "R1")])
    = (Ok tt, (r', w')) /\
    credential_id r' = Some "cred-1" /\
    revoc_reg_id r' = None /\
    state r' = Some STATE_CREDENTIAL_RECEIVED /\
    In (EvFetchTails "R1") (log w').
Proof.
  destruct (store_credential_outcome demo_profile
              (demo_received_record (Some "R1"))
              (demo_world [demo_received_record (Some "R1")])
              (demo_credential (Some "R1")) None eq_refl eq_refl)
    as (r' & w' & i & Hrun & Hid & _ & Hrr & _ & Hst & _ & Hlog & _).
  exists r', w'. repeat split; try assumption.
  rewrite Hlog. cbn. auto.
Defined.

(** The holder refuses: the error is logged and comes out, nothing saved. *)
Example store_credential_holder_refuses :
  let r := demo_received_record None in
  let out := store_credential demo_profile_plain (Some "mine")
               (r, demo_world [r]) in
  fst out = Raise (IndyHolderError "WalletItemAlreadyExists" "duplicate") /\
  fst (snd out) = r /\
  exchange_records (snd (snd out)) = [r] /\
  last (log (snd (snd out)))
  = Some (EvLog ERROR "Error storing credential. %s: %s"
            ["WalletItemAlreadyExists"; "duplicate"]).
Proof. vm_compute. repeat split. Qed.

(** ** Acknowledging *)

(** X14: [send_credential_ack] has no failing step of its own (the store's
    save and delete are taken to succeed): it moves the record to [ACKED],
    saves it, and sends the ack, carrying the record's thread and parent
    thread, to the record's connection (or logs a warning when the agent has
    no responder, sending nothing).  When the record is set to auto-remove,
    no record of its identifier is left in the store afterwards; otherwise
    the acked record is in the store. *)
Theorem send_credential_ack_outcome (P : Profile.t)
    (r : V10CredentialExchange) (w : World) :
  exists m r' w',
    send_credential_ack P (r, w) = (Ok m, (r', w')) /\
    state r' = Some STATE_ACKED /\
    CredentialAck._thread m = thread_id r /\
    CredentialAck._parent_thread m = parent_thread_id r /\
    (if default false (auto_remove r)
     then forall x, In x (exchange_records w') -> same_record r' x = false
     else In r' (exchange_records w')) /\
    last (log w')
    = Some (if Profile.responder P
            then EvSendReply m (connection_id r)
            else EvLog WARNING
                   "Configuration has no BaseResponder: cannot ack credential on %s"
                   [py_str (thread_id r)]) /\
    count is_save w' = S (count is_save w) /\
    count is_delete w'
    = (count is_delete w + if default false (auto_remove r) then 1 else 0)%nat.
Proof.
  unfold send_credential_ack, save, save_record, delete_record, bind, this,
    in_world, try_except, ret, assign, new_uuid, emit, count.
  cbn.
  destruct (credential_exchange_id r) eqn:Ei; cbn;
    destruct (auto_remove r) as [[|]|] eqn:Ea; cbn;
    destruct (Profile.responder P) eqn:Er; cbn;
    do 3 eexists; (split; [reflexivity|]); cbn; rewrite ?Ea; cbn;
    rewrite ?last_snoc, ?List.filter_app, ?length_app; cbn;
    repeat split; eauto using store_put_In; try lia;
    intros x Hx; apply List.filter_In in Hx as [_ Hx];
    apply negb_true_iff in Hx; exact Hx.
Qed.

(** X15: [receive_credential_ack] moves the record of the ack's thread and
    connection to [ACKED], whatever state it was in, and saves it; a record
    set to auto-remove is then deleted, so that no record of its identifier
    is left in the store, and is still handed back in [ACKED]. *)
Theorem receive_credential_ack_outcome (P : Profile.t)
    (message : CredentialAck.t) (conn_id : option string) (w : World)
    (r : V10CredentialExchange) :
  List.find (fun r => bool_decide
                        (thread_id r = Some (CredentialAck._thread_id message))
                      && bool_decide (connection_id r = conn_id))
            (exchange_records w) = Some r ->
  exists r' w' i,
    receive_credential_ack P message conn_id w = (Ok r', w') /\
    state r' = Some STATE_ACKED /\
    credential_exchange_id r' = Some i /\
    thread_id r' = thread_id r /\
    (if default false (auto_remove r)
     then forall x, In x (exchange_records w') -> same_record r' x = false
     else In r' (exchange_records w')) /\
    log w' = log w ++
      EvSave i "credential acked"
      :: (if default false (auto_remove r)
          then [EvDeleteRecord (Some i)] else []).
Proof.
  intros Hfind.
  unfold receive_credential_ack, retrieve_by_connection_and_thread,
    retrieve_by_tag_filter, save_record, delete_record, bind, ret, new_uuid.
  rewrite Hfind. cbn.
  destruct (credential_exchange_id r) eqn:Ei; cbn;
    destruct (auto_remove r) as [[|]|] eqn:Ea; cbn; rewrite ?Ei;
    do 3 eexists; (split; [reflexivity|]); cbn; rewrite ?Ea; cbn;
    rewrite <- ?app_assoc; cbn [app];
    repeat split; eauto using store_put_In;
    intros x Hx; apply List.filter_In in Hx as [_ Hx];
    apply negb_true_iff in Hx; exact Hx.
Qed.

Lemma receive_credential_ack_outcome_witness :
  exists r',
    receive_credential_ack demo_profile demo_ack_message (Some "c1")
      (demo_world [demo_issued_record true])
    = (Ok r',
       add_log [EvSave "x1" "credential acked"; EvDeleteRecord (Some "x1")]
         (demo_world [])) /\
    state r' = Some STATE_ACKED.
Proof.
  destruct (receive_credential_ack_outcome demo_profile demo_ack_message
              (Some "c1") (demo_world [demo_issued_record true])
              (demo_issued_record true) eq_refl)
    as (r' & w' & i & Hrun & Hst & _).
  exists r'. split; [|exact Hst].
  rewrite Hrun. vm_compute in Hrun. injection Hrun as <- <-. reflexivity.
Defined.

(** The record is kept when it is not set to auto-remove. *)
Example receive_credential_ack_keeps_the_record :
  exchange_records
    (snd (receive_credential_ack demo_profile demo_ack_message (Some "c1")
            (demo_world [demo_issued_record false])))
  = [set_state (Some STATE_ACKED) (demo_issued_record false)].
Proof. reflexivity. Qed.

(** ** Selecting among the credential definitions sent *)

Lemma epoch_key_run (r : StorageRecord.t) (w : World) :
  epoch_key r w
  = match StorageRecord.tags r !! "epoch" with
    | None => (Raise KeyError, w)
    | Some e => match py_int e with
                | Some n => (Ok n, w)
                | None => (Raise ValueError, w)
                end
    end.
Proof.
  unfold epoch_key. destruct (StorageRecord.tags r !! "epoch") as [e|];
    [destruct (py_int e)|]; reflexivity.
Qed.

Lemma epoch_key_cases (r : StorageRecord.t) (w : World) :
  (exists n, epoch_of r = Some n /\ epoch_key r w = (Ok n, w)) \/
  (epoch_of r = None /\
   exists e, (e = KeyError \/ e = ValueError) /\ epoch_key r w = (Raise e, w)).
Proof.
  rewrite epoch_key_run. unfold epoch_of.
  destruct (StorageRecord.tags r !! "epoch") as [e|]; cbn;
    [destruct (py_int e)|]; eauto 8.
Qed.

Lemma map_epoch_key_cases (l : list StorageRecord.t) (w : World) :
  (exists ks, map_m epoch_key l w = (Ok ks, w) /\
              Forall (fun x => is_Some (epoch_of x)) l) \/
  (exists e, (e = KeyError \/ e = ValueError) /\
             map_m epoch_key l w = (Raise e, w)).
Proof.
  induction l as [|x l IH]; [left; exists []; split; [reflexivity|constructor]|].
  cbn [map_m]. unfold bind.
  destruct (epoch_key_cases x w) as [(n & Hn & ->)|(_ & e & He & ->)];
    [|right; eauto].
  destruct IH as [(ks & -> & Hall)|(e & He & ->)]; [|right; eauto].
  left. exists (n :: ks). split; [reflexivity|]. constructor; [|exact Hall].
  rewrite Hn. eauto.
Qed.

(** X16: [_match_sent_cred_def_id] reads the epoch of every record the query
    matches before it picks one: a single matching record whose [epoch] tag
    is missing or is not an integer makes the selection fail with a
    [KeyError] or a [ValueError], however recent the other matches are. *)
Theorem match_needs_every_epoch (q : gmap string string) (w : World)
    (bad : StorageRecord.t) :
  In bad (sent_cred_defs q w) ->
  epoch_of bad = None ->
  exists e, (e = KeyError \/ e = ValueError) /\
            _match_sent_cred_def_id q w = (Raise e, w).
Proof.
  intros Hin Hbad.
  unfold _match_sent_cred_def_id, find_all_records, bind.
  fold (sent_cred_defs q w).
  destruct (sent_cred_defs q w) as [|r0 rest]; [destruct Hin|].
  destruct (epoch_key_cases r0 w) as [(n & Hn & ->)|(_ & e & He & ->)];
    [|eauto].
  destruct (map_epoch_key_cases rest w) as [(ks & -> & Hall)|(e & He & ->)];
    [|eauto].
  exfalso. destruct Hin as [<-|Hin]; [congruence|].
  rewrite List.Forall_forall in Hall. destruct (Hall _ Hin) as [k Hk]. congruence.
Qed.

Lemma match_needs_every_epoch_witness :
  let w := demo_stale_world in
  _match_sent_cred_def_id {[ "schema_name" := "identification schema" ]} w
  = (Raise ValueError, w).
Proof.
  intros w.
  destruct (match_needs_every_epoch
              {[ "schema_name" := "identification schema" ]} w
              (demo_cred_def_sent "s0" "X:3:CL:7:tag" "last week"))
    as (e & He & Hrun).
  - vm_compute. auto.
  - vm_compute. reflexivity.
  - rewrite Hrun. vm_compute in Hrun. now injection Hrun as <-.
Defined.

(** X17: the tag query [create_offer] filters the sent credential
    definitions by holds exactly the proposal's selectors that are set and
    not empty, each under its tag name and with its value; a selector that
    is missing or the empty string puts nothing in the query, and no other
    key is ever in it. *)
Theorem tag_query_holds_the_set_selectors (m : CredentialProposal.t)
    (t v : string) :
  cred_def_tag_query m !! t = Some v <->
  In t CRED_DEF_TAGS /\ proposal_getattr m t = Some v /\ v <> "".
Proof.
  unfold cred_def_tag_query. rewrite tag_query_fold, lookup_empty.
  rewrite <- list_elem_of_In.
  destruct (bool_decide (t ∈ CRED_DEF_TAGS)) eqn:Et; cbn.
  - apply bool_decide_eq_true_1 in Et.
    destruct (proposal_getattr m t) as [v'|] eqn:Ev; cbn.
    + destruct (String.eqb_spec v' ""); cbn.
      * split; [discriminate|]. intros (_ & [= ->] & H). contradiction.
      * split; [intros [= ->]; auto|]. now intros (_ & [= ->] & _).
    + split; [discriminate|]. now intros (_ & ? & _).
  - apply bool_decide_eq_false_1 in Et.
    split; [discriminate|]. now intros (? & _).
Qed.

(** ** Opening an exchange *)

Lemma create_offer_keeps_setup P counter_proposal comment r w :
  post (create_offer P counter_proposal comment) (r, w)
    (fun x s' =>
       connection_id (fst s') = connection_id r /\
       initiator (fst s') = initiator r /\
       role (fst s') = role r /\
       auto_issue (fst s') = auto_issue r /\
       auto_remove (fst s') = auto_remove r /\
       (forall m, x = Ok m ->
          state (fst s') = Some STATE_OFFER_SENT /\
          is_Some (credential_exchange_id (fst s')))).
Proof.
  unfold create_offer.
  repeat quiet_step; cbn; repeat split; intros; simplify_eq; cbn; eauto.
Qed.

(** X18: [prepare_send] runs [create_offer] on a record of its own making.
    When it returns, the record is stored under an identifier, in
    [OFFER_SENT], as issuer and self-initiated, with automatic issuance on
    and the connection given; its thread is the id of the offer message; it
    is set to auto-remove as the argument says or, without an argument, when
    the agent does not preserve exchange records.  When the offer cannot be
    made, the error of [create_offer] comes out and no record is stored. *)
Theorem prepare_send_opens_an_exchange (P : Profile.t)
    (conn_id : option string) (credential_proposal : CredentialProposal.t)
    (auto_remove_arg : option bool) (comment : option string) (w : World) :
  let out := prepare_send P conn_id credential_proposal auto_remove_arg
               comment w in
  match fst out with
  | Ok (r', msg) =>
      state r' = Some STATE_OFFER_SENT /\
      role r' = Some ROLE_ISSUER /\
      initiator r' = Some INITIATOR_SELF /\
      auto_issue r' = Some true /\
      connection_id r' = conn_id /\
      auto_remove r'
      = Some (match auto_remove_arg with
              | Some b => b
              | None => negb (default false
                                (Profile.preserve_exchange_records P))
              end) /\
      thread_id r' = Some (CredentialOffer._message_id msg) /\
      credential_offer_dict r' = Some msg /\
      is_Some (credential_exchange_id r') /\
      exchange_records (snd out) = store_put r' (exchange_records w) /\
      count is_save (snd out) = S (count is_save w)
  | Raise _ =>
      exchange_records (snd out) = exchange_records w /\
      count is_save (snd out) = count is_save w
  end.
Proof.
  cbv zeta. unfold prepare_send.
  match goal with |- context [create_offer P None comment (?r, w)] =>
    pose proof (create_offer_keeps_setup P None comment r w) as Hk;
    pose proof (create_offer_coherent P None comment r w) as Hc;
    pose proof (create_offer_saves P None comment r w) as Hs;
    unfold post in Hk, Hc, Hs;
    destruct (create_offer P None comment (r, w)) as [[msg|e] [r' w']]
  end; unfold saved_on_return in *; cbn [fst snd] in *.
  - destruct Hk as (Hconn & Hini & Hrole & Hai & Har & Hok).
    destruct (Hok msg eq_refl) as [Hst Hid].
    destruct (Hc msg eq_refl) as (m & offer & _ & _ & Hdict & _ & _ & Hth & _).
    destruct Hs as [Hrec Hsv].
    repeat split; auto.
  - exact Hs.
Qed.

Lemma find_store_put (p : V10CredentialExchange -> bool) r l :
  p r = true -> List.find p l = None ->
  List.find p (store_put r l) = Some r.
Proof.
  intros Hr Hl. unfold store_put.
  destruct (existsb (same_record r) l) eqn:E.
  - induction l as [|x l IH]; [discriminate|].
    cbn in Hl, E |- *. destruct (p x) eqn:Hx; [discriminate|].
    destruct (same_record r x); cbn; [now rewrite Hr|].
    rewrite Hx. apply IH; assumption.
  - clear E. induction l as [|x l IH]; cbn in *; [now rewrite Hr|].
    destruct (p x); [discriminate|]. now apply IH.
Qed.

(** X19: [create_proposal] and [receive_proposal] always open an exchange:
    each returns a record that has an identifier and is in the store, on the
    thread of the proposal message (the message [create_proposal] makes has
    no thread of its own, so the thread is the message's id), and when no
    stored record was on that connection and thread before, the lookup by
    connection and thread finds the new record.  The holder's record is
    [PROPOSAL_SENT] and takes [auto_offer] and [auto_remove] from the
    arguments; the issuer's is [PROPOSAL_RECEIVED] and takes its automation
    flags from the settings alone. *)
Theorem proposals_open_an_exchange (P : Profile.t) (conn_id : option string)
    (w : World) :
  let on_thread thid r :=
    bool_decide (thread_id r = Some thid) &&
    bool_decide (connection_id r = conn_id) in
  (forall auto_offer_arg auto_remove_arg comment preview sid sdid sname sver
          cdid idid trace_arg,
     exists r' w' i,
       create_proposal P conn_id auto_offer_arg auto_remove_arg comment
         preview sid sdid sname sver cdid idid trace_arg w = (Ok r', w') /\
       credential_exchange_id r' = Some i /\
       In r' (exchange_records w') /\
       state r' = Some STATE_PROPOSAL_SENT /\
       role r' = Some ROLE_HOLDER /\
       initiator r' = Some INITIATOR_SELF /\
       connection_id r' = conn_id /\
       thread_id r' = Some (Profile.uuid4 P (uuid_counter w)) /\
       (exists m, credential_proposal_dict r' = Some m /\
                  CredentialProposal._message_id m
                  = Profile.uuid4 P (uuid_counter w) /\
                  CredentialProposal.credential_proposal m = preview /\
                  CredentialProposal.cred_def_id m = cdid) /\
       auto_offer r' = auto_offer_arg /\
       auto_remove r'
       = Some (match auto_remove_arg with
               | Some b => b
               | None => negb (default false
                                 (Profile.preserve_exchange_records P))
               end) /\
       log w' = log w ++ [EvSave i "create credential proposal"] /\
       (List.find (on_thread (Profile.uuid4 P (uuid_counter w)))
                  (exchange_records w) = None ->
        retrieve_by_connection_and_thread conn_id
          (Profile.uuid4 P (uuid_counter w)) w' = (Ok r', w'))) /\
  (forall message,
     exists r' w' i,
       receive_proposal P message conn_id w = (Ok r', w') /\
       credential_exchange_id r' = Some i /\
       In r' (exchange_records w') /\
       state r' = Some STATE_PROPOSAL_RECEIVED /\
       role r' = Some ROLE_ISSUER /\
       initiator r' = Some INITIATOR_EXTERNAL /\
       connection_id r' = conn_id /\
       thread_id r' = Some (CredentialProposal._thread_id message) /\
       credential_proposal_dict r' = Some message /\
       auto_offer r' = Profile.auto_respond_credential_proposal P /\
       auto_issue r' = Profile.auto_respond_credential_request P /\
       auto_remove r'
       = Some (negb (default false (Profile.preserve_exchange_records P))) /\
       log w' = log w ++ [EvSave i "receive credential proposal"] /\
       (List.find (on_thread (CredentialProposal._thread_id message))
                  (exchange_records w) = None ->
        retrieve_by_connection_and_thread conn_id
          (CredentialProposal._thread_id message) w' = (Ok r', w'))).
Proof.
  intros on_thread. subst on_thread. split; intros.
  - unfold create_proposal, save_record, bind, new_uuid, default_auto_remove,
      CredentialProposal._thread_id,
      CredentialProposal.assign_trace_decorator,
      retrieve_by_connection_and_thread, retrieve_by_tag_filter.
    cbn. do 3 eexists. split; [reflexivity|]. cbn.
    repeat split; eauto using store_put_In.
    intros Hnone. rewrite find_store_put; [reflexivity| |exact Hnone].
    cbn. now rewrite !bool_decide_eq_true_2.
  - unfold receive_proposal, save_record, bind, new_uuid, default_auto_remove,
      retrieve_by_connection_and_thread, retrieve_by_tag_filter.
    cbn. do 3 eexists. split; [reflexivity|]. cbn.
    repeat split; eauto using store_put_In.
    intros Hnone. rewrite find_store_put; [reflexivity| |exact Hnone].
    cbn. now rewrite !bool_decide_eq_true_2.
Qed.

(** An issuer that gets a proposal finds the exchange again when the request
    comes in on the same thread. *)
Example receive_proposal_then_request :
  let opened := receive_proposal demo_profile
                  (demo_proposal None ["name"; "date"; "id"]) (Some "c1")
                  (demo_world []) in
  exists r' w',
    receive_request demo_profile
      {| CredentialRequest._message_id := "m-request";
         CredentialRequest._thread := Some "m-0";
         CredentialRequest._trace := false;
         CredentialRequest.requests_attach := ["request"] |}
      (Some "c1") (snd opened) = (Ok r', w') /\
    credential_exchange_id r' = Some "uuid-0" /\
    state r' = Some STATE_REQUEST_RECEIVED /\
    length (exchange_records w') = 1%nat.
Proof. vm_compute. eauto 6. Qed.

(** ** A revocation id that is no number *)

(** X20: against an active registry, [issue_credential] reads the issuer's
    revocation id as an integer.  When the issuer returns a credential with
    no revocation id, or with one that is not an integer, the flow fails
    with [TypeError] or [ValueError] after the issuer has been called: the
    record has taken the registry and the revocation id, but holds no
    credential, is still in [REQUEST_RECEIVED] and is not saved, and no
    retry is made. *)
Theorem revocation_id_must_be_an_integer (P : Profile.t)
    (r : V10CredentialExchange) (w : World) (offer : IndyOffer.t)
    (req : IndyCredRequest) (proposal : CredentialProposal.t)
    (preview : CredentialPreview.t) (a : IssuerRevRegRecord.t)
    (others : list IssuerRevRegRecord.t) (c : IndyCredential.t)
    (rid : option string) (comment : option string) (retries : nat) :
  state r = Some STATE_REQUEST_RECEIVED ->
  credential r = None ->
  credential_offer r = Some offer ->
  credential_request r = Some req ->
  credential_proposal_dict r = Some proposal ->
  CredentialProposal.credential_proposal proposal = Some preview ->
  revocation (Profile.get_credential_definition P (credential_definition_id r))
  = true ->
  IssuerRevRegRecord.query_by_cred_def_id (rev_reg_records w)
    (credential_definition_id r) (Some IssuerRevRegRecord.STATE_ACTIVE)
  = a :: others ->
  Profile.create_credential P
    (log w ++ issue_ledger_reads r ++
     [EvFetchTails (IssuerRevRegRecord.revoc_reg_id a)])
    (issue_args P r offer req preview a)
  = Issued c rid ->
  rid ≫= py_int = None ->
  let r1 :=
    set_revocation_id rid
      (set_revoc_reg_id (Some (IssuerRevRegRecord.revoc_reg_id a)) r) in
  issue_credential P comment retries (r, w)
  = (Raise (match rid with None => TypeError | Some _ => ValueError end),
     (r1,
      add_log
        (issue_ledger_reads r ++
         [EvFetchTails (IssuerRevRegRecord.revoc_reg_id a);
          EvIssuerCreateCredential (issue_args P r offer req preview a)])
        w)) /\
  state r1 = Some STATE_REQUEST_RECEIVED /\
  credential r1 = None.
Proof.
  intros Hstate Hcred Hoffer Hreq Hprop Hprev Hrevocable Hactive Hissued Hint
    r1.
  split; [|split; [exact Hstate|exact Hcred]]. subst r1.
  destruct retries; cbn [issue_credential]; unfold_issue;
  cbn_flow; rewrite bool_decide_eq_false_2 by (rewrite Hstate; auto);
  rewrite Hcred, Hoffer, Hreq; cbn_flow; rewrite Hrevocable; cbn_flow;
  rewrite Hactive; cbn_flow; rewrite Hprop; cbn_flow; rewrite Hprev; cbn_flow;
  unfold issue_ledger_reads, issue_args in Hissued; cbn [app] in Hissued;
  rewrite <- !app_assoc; cbn [app]; rewrite Hissued; cbn_flow;
  (destruct rid as [s|]; cbn in Hint |- *; [rewrite Hint; cbn_flow|]);
  unfold add_log, issue_ledger_reads, issue_args; cbn_flow;
  rewrite <- ?app_assoc; reflexivity.
Qed.

Lemma revocation_id_must_be_an_integer_witness :
  let r := demo_issuer_record in
  let a := demo_rev_reg "R1" IssuerRevRegRecord.STATE_ACTIVE 10 100 in
  let out := issue_credential demo_profile_unnumbered None 5
               (r, demo_registry_world [a] [r]) in
  fst out = Raise TypeError /\
  revoc_reg_id (fst (snd out)) = Some "R1" /\
  exchange_records (snd (snd out)) = [r] /\
  count is_sleep (snd (snd out)) = 0%nat.
Proof.
  intros r a out.
  destruct (revocation_id_must_be_an_integer demo_profile_unnumbered r
              (demo_registry_world [a] [r]) (demo_offer "X:3:CL:42:tag")
              "request" (demo_proposal None ["name"; "date"; "id"])
              (demo_preview ["name"; "date"; "id"]) a []
              (demo_credential (Some "R1")) None None 5
              eq_refl eq_refl eq_refl eq_refl eq_refl eq_refl eq_refl
              eq_refl eq_refl eq_refl)
    as (Hrun & _).
  subst out. rewrite Hrun. repeat split.
Defined.

(** ** Reading an invitation *)

Lemma length_string_app (s t : string) :
  String.length (s +:+ t) = (String.length s + String.length t)%nat.
Proof. induction s as [|c s IH]; simpl; [reflexivity|now f_equal]. Qed.

Lemma length_py_repeat (n : nat) : String.length (py_repeat "=" n) = n.
Proof. induction n as [|n IH]; simpl; [reflexivity|now f_equal]. Qed.

Lemma substring_all (s : string) : substring 0 (String.length s) s = s.
Proof. induction s as [|c s IH]; simpl; [reflexivity|now f_equal]. Qed.

Lemma substring_split (s : string) : forall i,
  (i <= String.length s)%nat ->
  substring 0 i s +:+ substring i (String.length s - i) s = s.
Proof.
  induction s as [|c s IH]; intros [|i] Hi; simpl in *;
    try reflexivity; try lia.
  - rewrite substring_all. reflexivity.
  - change (String c (substring 0 i s
                      +:+ substring i (String.length s - i) s) = String c s).
    f_equal. apply IH. lia.
Qed.

Lemma substring_length_le (s : string) : forall i n,
  String.length (substring i n s) = n ->
  n = 0%nat \/ (i + n <= String.length s)%nat.
Proof.
  induction s as [|c s IH]; intros [|i] [|n] H; simpl in *;
    try (left; reflexivity); try discriminate.
  - injection H as H. destruct (IH 0%nat n H); right; lia.
  - destruct (IH i (S n) H); [discriminate|right; lia].
Qed.

Lemma substring_shift (s : string) : forall i n m,
  (i + n <= String.length s)%nat ->
  substring i (n + m) s = substring i n s +:+ substring (i + n) m s.
Proof.
  induction s as [|c s IH]; intros i n m H.
  - destruct i, n; simpl in H; try lia. reflexivity.
  - destruct i as [|i].
    + destruct n as [|n]; [reflexivity|]. simpl in H.
      change (String c (substring 0 (n + m) s)
              = String c (substring 0 n s +:+ substring (0 + n) m s)).
      f_equal. apply IH. lia.
    + simpl in H.
      change (substring i (n + m) s
              = substring i n s +:+ substring (i + n) m s).
      apply IH. lia.
Qed.


Lemma substring_app_prefix (s t : string) :
  substring 0 (String.length s) (s +:+ t) = s.
Proof.
  induction s as [|c s IH]; [destruct t; reflexivity|].
  change (String c (substring 0 (String.length s) (s +:+ t)) = String c s).
  now f_equal.
Qed.

Lemma cut_at (needle query : string) (i : nat) :
  (0 < String.length needle)%nat ->
  String.index 0 needle query = Some i ->
  query = substring 0 i query +:+ needle
          +:+ py_slice_from (i + String.length needle) query.
Proof.
  intros Hpos Hi. pose proof (index_correct1 _ _ _ _ Hi) as Hsub.
  assert (Hlen : (i + String.length needle <= String.length query)%nat).
  { destruct (substring_length_le query i (String.length needle))
      as [H0|H]; [now rewrite Hsub|lia|exact H]. }
  unfold py_slice_from.
  rewrite <- Hsub at 1.
  rewrite <- substring_shift by exact Hlen.
  replace (String.length query - (i + String.length needle))%nat
    with (String.length query - i - String.length needle)%nat by lia.
  rewrite <- (substring_split query i) at 1 by lia.
  f_equal.
  replace (String.length query - i)%nat
    with (String.length needle
          + (String.length query - i - String.length needle))%nat at 1 by lia.
  reflexivity.
Qed.

Lemma index_nonempty (needle : string) (i : nat) :
  needle <> "" -> String.index 0 needle "" = Some i -> False.
Proof. destruct needle; [congruence|]. cbn. discriminate. Qed.

(** X21: [input_invitation] decodes what follows the first [c_i=] of the
    query, up to its end; without a [c_i=], what follows the first [oob=];
    without either, all the user typed.  Before decoding it pads the text
    with one or two [=] to a length that is a multiple of four, leaving the
    text itself as it is; a text whose length is one more than a multiple
    of four is not padded at all. *)
Theorem invitation_text_is_cut_and_padded (query details : string) :
  (forall i, String.index 0 "c_i=" query = Some i ->
     query = substring 0 i query +:+ "c_i=" +:+ b64_invite_of query details) /\
  (String.index 0 "c_i=" query = None ->
   forall i, String.index 0 "oob=" query = Some i ->
     query = substring 0 i query +:+ "oob=" +:+ b64_invite_of query details) /\
  (String.index 0 "c_i=" query = None ->
   String.index 0 "oob=" query = None ->
   b64_invite_of query details = details) /\
  (forall s,
     let padded := pad_b64_invite s in
     (String.length s mod 4 = 1 -> padded = s)%nat /\
     (String.length s mod 4 <> 1 -> String.length padded mod 4 = 0)%nat /\
     (String.length padded <= String.length s + 2)%nat /\
     substring 0 (String.length s) padded = s).
Proof.
  split; [|split; [|split]].
  - intros i Hi. unfold b64_invite_of.
    destruct (String.eqb_spec query "") as [->|_]; cbn [negb].
    + now apply index_nonempty in Hi.
    + rewrite Hi. apply (cut_at "c_i=" query i); [cbn; lia|exact Hi].
  - intros Hc i Hi. unfold b64_invite_of.
    destruct (String.eqb_spec query "") as [->|_]; cbn [negb].
    + now apply index_nonempty in Hi.
    + rewrite Hc, Hi. apply (cut_at "oob=" query i); [cbn; lia|exact Hi].
  - intros Hc Ho. unfold b64_invite_of. rewrite Hc, Ho.
    now destruct (negb _).
  - intros s padded. subst padded. unfold pad_b64_invite.
    pose proof (Nat.mod_upper_bound (String.length s) 4 ltac:(lia)) as Hlt.
    pose proof (Nat.div_mod_eq (String.length s) 4) as Hdm.
    destruct (String.length s mod 4)%nat as [|[|[|[|k]]]] eqn:Hk; try lia;
      cbn [Nat.sub Nat.leb]; rewrite ?length_string_app, ?length_py_repeat.
    + repeat split; intros; try lia; try assumption; apply substring_all.
    + repeat split; intros; try lia; try congruence; apply substring_all.
    + repeat split; intros; try lia; try discriminate;
        [|apply substring_app_prefix].
      replace (String.length s + 2)%nat
        with ((String.length s / 4 + 1) * 4)%nat by lia.
      apply Nat.Div0.mod_mul.
    + repeat split; intros; try lia; try discriminate;
        [|apply substring_app_prefix].
      replace (String.length s + 1)%nat
        with ((String.length s / 4 + 1) * 4)%nat by lia.
      apply Nat.Div0.mod_mul.
Qed.

(** The query names both parameters: [c_i=] wins, and the rest of the query
    comes along. *)
Example invitation_of_both_parameters :
  b64_invite_of "oob=eyJh&c_i=eyJiIjoxfQ&lang=en" "typed"
  = "eyJiIjoxfQ&lang=en" /\
  pad_b64_invite "eyJiIjoxfQ" = "eyJiIjoxfQ==" /\
  pad_b64_invite "eyJiI" = "eyJiI".
Proof. repeat split. Qed.

(** ** The state guards *)

Lemma guard_free_ret {A} (a : A) : guard_free (ret a).
Proof. intros w. exact I. Qed.

Lemma guard_free_bind {A B} (c : M World A) (k : A -> M World B) :
  guard_free c -> (forall a, guard_free (k a)) -> guard_free (bind c k).
Proof.
  intros Hc Hk w. unfold bind. specialize (Hc w).
  destruct (c w) as [[a|e] w1]; cbn in *; [apply Hk|exact Hc].
Qed.

Lemma guard_free_emit e : guard_free (emit e).
Proof. intros w. exact I. Qed.

Lemma guard_free_new_uuid P : guard_free (new_uuid P).
Proof. intros w. exact I. Qed.

Lemma guard_free_sleep P n : guard_free (sleep P n).
Proof. intros w. exact I. Qed.

Lemma guard_free_notify c n b :
  guard_free (notify_revocation_reg_event c n b).
Proof. intros w. exact I. Qed.

Lemma guard_free_rev_reg_set_state a s : guard_free (rev_reg_set_state a s).
Proof. intros w. exact I. Qed.

Lemma guard_free_query_rev_regs c s : guard_free (query_rev_regs c s).
Proof. intros w. exact I. Qed.

Lemma guard_free_get_active c :
  guard_free (get_active_issuer_rev_reg_record c).
Proof.
  intros w. unfold get_active_issuer_rev_reg_record.
  destruct IssuerRevRegRecord.query_by_cred_def_id; cbn; auto.
Qed.

Lemma guard_free_ledger_get_schema P c : guard_free (ledger_get_schema P c).
Proof. intros w. exact I. Qed.

Lemma guard_free_ledger_get_credential_definition P c :
  guard_free (ledger_get_credential_definition P c).
Proof. intros w. exact I. Qed.

Lemma guard_free_ledger_get_revoc_reg_def P c :
  guard_free (ledger_get_revoc_reg_def P c).
Proof. intros w. exact I. Qed.

Lemma guard_free_issuer_create_credential P args :
  guard_free (issuer_create_credential P args).
Proof.
  intros w. unfold issuer_create_credential.
  destruct Profile.create_credential; cbn; auto.
Qed.

Lemma guard_free_holder_store_credential P args :
  guard_free (holder_store_credential P args).
Proof.
  intros w. unfold holder_store_credential.
  destruct Profile.store_credential; cbn; auto.
Qed.

Lemma guard_free_holder_get_credential P c :
  guard_free (holder_get_credential P c).
Proof. intros w. exact I. Qed.

Lemma guard_free_obtain_credential_request P c o d :
  guard_free (obtain_credential_request P c o d).
Proof.
  intros w. unfold obtain_credential_request.
  destruct (cache w) as [entries|]; [destruct (entries !! _)|]; exact I.
Qed.

Lemma post_in_world_guard_free {A} (c : M World A) (s : Frame) Q :
  guard_free c ->
  (forall x w',
     match x with Raise e => is_wrong_state e = false | Ok _ => True end ->
     Q x (fst s, w')) ->
  post (in_world c) s Q.
Proof.
  intros Hc H. unfold post, in_world. specialize (Hc (snd s)).
  destruct (c (snd s)) as [x w']. cbn in *. auto.
Qed.

Create HintDb guard_free.
#[local] Hint Resolve guard_free_emit guard_free_new_uuid guard_free_sleep
  guard_free_notify guard_free_rev_reg_set_state guard_free_query_rev_regs
  guard_free_get_active guard_free_ledger_get_schema
  guard_free_ledger_get_credential_definition
  guard_free_ledger_get_revoc_reg_def guard_free_issuer_create_credential
  guard_free_holder_store_credential guard_free_holder_get_credential
  guard_free_obtain_credential_request : guard_free.

Ltac guard_step :=
  lazymatch goal with
  | |- post (in_world _) _ _ =>
      apply post_in_world_guard_free;
      [solve [auto with guard_free] | intros ? ? ?]
  | |- post (save _ _) _ _ => apply post_save; intros
  | |- _ => run_step
  end; cbn [fst snd].

Ltac guard_facts :=
  unfold guarded in *; cbn in *; try exact I;
  try (intros; congruence);
  try (intros _; split; [|split; reflexivity];
       match goal with
       | H : bool_decide _ = true |- _ => exact (bool_decide_eq_true_1 _ H)
       end);
  try (let Hws := fresh in
       intros Hws; exfalso;
       match goal with
       | H : is_wrong_state _ = true -> _, G : bool_decide _ = false |- _ =>
           let Hne := fresh in
           destruct (H Hws) as [Hne _];
           exact (bool_decide_eq_false_1 _ G Hne)
       end).

Lemma create_request_guarded P holder_did r w :
  post (create_request P holder_did) (r, w)
    (fun x s' => guarded STATE_OFFER_RECEIVED r w x s').
Proof.
  unfold create_request. repeat guard_step. all: guard_facts.
Qed.

Lemma store_credential_guarded P cred_id r w :
  post (store_credential P cred_id) (r, w)
    (fun x s' => guarded STATE_CREDENTIAL_RECEIVED r w x s').
Proof.
  unfold store_credential. repeat guard_step. all: guard_facts.
Qed.

Lemma issue_credential_finish_guarded P comment r0 w0 r w :
  post (issue_credential_finish P comment) (r, w)
    (fun x s' => guarded STATE_REQUEST_RECEIVED r0 w0 x s').
Proof.
  unfold issue_credential_finish. repeat guard_step. all: guard_facts.
Qed.

Lemma issue_credential_guarded P comment n : forall r w,
  post (issue_credential P comment n) (r, w)
    (fun x s' => guarded STATE_REQUEST_RECEIVED r w x s').
Proof.
  induction n as [|n IH]; intros r w; cbn [issue_credential].
  - repeat first
      [ apply issue_credential_finish_guarded
      | guard_step ].
    all: guard_facts.
  - repeat first
      [ apply issue_credential_finish_guarded
      | eapply post_mono; [apply IH|]; cbn [fst snd]; intros [?|?] [? ?] ?
      | guard_step ].
    all: guard_facts.
Qed.

(** X22: the error of a state guard means what it says.  When
    [create_request], [issue_credential] (with whatever retries) or
    [store_credential] fails with the wrong-state error, the record it was
    given is not in the state the flow needs, the error names that record
    and its state, and nothing has happened: record and world are as they
    were.  In particular no retry of [issue_credential] ever ends in
    that error. *)
Theorem state_error_means_wrong_state (P : Profile.t)
    (r : V10CredentialExchange) (w : World) (holder_did : string)
    (comment : option string) (retries : nat) (cred_id : option string) :
  let requested := create_request P holder_did (r, w) in
  let issued := issue_credential P comment retries (r, w) in
  let stored := store_credential P cred_id (r, w) in
  guarded STATE_OFFER_RECEIVED r w (fst requested) (snd requested) /\
  guarded STATE_REQUEST_RECEIVED r w (fst issued) (snd issued) /\
  guarded STATE_CREDENTIAL_RECEIVED r w (fst stored) (snd stored).
Proof.
  split; [|split].
  - exact (create_request_guarded P holder_did r w).
  - exact (issue_credential_guarded P comment retries r w).
  - exact (store_credential_guarded P cred_id r w).
Qed.

Lemma receive_request_state P message conn_id w r' w' :
  receive_request P message conn_id w = (Ok r', w') ->
  state r' = Some STATE_REQUEST_RECEIVED.
Proof.
  unfold receive_request, CredentialRequest.indy_cred_req, bind, try_except,
    on_not_found, retrieve_by_connection_and_thread, retrieve_by_tag_filter,
    save_record, new_uuid, ret, raise.
  intros H. repeat case_match; cbn in *; simplify_eq; reflexivity.
Qed.

Lemma receive_credential_state P message conn_id w r' w' :
  receive_credential P message conn_id w = (Ok r', w') ->
  state r' = Some STATE_CREDENTIAL_RECEIVED.
Proof.
  unfold receive_credential, CredentialIssue.indy_credential, bind,
    retrieve_by_connection_and_thread, retrieve_by_tag_filter,
    save_record, new_uuid, ret, raise.
  intros H. repeat case_match; cbn in *; simplify_eq; reflexivity.
Qed.

Lemma guarded_in_state {A} expected r w (x : Res A) s' :
  state r = Some expected -> guarded expected r w x s' ->
  match x with Raise e => is_wrong_state e = false | Ok _ => True end.
Proof.
  intros Hst Hg. destruct x as [a|e]; [exact I|].
  destruct (is_wrong_state e) eqn:E; [|reflexivity].
  destruct (Hg E) as [Hne _]. contradiction.
Qed.

(** X23: each handler of an inbound message leaves the record where the
    agent's next flow starts: after [receive_offer], [create_request] does
    not fail on its state guard; after [receive_request], neither does
    [issue_credential]; after [receive_credential], neither does
    [store_credential] - in whatever world the next flow is then run. *)
Theorem handlers_hand_over (P : Profile.t) (conn_id : option string)
    (w : World) (r1 : V10CredentialExchange) (w1 : World) :
  (forall message, receive_offer P message conn_id w = (Ok r1, w1) ->
     forall holder_did w2,
       match fst (create_request P holder_did (r1, w2)) with
       | Raise e => is_wrong_state e = false
       | Ok _ => True
       end) /\
  (forall message, receive_request P message conn_id w = (Ok r1, w1) ->
     forall comment retries w2,
       match fst (issue_credential P comment retries (r1, w2)) with
       | Raise e => is_wrong_state e = false
       | Ok _ => True
       end) /\
  (forall message, receive_credential P message conn_id w = (Ok r1, w1) ->
     forall cred_id w2,
       match fst (store_credential P cred_id (r1, w2)) with
       | Raise e => is_wrong_state e = false
       | Ok _ => True
       end).
Proof.
  split; [|split]; intros message Hrun; intros.
  - destruct (receive_offer_assigns _ _ _ _ _ _ Hrun) as (? & _ & _ & Hst).
    eapply guarded_in_state; [exact Hst|].
    apply (create_request_guarded P holder_did r1 w2).
  - pose proof (receive_request_state _ _ _ _ _ _ Hrun) as Hst.
    eapply guarded_in_state; [exact Hst|].
    apply (issue_credential_guarded P comment retries r1 w2).
  - pose proof (receive_credential_state _ _ _ _ _ _ Hrun) as Hst.
    eapply guarded_in_state; [exact Hst|].
    apply (store_credential_guarded P cred_id r1 w2).
Qed.

(** ** The birth date of the demo *)

Lemma py_date_some y m d x :
  py_date y m d = Some x ->
  1 <= y <= 9999 /\ 1 <= m <= 12 /\ 1 <= d <= days_in_month y m /\
  x = {| Date.year := y; Date.month := m; Date.day := d |}.
Proof.
  unfold py_date. destruct (_ && _) eqn:E; [|discriminate].
  intros [= <-]. repeat (apply andb_true_iff in E as [E ?]).
  repeat match goal with
         | H : (_ <=? _) = true |- _ => apply Z.leb_le in H
         end.
  repeat split; try lia.
Qed.

Lemma days_in_month_other y y' m : m <> 2 -> days_in_month y m = days_in_month y' m.
Proof.
  intros H. unfold days_in_month. destruct (m =? 2) eqn:E; [lia|reflexivity].
Qed.

Lemma days_in_february y : 28 <= days_in_month y 2 <= 29.
Proof. unfold days_in_month. cbn. destruct (is_leap y); lia. Qed.

Lemma leap_minus_18 y : is_leap y = true -> is_leap (y - 18) = false.
Proof.
  unfold is_leap. intros H. apply andb_true_iff in H as [H _].
  apply andb_false_iff. left. apply Z.eqb_neq. apply Z.eqb_eq in H.
  Z.div_mod_to_equations. lia.
Qed.

(** X24: the demo takes the birth date to be today's date with the year
    lowered by the age.  On every day but 29 February that is a date, of the
    same month and day, and its [%Y%m%d] number is today's less
    [10000 * age].  On 29 February the construction raises [ValueError]
    exactly when the earlier year is no leap year: always for the proof
    request (18 years back), and for the offers (24 years back) when a
    century that is no leap year lies in between. *)
Theorem birth_date_of_the_demo (today : Date.t) (age : Z) :
  py_date (Date.year today) (Date.month today) (Date.day today) = Some today ->
  0 <= age < Date.year today ->
  ((Date.month today, Date.day today) <> (2, 29) ->
   exists b, birth_date age today = Some b /\
             Date.year b = Date.year today - age /\
             Date.month b = Date.month today /\
             Date.day b = Date.day today /\
             dateint b = dateint today - age * 10000) /\
  ((Date.month today, Date.day today) = (2, 29) ->
   (birth_date age today = None <-> is_leap (Date.year today - age) = false) /\
   birth_date 18 today = None).
Proof.
  intros Htoday Hage.
  destruct today as [y m d]. cbn [Date.year Date.month Date.day] in *.
  apply py_date_some in Htoday as (Hy & Hm & Hd & _).
  split.
  - intros Hne. unfold birth_date, py_date. cbn [Date.year Date.month Date.day].
    assert (Hd' : d <= days_in_month (y - age) m).
    { destruct (decide (m = 2)) as [->|Hm2].
      - pose proof (days_in_february y). pose proof (days_in_february (y - age)).
        assert (d <> 29) by congruence. lia.
      - rewrite (days_in_month_other (y - age) y m Hm2). lia. }
    replace (_ && _) with true.
    + eexists. split; [reflexivity|]. unfold dateint. cbn. lia.
    + symmetry. repeat (apply andb_true_iff; split); apply Z.leb_le; lia.
  - intros [= -> ->].
    assert (Hleap : is_leap y = true).
    { unfold days_in_month in Hd. cbn in Hd. destruct (is_leap y); [reflexivity|lia]. }
    assert (Hfeb : forall z, days_in_month z 2 = if is_leap z then 29 else 28)
      by reflexivity.
    split.
    + unfold birth_date, py_date. cbn [Date.year Date.month Date.day].
      rewrite Hfeb. destruct (is_leap (y - age)) eqn:E.
      * replace (_ && _) with true; [split; discriminate|].
        symmetry. repeat (apply andb_true_iff; split); apply Z.leb_le; lia.
      * replace (_ && _) with false; [split; reflexivity|].
        symmetry. apply andb_false_iff. right. reflexivity.
    + unfold birth_date, py_date. cbn [Date.year Date.month Date.day].
      rewrite Hfeb, (leap_minus_18 y Hleap).
      replace (_ && _) with false; [reflexivity|].
      symmetry. apply andb_false_iff. right. reflexivity.
Qed.

Lemma birth_date_of_the_demo_witness :
  let leap_day := {| Date.year := 2024; Date.month := 2; Date.day := 29 |} in
  birth_date 18 leap_day = None /\
  birth_date 24 leap_day
  = Some {| Date.year := 2000; Date.month := 2; Date.day := 29 |}.
Proof.
  intros leap_day.
  destruct (birth_date_of_the_demo leap_day 18 eq_refl ltac:(cbn; lia))
    as [_ H].
  destruct (H eq_refl) as [_ H18].
  split; [exact H18|reflexivity].
Defined.

(** The credential the demo offers satisfies the predicate the demo asks
    for: 24 years back is not after 18 years back. *)
Example demo_offer_meets_demo_request :
  let today := {| Date.year := 2026; Date.month := 11; Date.day := 3 |} in
  exists offered asked,
    birth_date 24 today = Some offered /\
    birth_date 18 today = Some asked /\
    dateint offered = 20021103 /\
    dateint asked = 20081103 /\
    dateint offered <= dateint asked.
Proof.
  intros today. subst today. eexists _, _.
  split; [reflexivity|]. split; [reflexivity|].
  repeat split; try reflexivity. cbv. discriminate.
Qed.
